(** * NanoKicker control: link layer, discovery and device handles

    A shallow embedding of [src/motherboard.py] and [src/nanokicker.py].

    - Python values that can be [None] are [option]s.
    - A call either returns or raises: [outcome].
    - Methods that touch the serial port, the registry or a handle's cache are
      computations over an explicit [World] (state passing with exceptions).
    - The serial port is driven by a script of per-transaction behaviours of
      the far end ([wire]); every call made on the port is appended to a trace,
      so that "what was written" is a property of the trace.
    - [print] output is not modelled; an exception raised while the argument
      of a [print] is evaluated is.
    - [comports()], the texts typed into the widget and the index of its
      combo box are inputs.
    - Left out: [__repr__] and the Qt windows, but for the mode tables,
      [set_parameters] and [set_advanced_parameters] of
      [gui/nanokicker_widget.py]. *)

From Stdlib Require Import ZArith Lia Bool List Strings.Byte Strings.String.
From Stdlib Require Import Floats.SpecFloat.
From stdpp Require Import base option list gmap.

Local Open Scope Z_scope.

(** ** Outcomes of a Python call *)

Inductive exn :=
  | StructError          (* struct.error *)
  | UnicodeDecodeError
  | ValueError
  | OverflowError
  | SerialException.     (* serial.SerialException *)

Inductive outcome (A : Type) :=
  | Ret (a : A)
  | Raise (e : exn).
Arguments Ret {A} a.
Arguments Raise {A} e.

Definition is_error {A} (o : outcome A) : Prop :=
  match o with Ret _ => False | Raise _ => True end.

Definition obind {A B} (o : outcome A) (f : A -> outcome B) : outcome B :=
  match o with Ret a => f a | Raise e => Raise e end.

(** ** Bytes *)

Definition byte_of_Z (z : Z) : byte :=
  default x00 (Byte.of_N (Z.to_N (z mod 256))).

Definition Z_of_byte (b : byte) : Z := Z.of_N (Byte.to_N b).

(** ** The [struct] module, for the four formats the program uses *)

Module struct.

(** Big-endian and little-endian layouts of an unsigned 32-bit integer. *)
Definition be32 (v : Z) : list byte :=
  [byte_of_Z (v / 16777216); byte_of_Z (v / 65536); byte_of_Z (v / 256); byte_of_Z v].

Definition le32 (v : Z) : list byte :=
  [byte_of_Z v; byte_of_Z (v / 256); byte_of_Z (v / 65536); byte_of_Z (v / 16777216)].

Definition in_range (lo hi v : Z) : bool := (lo <=? v) && (v <=? hi).

(** [struct.pack(">BBI", d, a, v)]: [struct.error] when a field does not
    fit its format. *)
Definition pack_BBI (d a v : Z) : outcome (list byte) :=
  if in_range 0 255 d && in_range 0 255 a && in_range 0 4294967295 v
  then Ret (byte_of_Z d :: byte_of_Z a :: be32 v)
  else Raise StructError.

(** [struct.pack("<I", v)] *)
Definition pack_I_le (v : Z) : outcome (list byte) :=
  if in_range 0 4294967295 v then Ret (le32 v) else Raise StructError.

(** [struct.unpack(">I", bs)[0]] *)
Definition unpack_I_be (bs : list byte) : outcome Z :=
  match bs with
  | [b0; b1; b2; b3] =>
      Ret (Z_of_byte b0 * 16777216 + Z_of_byte b1 * 65536 + Z_of_byte b2 * 256 + Z_of_byte b3)
  | _ => Raise StructError
  end.

(** [struct.unpack("<I", bs)[0]] *)
Definition unpack_I_le (bs : list byte) : outcome Z :=
  match bs with
  | [b0; b1; b2; b3] =>
      Ret (Z_of_byte b0 + Z_of_byte b1 * 256 + Z_of_byte b2 * 65536 + Z_of_byte b3 * 16777216)
  | _ => Raise StructError
  end.

(** *** Single precision

    A Python float is a binary64 datum, a [spec_float] in canonical form
    for [prec = 53], [emax = 1024].  Packing with ["f"] converts it to
    binary32 (round to nearest even) and stores the IEEE-754 bit pattern;
    unpacking reads a binary32 datum and widens it, exactly, to binary64.
    [spec_float] has one NaN, encoded here as the quiet NaN [0x7fc00000];
    the code keeps the sign and the payload of the NaN it is given, so what
    is proved of the bytes of a float is proved for a float that is not a
    NaN. *)

Definition binary32_of_float (x : spec_float) : spec_float :=
  match x with
  | S754_finite s m e => binary_round 24 128 s m e
  | _ => x
  end.

Definition float_of_binary32 (f : spec_float) : spec_float :=
  match f with
  | S754_finite s m e => binary_round 53 1024 s m e
  | _ => f
  end.

Definition is_infinity (x : spec_float) : bool :=
  match x with S754_infinity _ => true | _ => false end.

Definition is_finite (x : spec_float) : bool :=
  match x with S754_zero _ | S754_finite _ _ _ => true | _ => false end.

Definition sign_bit (s : bool) : Z := if s then 2147483648 else 0.

Definition bits_of_binary32 (f : spec_float) : Z :=
  match f with
  | S754_zero s => sign_bit s
  | S754_infinity s => sign_bit s + 2139095040
  | S754_nan => 2143289344
  | S754_finite s m e =>
      if Z.pos m <? 8388608
      then sign_bit s + Z.pos m
      else sign_bit s + (e + 150) * 8388608 + (Z.pos m - 8388608)
  end.

Definition binary32_of_bits (v : Z) : spec_float :=
  let s := 2147483648 <=? v in
  let ex := (v / 8388608) mod 256 in
  let mant := v mod 8388608 in
  if ex =? 0 then
    match mant with
    | Z.pos m => S754_finite s m (-149)
    | _ => S754_zero s
    end
  else if ex =? 255 then
    (if mant =? 0 then S754_infinity s else S754_nan)
  else
    match mant + 8388608 with
    | Z.pos m => S754_finite s m (ex - 150)
    | _ => S754_nan
    end.

(** [struct.pack("<f", x)]: [OverflowError] when a finite [x] rounds to
    an infinity. *)
Definition pack_f_le (x : spec_float) : outcome (list byte) :=
  let y := binary32_of_float x in
  if is_infinity y && negb (is_infinity x) then Raise OverflowError
  else Ret (le32 (bits_of_binary32 y)).

(** [struct.unpack("<f", bs)[0]] *)
Definition unpack_f_le (bs : list byte) : outcome spec_float :=
  obind (unpack_I_le bs) (fun v => Ret (float_of_binary32 (binary32_of_bits v))).

End struct.

(** ** [bytes.decode("utf-8")], strict

    [code_points] is the decoder: the list of code points, or nothing for a
    malformed or truncated sequence, where Python raises. *)

Definition is_cont (z : Z) : bool := (128 <=? z) && (z <=? 191).

Fixpoint code_points (bs : list byte) : option (list Z) :=
  match bs with
  | [] => Some []
  | b0 :: r0 =>
      let z0 := Z_of_byte b0 in
      if z0 <? 128 then cons z0 <$> code_points r0
      else if (194 <=? z0) && (z0 <=? 223) then
        match r0 with
        | b1 :: r1 =>
            let z1 := Z_of_byte b1 in
            if is_cont z1
            then cons ((z0 - 192) * 64 + (z1 - 128)) <$> code_points r1
            else None
        | _ => None
        end
      else if (224 <=? z0) && (z0 <=? 239) then
        match r0 with
        | b1 :: b2 :: r2 =>
            let z1 := Z_of_byte b1 in
            let z2 := Z_of_byte b2 in
            if is_cont z1 && is_cont z2
               && negb ((z0 =? 224) && (z1 <? 160))
               && negb ((z0 =? 237) && (160 <=? z1))
            then cons ((z0 - 224) * 4096 + (z1 - 128) * 64 + (z2 - 128))
                   <$> code_points r2
            else None
        | _ => None
        end
      else if (240 <=? z0) && (z0 <=? 244) then
        match r0 with
        | b1 :: b2 :: b3 :: r3 =>
            let z1 := Z_of_byte b1 in
            let z2 := Z_of_byte b2 in
            let z3 := Z_of_byte b3 in
            if is_cont z1 && is_cont z2 && is_cont z3
               && negb ((z0 =? 240) && (z1 <? 144))
               && negb ((z0 =? 244) && (144 <=? z1))
            then cons ((z0 - 240) * 262144 + (z1 - 128) * 4096
                       + (z2 - 128) * 64 + (z3 - 128))
                   <$> code_points r3
            else None
        | _ => None
        end
      else None
  end.

Definition decode_utf8 (bs : list byte) : outcome (list Z) :=
  match code_points bs with
  | Some cs => Ret cs
  | None => Raise UnicodeDecodeError
  end.

(** A reply is text when it decodes. *)
Definition decodes (bs : list byte) : bool :=
  match code_points bs with Some _ => true | None => false end.

(** ** The world: the motherboard object, the handle objects, the port *)

(** What the far end does during one transaction: a call on the port raises
    [serial.SerialException], or these bytes arrive before the read times
    out (none at all is a timeout). *)
Inductive step := AtReset | AtWrite | AtFlush | AtRead.

Inductive wire :=
  | Fails (st : step)
  | Delivers (bs : list byte).

(** Calls made on the port and on the owner's hooks, in program order. *)
Inductive call :=
  | COpen
  | CReset                      (* serial.reset_input_buffer() *)
  | CWrite (bs : list byte)     (* serial.write(bs) *)
  | CFlush                      (* serial.flush() *)
  | CRead (n : Z)               (* serial.read(n) *)
  | CReadline                   (* serial.readline() *)
  | CClose                      (* serial.close() *)
  | CCallback                   (* disconnect_callback() *)
  | CSleep.                     (* time.sleep(0.05) *)

(** A cached parameter: Python attributes are untyped. *)
Inductive value :=
  | VInt (z : Z)
  | VBool (b : bool)
  | VFloat (x : spec_float).

Record Serial := { is_open : bool }.

Record NanoKicker := {
  device_id : Z;
  mode : option value;
  frequency : option value;
  amplitude : option value;
  startup_enabled : option value;
  vin : option value;
  vout : option value;
  pot_range : option value;
  r_g_trim : option value;
  r_f_trim : option value;
  wiper : option value
}.

(** Handles are objects: the registry and the caller hold references. *)
Abbreviation addr := nat (only parsing).

Record Motherboard := {
  port : option string;
  serial : option Serial;
  nanokickers : gmap Z addr;
  disconnect_callback : bool   (* a callable was supplied; its body is the owner's *)
}.

Record World := {
  mb : Motherboard;
  heap : list NanoKicker;
  incoming : list wire;        (* one entry per transaction to come *)
  port_opens : bool;           (* whether serial.Serial(port) succeeds *)
  trace : list call
}.

Definition MAX_DEVICES : Z := 20.

Definition with_serial (s : option Serial) (m : Motherboard) : Motherboard :=
  {| port := port m; serial := s; nanokickers := nanokickers m;
     disconnect_callback := disconnect_callback m |}.

Definition with_nanokickers (r : gmap Z addr) (m : Motherboard) : Motherboard :=
  {| port := port m; serial := serial m; nanokickers := r;
     disconnect_callback := disconnect_callback m |}.

Definition with_mb (m : Motherboard) (w : World) : World :=
  {| mb := m; heap := heap w; incoming := incoming w;
     port_opens := port_opens w; trace := trace w |}.

Definition with_heap (h : list NanoKicker) (w : World) : World :=
  {| mb := mb w; heap := h; incoming := incoming w;
     port_opens := port_opens w; trace := trace w |}.

Definition with_incoming (i : list wire) (w : World) : World :=
  {| mb := mb w; heap := heap w; incoming := i;
     port_opens := port_opens w; trace := trace w |}.

Definition with_trace (t : list call) (w : World) : World :=
  {| mb := mb w; heap := heap w; incoming := incoming w;
     port_opens := port_opens w; trace := t |}.

(** [self.serial and self.serial.is_open] *)
Definition connected (m : Motherboard) : bool :=
  match serial m with Some s => is_open s | None => false end.

(** ** Computations *)

Definition M (A : Type) : Type := World -> outcome A * World.

#[global] Instance M_ret : MRet M := fun A a w => (Ret a, w).

#[global] Instance M_bind : MBind M := fun A B f c w =>
  match c w with
  | (Ret a, w') => f a w'
  | (Raise e, w') => (Raise e, w')
  end.

Definition raise {A} (e : exn) : M A := fun w => (Raise e, w).

Definition lift {A} (o : outcome A) : M A := fun w => (o, w).

Definition get_mb : M Motherboard := fun w => (Ret (mb w), w).

Definition put_mb (m : Motherboard) : M unit := fun w => (Ret tt, with_mb m w).

Definition log (c : call) : M unit := fun w => (Ret tt, with_trace (trace w ++ [c]) w).

(** [try: body except serial.SerialException: handler] *)
Definition try_except {A} (body handler : M A) : M A := fun w =>
  match body w with
  | (Raise SerialException, w') => handler w'
  | r => r
  end.

Fixpoint for_each {A} (l : list A) (body : A -> M unit) : M unit :=
  match l with
  | [] => mret tt
  | x :: l' => body x ;; for_each l' body
  end.

(** [range(n)] *)
Definition range (n : Z) : list Z := seqZ 0 n.

(** ** The port (pyserial), as the program uses it

    A call on the port that fails raises [serial.SerialException], the
    exception [send_command] handles.  A port that fails with another
    exception (on POSIX pyserial lets [termios.error] through from
    [reset_input_buffer] and [flush]) is not modelled: what is proved of a
    lost link is proved of a link lost with [serial.SerialException]. *)

Module port_io.

Definition next_wire : M wire := fun w =>
  match incoming w with
  | [] => (Ret (Delivers []), w)
  | wr :: rest => (Ret wr, with_incoming rest w)
  end.

Definition fails_at (wr : wire) (st : step) : bool :=
  match wr, st with
  | Fails AtReset, AtReset | Fails AtWrite, AtWrite
  | Fails AtFlush, AtFlush | Fails AtRead, AtRead => true
  | _, _ => false
  end.

Definition may_fail (wr : wire) (st : step) : M unit :=
  if fails_at wr st then raise SerialException else mret tt.

Definition reset_input_buffer (wr : wire) : M unit :=
  log CReset ;; may_fail wr AtReset.

Definition write (wr : wire) (bs : list byte) : M unit :=
  log (CWrite bs) ;; may_fail wr AtWrite.

Definition flush (wr : wire) : M unit :=
  log CFlush ;; may_fail wr AtFlush.

(** [read(n)]: at most [n] of the bytes that arrive. *)
Definition read (wr : wire) (n : Z) : M (list byte) :=
  log (CRead n) ;;
  match wr with
  | Delivers bs => mret (take (Z.to_nat n) bs)
  | Fails _ => raise SerialException
  end.

(** The bytes up to and including the first line feed, or all of them. *)
Fixpoint first_line (bs : list byte) : list byte :=
  match bs with
  | [] => []
  | b :: r => if Byte.eqb b x0a then [b] else b :: first_line r
  end.

Definition readline (wr : wire) : M (list byte) :=
  log CReadline ;;
  match wr with
  | Delivers bs => mret (first_line bs)
  | Fails _ => raise SerialException
  end.

End port_io.

(** ** [class Motherboard] *)

(** [if not self.port] *)
Definition port_given (m : Motherboard) : bool :=
  match port m with
  | Some EmptyString | None => false
  | Some _ => true
  end.

(** [serial.Serial(self.port, timeout=1)] returns a port or raises. *)
Definition open_port : M (option Serial) := fun w =>
  (Ret (if port_opens w then Some {| is_open := true |} else None),
   with_trace (trace w ++ [COpen]) w).

Definition connect : M unit :=
  m ← get_mb;
  if negb (port_given m) then mret tt
  else
    s ← open_port;
    put_mb (with_serial s m).

Definition disconnect : M unit :=
  m ← get_mb;
  if connected m then
    log CClose ;;
    put_mb (with_serial None m)
  else mret tt.

Definition send_command (device_id action value : Z) (read_response : bool)
  : M (option Z) :=
  m ← get_mb;
  if negb (connected m) then mret None
  else
    command ← lift (struct.pack_BBI device_id action value);
    wr ← port_io.next_wire;
    try_except
      (port_io.reset_input_buffer wr ;;
       port_io.write wr command ;;
       port_io.flush wr ;;
       if read_response then
         response_bytes ← port_io.read wr 4;
         if (length response_bytes =? 4)%nat then
           response ← lift (struct.unpack_I_be response_bytes);
           mret (Some response)
         else
           lift (decode_utf8 response_bytes) ;;
           mret None
       else
         line ← port_io.readline wr;
         lift (decode_utf8 line) ;;
         mret None)
      (m ← get_mb;
       match serial m with
       | Some _ =>
           disconnect ;;
           (if disconnect_callback m then log CCallback else mret tt) ;;
           mret None
       | None => mret None
       end).

Definition ERROR_RESPONSE_MINUS_1 : Z := 758254857.
Definition ERROR_RESPONSE_MINUS_2 : Z := 4278190079.
Definition ERROR_RESPONSE_MINUS_3 : Z := 758254859.

(** ** [class NanoKicker] *)

Inductive param :=
  | Mode | Frequency | Amplitude | StartupEnabled
  | Vin | Vout | PotRange | RGTrim | RFTrim | Wiper.

#[global] Instance param_eq_dec : EqDecision param.
Proof. solve_decision. Defined.

Definition get_field (p : param) (h : NanoKicker) : option value :=
  match p with
  | Mode => mode h
  | Frequency => frequency h
  | Amplitude => amplitude h
  | StartupEnabled => startup_enabled h
  | Vin => vin h
  | Vout => vout h
  | PotRange => pot_range h
  | RGTrim => r_g_trim h
  | RFTrim => r_f_trim h
  | Wiper => wiper h
  end.

Definition set_field (p : param) (v : option value) (h : NanoKicker) : NanoKicker :=
  let f q := if decide (q = p) then v else get_field q h in
  {| device_id := device_id h;
     mode := f Mode; frequency := f Frequency; amplitude := f Amplitude;
     startup_enabled := f StartupEnabled; vin := f Vin; vout := f Vout;
     pot_range := f PotRange; r_g_trim := f RGTrim; r_f_trim := f RFTrim;
     wiper := f Wiper |}.

(** The attributes right after [__init__]. *)
Definition fresh (device_id : Z) : NanoKicker :=
  {| device_id := device_id;
     mode := None; frequency := None; amplitude := None;
     startup_enabled := None; vin := None; vout := None;
     pot_range := None; r_g_trim := None; r_f_trim := None; wiper := None |}.

#[global] Instance NanoKicker_inhabited : Inhabited NanoKicker := populate (fresh 0).

(** [NanoKicker(device_id=..., motherboard=self)] *)
Definition NanoKicker_init (device_id : Z) : M addr :=
  if (0 <=? device_id) && (device_id <? 20) then
    fun w => (Ret (length (heap w)), with_heap (heap w ++ [fresh device_id]) w)
  else raise ValueError.

(** [self.<p>] and [self.<p> = v] on the object at [k]. *)
Definition self (k : addr) : M NanoKicker := fun w => (Ret (heap w !!! k), w).

Definition getattr (k : addr) (p : param) : M (option value) :=
  h ← self k; mret (get_field p h).

Definition setattr (k : addr) (p : param) (v : option value) : M unit := fun w =>
  (Ret tt, with_heap (alter (set_field p v) k (heap w)) w).

Definition _send_command (k : addr) (action value : Z) (read_response : bool)
  : M (option Z) :=
  h ← self k;
  send_command (device_id h) action value read_response.

Definition _float_to_int (x : spec_float) : outcome Z :=
  obind (struct.pack_f_le x) struct.unpack_I_le.

Definition _int_to_float (v : Z) : outcome spec_float :=
  obind (struct.pack_I_le v) struct.unpack_f_le.

(** *** Setters

    [self.<p> = v; self._send_command(action, v)] for an integer, and
    [self.<p> = x; self._send_command(action, self._float_to_int(x))] for a
    float: the cache is written first, whatever the link then does. *)

Definition set_int (p : param) (action : Z) (k : addr) (v : Z) : M unit :=
  setattr k p (Some (VInt v)) ;;
  _send_command k action v false ;;
  mret tt.

Definition set_float (p : param) (action : Z) (k : addr) (x : spec_float) : M unit :=
  setattr k p (Some (VFloat x)) ;;
  v ← lift (_float_to_int x);
  _send_command k action v false ;;
  mret tt.

Definition set_mode := set_int Mode 1.
Definition set_frequency := set_int Frequency 2.
Definition set_amplitude := set_float Amplitude 3.
Definition set_wiper := set_int Wiper 4.

Definition set_startup_enabled (k : addr) (enabled : bool) : M unit :=
  setattr k StartupEnabled (Some (VBool enabled)) ;;
  _send_command k 11 (if enabled then 1 else 0) false ;;
  mret tt.

Definition set_vin := set_float Vin 12.
Definition set_vout := set_float Vout 13.
Definition set_pot_range := set_float PotRange 14.
Definition set_r_g_trim := set_float RGTrim 15.
Definition set_r_f_trim := set_float RFTrim 16.

Definition save_settings (k : addr) : M unit :=
  _send_command k 17 0 false ;; mret tt.

Definition load_settings (k : addr) : M unit :=
  _send_command k 18 0 false ;; mret tt.

(** *** Getters

    [get_mode] and [get_startup_enabled] assign the response whatever it is:
    [self.<p> = self._send_command(action, read_response=True); return self.<p>].
    The other eight assign only when there is one:
    [response = self._send_command(action, read_response=True);
     if response is not None: self.<p> = response; return self.<p>],
    the float ones through [self._int_to_float(response)]. *)

Definition get_assign (p : param) (action : Z) (k : addr) : M (option value) :=
  response ← _send_command k action 0 true;
  setattr k p (VInt <$> response) ;;
  getattr k p.

Definition get_int (p : param) (action : Z) (k : addr) : M (option value) :=
  response ← _send_command k action 0 true;
  match response with
  | Some r => setattr k p (Some (VInt r))
  | None => mret tt
  end ;;
  getattr k p.

Definition get_float (p : param) (action : Z) (k : addr) : M (option value) :=
  response ← _send_command k action 0 true;
  match response with
  | Some r => x ← lift (_int_to_float r); setattr k p (Some (VFloat x))
  | None => mret tt
  end ;;
  getattr k p.

Definition get_mode := get_assign Mode 21.
Definition get_frequency := get_int Frequency 22.
Definition get_amplitude := get_float Amplitude 23.
Definition get_wiper := get_int Wiper 24.
Definition get_startup_enabled := get_assign StartupEnabled 31.
Definition get_vin := get_float Vin 32.
Definition get_vout := get_float Vout 33.
Definition get_pot_range := get_float PotRange 34.
Definition get_r_g_trim := get_float RGTrim 35.
Definition get_r_f_trim := get_float RFTrim 36.

Definition read_all_parameters (k : addr) : M unit :=
  get_mode k ;;
  get_frequency k ;;
  get_amplitude k ;;
  get_startup_enabled k ;;
  get_vin k ;;
  get_vout k ;;
  get_pot_range k ;;
  get_r_g_trim k ;;
  get_r_f_trim k ;;
  get_wiper k ;;
  mret tt.

(** ** Discovery

    [register] is [self.nanokickers[i] = kicker]; [probe] is the body of the
    loop of [scan_for_nanokickers]. *)

Definition register (i : Z) (k : addr) : M unit :=
  m ← get_mb;
  put_mb (with_nanokickers (<[i := k]> (nanokickers m)) m).

Definition probe (i : Z) : M unit :=
  response ← send_command i 21 0 true;
  match response with
  | Some r =>
      if r =? ERROR_RESPONSE_MINUS_2 then mret tt
      else
        kicker ← NanoKicker_init i;
        setattr kicker Mode (Some (VInt r)) ;;
        register i kicker
  | None => mret tt
  end ;;
  log CSleep.

Definition scan_for_nanokickers : M (option (gmap Z addr)) :=
  m ← get_mb;
  if negb (connected m) then mret None
  else
    put_mb (with_nanokickers ∅ m) ;;
    for_each (range MAX_DEVICES) probe ;;
    m ← get_mb;
    mret (Some (nanokickers m)).

(** ** Observations on a run *)

(** The frames handed to [serial.write], in order. *)
Definition writes (t : list call) : list (list byte) :=
  omap (fun c => match c with CWrite bs => Some bs | _ => None end) t.

Definition is_close (c : call) : bool :=
  match c with CClose => true | _ => false end.

Definition is_callback (c : call) : bool :=
  match c with CCallback => true | _ => false end.

Definition is_port_call (c : call) : bool :=
  match c with CCallback | CSleep => false | _ => true end.

Definition count (f : call -> bool) (t : list call) : nat := length (filter f t).

(** What the far end does during the next transaction, and the world once
    that transaction has made the calls [cs]. *)
Definition next (w : World) : wire := hd (Delivers []) (incoming w).

Definition sent (w : World) (cs : list call) : World :=
  with_trace (trace w ++ cs) (with_incoming (tl (incoming w)) w).

(** A binary reply is full when four bytes arrived, and then it carries a
    value; a short one is text when it decodes. *)
Definition full (bs : list byte) : bool := (length (take 4 bs) =? 4)%nat.

Definition response_value (bs : list byte) : option Z :=
  match struct.unpack_I_be (take 4 bs) with
  | Ret v => Some v
  | Raise _ => None
  end.

Definition benign (bs : list byte) : bool := full bs || decodes (take 4 bs).

Definition reply (bs : list byte) : outcome (option Z) :=
  if benign bs then Ret (response_value bs) else Raise UnicodeDecodeError.

(** The calls made up to and including the one that raises. *)
Definition calls_until (st : step) (read_response : bool) (frame : list byte)
  : list call :=
  match st with
  | AtReset => [CReset]
  | AtWrite => [CReset; CWrite frame]
  | AtFlush => [CReset; CWrite frame; CFlush]
  | AtRead => [CReset; CWrite frame; CFlush;
               if read_response then CRead 4 else CReadline]
  end.

Definition lost (w : World) (cs : list call) : World :=
  with_mb (with_serial None (mb w))
    (sent w (cs ++ CClose :: (if disconnect_callback (mb w) then [CCallback] else []))).

(** The frame of a getter: no value. *)
Definition get_frame (device_id action : Z) : list byte :=
  [byte_of_Z device_id; byte_of_Z action; x00; x00; x00; x00].

(** The methods of a handle, as one type of requests. *)
Inductive op :=
  | SetMode (v : Z) | SetFrequency (v : Z) | SetAmplitude (x : spec_float)
  | SetWiper (v : Z) | SetStartupEnabled (b : bool)
  | SetVin (x : spec_float) | SetVout (x : spec_float)
  | SetPotRange (x : spec_float) | SetRGTrim (x : spec_float)
  | SetRFTrim (x : spec_float)
  | SaveSettings | LoadSettings
  | GetMode | GetFrequency | GetAmplitude | GetWiper | GetStartupEnabled
  | GetVin | GetVout | GetPotRange | GetRGTrim | GetRFTrim
  | ReadAllParameters.

Definition returning_None (c : M unit) : M (option value) := c ;; mret None.

Definition call_op (o : op) (k : addr) : M (option value) :=
  match o with
  | SetMode v => returning_None (set_mode k v)
  | SetFrequency v => returning_None (set_frequency k v)
  | SetAmplitude x => returning_None (set_amplitude k x)
  | SetWiper v => returning_None (set_wiper k v)
  | SetStartupEnabled b => returning_None (set_startup_enabled k b)
  | SetVin x => returning_None (set_vin k x)
  | SetVout x => returning_None (set_vout k x)
  | SetPotRange x => returning_None (set_pot_range k x)
  | SetRGTrim x => returning_None (set_r_g_trim k x)
  | SetRFTrim x => returning_None (set_r_f_trim k x)
  | SaveSettings => returning_None (save_settings k)
  | LoadSettings => returning_None (load_settings k)
  | GetMode => get_mode k
  | GetFrequency => get_frequency k
  | GetAmplitude => get_amplitude k
  | GetWiper => get_wiper k
  | GetStartupEnabled => get_startup_enabled k
  | GetVin => get_vin k
  | GetVout => get_vout k
  | GetPotRange => get_pot_range k
  | GetRGTrim => get_r_g_trim k
  | GetRFTrim => get_r_f_trim k
  | ReadAllParameters => returning_None (read_all_parameters k)
  end.

(** A caller making one request after the other, whatever each returns. *)
Definition run_ops (w : World) (ops : list (op * addr)) : World :=
  fold_left (fun w '(o, k) => snd (call_op o k w)) ops w.

(** The eight getters that assign only when there is a response, and the
    six setters of a float. *)
Definition guarded_getters : list (param * Z * (addr -> M (option value))) :=
  [ (Frequency, 22, get_frequency); (Amplitude, 23, get_amplitude);
    (Wiper, 24, get_wiper); (Vin, 32, get_vin); (Vout, 33, get_vout);
    (PotRange, 34, get_pot_range); (RGTrim, 35, get_r_g_trim);
    (RFTrim, 36, get_r_f_trim) ].

Definition float_setters : list (param * Z * (addr -> spec_float -> M unit)) :=
  [ (Amplitude, 3, set_amplitude); (Vin, 12, set_vin); (Vout, 13, set_vout);
    (PotRange, 14, set_pot_range); (RGTrim, 15, set_r_g_trim);
    (RFTrim, 16, set_r_f_trim) ].

(** The value a getter caches for a response. *)
Definition decoded (p : param) (v : Z) : value :=
  match p with
  | Amplitude | Vin | Vout | PotRange | RGTrim | RFTrim =>
      VFloat (struct.float_of_binary32 (struct.binary32_of_bits v))
  | _ => VInt v
  end.

(** ** Worlds used as concrete inputs *)

Definition board (connected_now : bool) (reg : gmap Z addr) : Motherboard :=
  {| port := Some "COM3"%string;
     serial := if connected_now then Some {| is_open := true |} else None;
     nanokickers := reg;
     disconnect_callback := true |}.

Definition world (m : Motherboard) (hp : list NanoKicker) (i : list wire) : World :=
  {| mb := m; heap := hp; incoming := i; port_opens := true; trace := [] |}.

(** The three shapes of getter, and what each leaves in the cache for a
    response [r]. *)
Inductive kind := Assigned | GuardedInt | GuardedFloat.

Definition getter (c : kind) : param -> Z -> addr -> M (option value) :=
  match c with
  | Assigned => get_assign
  | GuardedInt => get_int
  | GuardedFloat => get_float
  end.

Definition cached (c : kind) (p : param) (r : option Z) (h : NanoKicker)
  : NanoKicker :=
  match c, r with
  | Assigned, _ => set_field p (VInt <$> r) h
  | GuardedInt, Some v => set_field p (Some (VInt v)) h
  | GuardedFloat, Some v =>
      set_field p
        (Some (VFloat (struct.float_of_binary32 (struct.binary32_of_bits v)))) h
  | _, None => h
  end.

(** The getters in the order [read_all_parameters] calls them. *)
Definition read_order : list (kind * param * Z) :=
  [ (Assigned, Mode, 21); (GuardedInt, Frequency, 22);
    (GuardedFloat, Amplitude, 23); (Assigned, StartupEnabled, 31);
    (GuardedFloat, Vin, 32); (GuardedFloat, Vout, 33);
    (GuardedFloat, PotRange, 34); (GuardedFloat, RGTrim, 35);
    (GuardedFloat, RFTrim, 36); (GuardedInt, Wiper, 24) ].

Definition read_each (l : list (kind * param * Z)) (k : addr) : M unit :=
  for_each l (fun '(c, p, a) => getter c p a k ;; mret tt).

(** The calls of one binary-response transaction that runs to its end. *)
Definition exchange (device_id action : Z) : list call :=
  [CReset; CWrite (get_frame device_id action); CFlush; CRead 4].

(** What a probe makes of a reply: the mode of a device that is there. *)
Definition present (bs : list byte) : option Z :=
  match response_value bs with
  | Some r => if r =? ERROR_RESPONSE_MINUS_2 then None else Some r
  | None => None
  end.

(** The handle a scan creates for slot [i] answering [r]. *)
Definition seeded (i r : Z) : NanoKicker := set_field Mode (Some (VInt r)) (fresh i).

(** A computation is quiet when, on a disconnected link, it changes at most
    the handles and raises at most [OverflowError]. *)
Definition quiet {A} (c : M A) : Prop :=
  forall w, connected (mb w) = false ->
    exists r hp, c w = (r, with_heap hp w) /\
      forall e, r = Raise e -> e = OverflowError.

(** ** The rest of [class Motherboard]

    [comports()] is the operating system's list of ports, an input here. *)

Record ListPortInfo := { device : string; description : string }.

(** [needle in hay], on strings *)
Fixpoint contains (needle hay : string) : bool :=
  String.prefix needle hay ||
  match hay with
  | EmptyString => false
  | String _ r => contains needle r
  end.

(** ["Pico" in port.description or "Serial" in port.description] *)
Definition is_pico (p : ListPortInfo) : bool :=
  contains "Pico" (description p) || contains "Serial" (description p).

Fixpoint _find_pico_port (ports : list ListPortInfo) : option string :=
  match ports with
  | [] => None
  | p :: r => if is_pico p then Some (device p) else _find_pico_port r
  end.

Definition with_port (p : option string) (m : Motherboard) : Motherboard :=
  {| port := p; serial := serial m; nanokickers := nanokickers m;
     disconnect_callback := disconnect_callback m |}.

(** [Motherboard(port, disconnect_callback)], run where [comports()] is
    [ports]. *)
Definition Motherboard_init (ports : list ListPortInfo) (port_arg : option string)
    (callback : bool) : M unit :=
  put_mb {| port := port_arg; serial := None; nanokickers := ∅;
            disconnect_callback := callback |} ;;
  m ← get_mb;
  (if negb (port_given m) then put_mb (with_port (_find_pico_port ports) m)
   else mret tt) ;;
  m ← get_mb;
  if port_given m then connect else mret tt.

(** [mb[key]], that is [self.nanokickers.get(key)] *)
Definition __getitem__ (key : Z) : M (option addr) :=
  m ← get_mb;
  mret (nanokickers m !! key).

(** ** [NanoKickerWidget.set_parameters]

    What the user typed is an input here: [int(self.freq_input.text())] and
    [float(self.amp_input.text())] give a number, or raise [ValueError] for
    a text that is not one ([None] below); [currentIndex()] is an integer.
    [except ValueError] also catches [UnicodeDecodeError], its subclass. *)

Definition parse {A} (text : option A) : M A :=
  match text with
  | Some a => mret a
  | None => raise ValueError
  end.

(** [mode_map = {0: 0, 1: 1, 2: 2, 3: 4}; mode_map.get(index, 0)] *)
Definition mode_of_index (index : Z) : Z :=
  match index with
  | 0 => 0 | 1 => 1 | 2 => 2 | 3 => 4
  | _ => 0
  end.

(** In [get_parameters]:
    [mode_map = {0: 0, 1: 1, 2: 2, 3: 2, 4: 3}; mode_map.get(mode, 0)] *)
Definition index_of_mode (mode : Z) : Z :=
  match mode with
  | 0 => 0 | 1 => 1 | 2 => 2 | 3 => 2 | 4 => 3
  | _ => 0
  end.

(** [try: body except ValueError: handler] *)
Definition try_except_ValueError {A} (body handler : M A) : M A := fun w =>
  match body w with
  | (Raise ValueError, w') | (Raise UnicodeDecodeError, w') => handler w'
  | r => r
  end.

Definition set_parameters (k : addr) (freq_text : option Z)
    (amp_text : option spec_float) (current_index : Z) : M unit :=
  try_except_ValueError
    (freq ← parse freq_text;
     amp ← parse amp_text;
     let mode := mode_of_index current_index in
     set_frequency k freq ;;
     set_amplitude k amp ;;
     set_mode k mode)
    (mret tt).

(** ** [NanoKickerWidget.set_advanced_parameters]

    Each field is [if self.<f>_input.text(): self.nanokicker.set_<f>(
    float(self.<f>_input.text()))]: an empty text ([None]) skips the field,
    any other text is converted, which raises [ValueError] for a text that
    is not a number ([Some None]), and the setter is called at once. *)

Definition if_text {A} (text : option (option A)) (set : A -> M unit) : M unit :=
  match text with
  | None => mret tt
  | Some t => x ← parse t; set x
  end.

Definition set_advanced_parameters (k : addr)
    (vin_text vout_text pot_range_text rg_trim_text rf_trim_text
       : option (option spec_float))
    (wiper_text : option (option Z)) : M unit :=
  try_except_ValueError
    (if_text vin_text (set_vin k) ;;
     if_text vout_text (set_vout k) ;;
     if_text pot_range_text (set_pot_range k) ;;
     if_text rg_trim_text (set_r_g_trim k) ;;
     if_text rf_trim_text (set_r_f_trim k) ;;
     if_text wiper_text (set_wiper k))
    (mret tt).

(** ** More observations *)

Definition is_sleep (c : call) : bool :=
  match c with CSleep => true | _ => false end.

(** The three setters of an integer. *)
Definition int_setters : list (param * Z * (addr -> Z -> M unit)) :=
  [ (Mode, 1, set_mode); (Frequency, 2, set_frequency); (Wiper, 4, set_wiper) ].

(** What a setter request puts in the cache, and where. *)
Definition stored (o : op) : option (param * value) :=
  match o with
  | SetMode v => Some (Mode, VInt v)
  | SetFrequency v => Some (Frequency, VInt v)
  | SetAmplitude x => Some (Amplitude, VFloat x)
  | SetWiper v => Some (Wiper, VInt v)
  | SetStartupEnabled b => Some (StartupEnabled, VBool b)
  | SetVin x => Some (Vin, VFloat x)
  | SetVout x => Some (Vout, VFloat x)
  | SetPotRange x => Some (PotRange, VFloat x)
  | SetRGTrim x => Some (RGTrim, VFloat x)
  | SetRFTrim x => Some (RFTrim, VFloat x)
  | _ => None
  end.

(** The registry and the handles agree: slot [i] is held by a handle whose
    device id is [i], and every handle has an id in 0..19. *)
Definition consistent (w : World) : Prop :=
  Forall (fun h => 0 <= device_id h < 20) (heap w) /\
  forall i a, nanokickers (mb w) !! i = Some a ->
    exists h, heap w !! a = Some h /\ device_id h = i.

(** A bit pattern whose exponent is all ones and whose fraction is not
    zero. *)
Definition is_nan_pattern (v : Z) : bool :=
  ((v / 8388608) mod 256 =? 255) && negb (v mod 8388608 =? 0).

(** [save_settings] and [load_settings], with their action codes. *)
Definition settings : list (Z * (addr -> M unit)) :=
  [ (17, save_settings); (18, load_settings) ].

(** Each setter with the getter of the same parameter. *)
Definition int_pairs
  : list (param * Z * (addr -> Z -> M unit) * Z * (addr -> M (option value))) :=
  [ (Mode, 1, set_mode, 21, get_mode);
    (Frequency, 2, set_frequency, 22, get_frequency);
    (Wiper, 4, set_wiper, 24, get_wiper) ].

Definition float_pairs
  : list (param * Z * (addr -> spec_float -> M unit) * Z
          * (addr -> M (option value))) :=
  [ (Amplitude, 3, set_amplitude, 23, get_amplitude);
    (Vin, 12, set_vin, 32, get_vin); (Vout, 13, set_vout, 33, get_vout);
    (PotRange, 14, set_pot_range, 34, get_pot_range);
    (RGTrim, 15, set_r_g_trim, 35, get_r_g_trim);
    (RFTrim, 16, set_r_f_trim, 36, get_r_f_trim) ].

(** A reply of 7-bit characters only. *)
Definition ascii (bs : list byte) : bool :=
  forallb (fun b => Z_of_byte b <? 128) bs.

(** The frame of a setter. *)
Definition set_frame (device_id action v : Z) : list byte :=
  byte_of_Z device_id :: byte_of_Z action :: struct.be32 v.

(** [if not port], on the argument of the constructor *)
Definition truthy (p : option string) : bool :=
  match p with
  | Some EmptyString | None => false
  | Some _ => true
  end.

(** The calls of one probe that runs to its end, and of the probes of the
    slots [l]. *)
Definition probe_calls (i : Z) : list call := exchange i 21 ++ [CSleep].

Definition scan_calls (l : list Z) : list call := concat (probe_calls <$> l).

(** A computation keeps the slots when it changes no device id and leaves
    the registry alone. *)
Definition keeps_slots {A} (c : M A) : Prop :=
  forall w,
    device_id <$> heap (snd (c w)) = device_id <$> heap w /\
    nanokickers (mb (snd (c w))) = nanokickers (mb w).

(** * Properties *)

(** ** Bytes and integer layouts *)

Lemma Z_of_byte_range b : 0 <= Z_of_byte b < 256.
Proof.
  unfold Z_of_byte. pose proof (Byte.to_N_bounded b). lia.
Qed.

Lemma Z_of_byte_of_Z z : Z_of_byte (byte_of_Z z) = z mod 256.
Proof.
  unfold Z_of_byte, byte_of_Z.
  pose proof (Z.mod_pos_bound z 256 ltac:(lia)) as Hz.
  destruct (Byte.of_N (Z.to_N (z mod 256))) as [b|] eqn:E; simpl.
  - apply Byte.to_of_N in E. rewrite E. lia.
  - apply Byte.of_N_None_iff in E. lia.
Qed.

Lemma byte_of_Z_of_byte b : byte_of_Z (Z_of_byte b) = b.
Proof.
  unfold byte_of_Z. pose proof (Z_of_byte_range b).
  rewrite Z.mod_small by lia. unfold Z_of_byte.
  rewrite N2Z.id, Byte.of_to_N. reflexivity.
Qed.

Lemma unpack_le32 v :
  0 <= v < 4294967296 -> struct.unpack_I_le (struct.le32 v) = Ret v.
Proof.
  intros Hv. unfold struct.le32, struct.unpack_I_le.
  rewrite !Z_of_byte_of_Z. f_equal.
  Z.div_mod_to_equations. lia.
Qed.

Lemma unpack_be32 v :
  0 <= v < 4294967296 -> struct.unpack_I_be (struct.be32 v) = Ret v.
Proof.
  intros Hv. unfold struct.be32, struct.unpack_I_be.
  rewrite !Z_of_byte_of_Z. f_equal.
  Z.div_mod_to_equations. lia.
Qed.

Lemma unpack_I_be_range bs v :
  struct.unpack_I_be bs = Ret v -> 0 <= v < 4294967296.
Proof.
  destruct bs as [|b0 [|b1 [|b2 [|b3 [|b4 r]]]]]; simpl; intros H;
    try discriminate.
  injection H as <-.
  pose proof (Z_of_byte_range b0). pose proof (Z_of_byte_range b1).
  pose proof (Z_of_byte_range b2). pose proof (Z_of_byte_range b3). lia.
Qed.

Lemma pack_BBI_ok d a v :
  0 <= d <= 255 -> 0 <= a <= 255 -> 0 <= v < 4294967296 ->
  struct.pack_BBI d a v = Ret (byte_of_Z d :: byte_of_Z a :: struct.be32 v).
Proof.
  intros Hd Ha Hv. unfold struct.pack_BBI, struct.in_range.
  repeat match goal with
  | |- context [?x <=? ?y] => destruct (Z.leb_spec x y); [|lia]
  end.
  reflexivity.
Qed.

Lemma pack_BBI_bad_device d a v :
  ~ 0 <= d <= 255 -> struct.pack_BBI d a v = Raise StructError.
Proof.
  intros Hd. unfold struct.pack_BBI, struct.in_range.
  destruct (Z.leb_spec 0 d), (Z.leb_spec d 255); simpl; try reflexivity. lia.
Qed.

Lemma pack_BBI_get d a :
  0 <= d <= 255 -> 0 <= a <= 255 -> struct.pack_BBI d a 0 = Ret (get_frame d a).
Proof.
  intros Hd Ha. rewrite pack_BBI_ok by lia. reflexivity.
Qed.

(** ** Single precision: bit patterns and widening *)

Lemma iter_pos_iter {A} (f : A -> A) p x : SpecFloat.iter_pos f p x = Pos.iter f x p.
Proof.
  revert x. induction p as [p IH|p IH|]; intros x; simpl.
  - rewrite !IH, <- !Pos.iter_swap. reflexivity.
  - rewrite !IH. reflexivity.
  - reflexivity.
Qed.

Lemma digits2_pos_bounds m :
  2 ^ (Z.pos (digits2_pos m) - 1) <= Z.pos m < 2 ^ Z.pos (digits2_pos m).
Proof.
  induction m as [m IH|m IH|]; simpl digits2_pos.
  - rewrite Pos2Z.inj_succ.
    replace (Z.succ (Z.pos (digits2_pos m)) - 1)
      with (Z.succ (Z.pos (digits2_pos m) - 1)) by lia.
    rewrite !Z.pow_succ_r by lia. lia.
  - rewrite Pos2Z.inj_succ.
    replace (Z.succ (Z.pos (digits2_pos m)) - 1)
      with (Z.succ (Z.pos (digits2_pos m) - 1)) by lia.
    rewrite !Z.pow_succ_r by lia. lia.
  - simpl. lia.
Qed.

Lemma digits2_pos_shift m p :
  Z.pos (digits2_pos (Pos.iter xO m p)) = Z.pos (digits2_pos m) + Z.pos p.
Proof.
  induction p as [|p IH] using Pos.peano_ind.
  - simpl. lia.
  - rewrite Pos.iter_succ. simpl digits2_pos. lia.
Qed.

(** Shifting right what was shifted left loses nothing. *)
Lemma shr_shift m p :
  SpecFloat.iter_pos shr_1 p
    {| shr_m := Z.pos (Pos.iter xO m p); shr_r := false; shr_s := false |}
  = {| shr_m := Z.pos m; shr_r := false; shr_s := false |}.
Proof.
  rewrite iter_pos_iter.
  induction p as [|p IH] using Pos.peano_ind.
  - reflexivity.
  - rewrite Pos.iter_succ, <- Pos.iter_swap, Pos.iter_succ. simpl. exact IH.
Qed.

Section Rounding.
Variables prec emax : Z.

Lemma binary_round_aux_canonical s m e :
  canonical_mantissa prec emax m e = true -> e <= emax - prec ->
  binary_round_aux prec emax s (Z.pos m) e loc_Exact = S754_finite s m e.
Proof.
  unfold canonical_mantissa. intros Hc He. apply Z.eqb_eq in Hc.
  unfold binary_round_aux, shr_fexp. simpl Zdigits2. rewrite Hc, Z.sub_diag.
  simpl. rewrite Hc, Z.sub_diag. simpl.
  destruct (Z.leb_spec e (emax - prec)); [reflexivity | lia].
Qed.

Lemma binary_round_aux_shifted s m e p :
  canonical_mantissa prec emax m e = true -> e <= emax - prec ->
  binary_round_aux prec emax s (Z.pos (Pos.iter xO m p)) (e - Z.pos p) loc_Exact
  = S754_finite s m e.
Proof.
  unfold canonical_mantissa. intros Hc He. apply Z.eqb_eq in Hc.
  unfold binary_round_aux, shr_fexp. simpl Zdigits2.
  rewrite digits2_pos_shift.
  replace (Z.pos (digits2_pos m) + Z.pos p + (e - Z.pos p))
    with (Z.pos (digits2_pos m) + e) by lia.
  rewrite Hc. replace (e - (e - Z.pos p)) with (Z.pos p) by lia.
  unfold shr_record_of_loc, shr. rewrite shr_shift. simpl.
  replace (e - Z.pos p + Z.pos p) with e by lia.
  rewrite Hc, Z.sub_diag. simpl.
  destruct (Z.leb_spec e (emax - prec)); [reflexivity | lia].
Qed.
End Rounding.

(** What [bounded 24 128] says of a mantissa and its exponent. *)
Lemma bounded32_inv m e :
  bounded 24 128 m e = true ->
  Z.pos (digits2_pos m) <= 24 /\ Z.pos m < 16777216 /\ -149 <= e <= 104 /\
  (Z.pos m < 8388608 -> e = -149) /\
  canonical_mantissa 24 128 m e = true.
Proof.
  unfold bounded. intros H. apply andb_true_iff in H as [Hc He].
  pose proof Hc as Hc'. unfold canonical_mantissa, fexp, emin in Hc'.
  apply Z.eqb_eq in Hc'. apply Z.leb_le in He.
  pose proof (digits2_pos_bounds m) as [Hlo Hhi].
  assert (Hd : Z.pos (digits2_pos m) <= 24) by lia.
  assert (Hm : Z.pos m < 16777216).
  { eapply Z.lt_le_trans; [exact Hhi|].
    change 16777216 with (2 ^ 24). apply Z.pow_le_mono_r; lia. }
  split; [exact Hd|]. split; [exact Hm|]. split; [lia|]. split; [|exact Hc].
  intros Hsub.
  destruct (Z.eq_dec (Z.pos (digits2_pos m)) 24) as [E|E]; [|lia].
  rewrite E in Hlo. change (2 ^ (24 - 1)) with 8388608 in Hlo. lia.
Qed.

Lemma bits_of_binary32_range f :
  valid_binary 24 128 f = true -> 0 <= struct.bits_of_binary32 f < 4294967296.
Proof.
  destruct f as [s|s| |s m e]; simpl; intros H.
  - destruct s; simpl; lia.
  - destruct s; simpl; lia.
  - lia.
  - apply bounded32_inv in H as (_ & Hm & He & Hsub & _).
    destruct (Z.ltb_spec (Z.pos m) 8388608); destruct s; simpl; lia.
Qed.

Lemma binary32_of_bits_of_binary32 f :
  valid_binary 24 128 f = true ->
  struct.binary32_of_bits (struct.bits_of_binary32 f) = f.
Proof.
  destruct f as [s|s| |s m e]; simpl; intros H.
  - destruct s; reflexivity.
  - destruct s; reflexivity.
  - reflexivity.
  - apply bounded32_inv in H as (_ & Hm & He & Hsub & _).
    unfold struct.binary32_of_bits.
    destruct (Z.ltb_spec (Z.pos m) 8388608) as [Hlt|Hge].
    + specialize (Hsub Hlt). subst e.
      assert (E1 : ((struct.sign_bit s + Z.pos m) / 8388608) mod 256 = 0)
        by (destruct s; simpl; Z.div_mod_to_equations; lia).
      assert (E2 : (struct.sign_bit s + Z.pos m) mod 8388608 = Z.pos m)
        by (destruct s; simpl; Z.div_mod_to_equations; lia).
      assert (E3 : (2147483648 <=? struct.sign_bit s + Z.pos m) = s)
        by (destruct s; simpl; [apply Z.leb_le | apply Z.leb_gt]; lia).
      rewrite E1, E2, E3. reflexivity.
    + set (v := struct.sign_bit s + (e + 150) * 8388608 + (Z.pos m - 8388608)).
      assert (E1 : (v / 8388608) mod 256 = e + 150)
        by (subst v; destruct s; simpl; Z.div_mod_to_equations; lia).
      assert (E2 : v mod 8388608 = Z.pos m - 8388608)
        by (subst v; destruct s; simpl; Z.div_mod_to_equations; lia).
      assert (E3 : (2147483648 <=? v) = s)
        by (subst v; destruct s; simpl; [apply Z.leb_le | apply Z.leb_gt]; lia).
      rewrite E1, E2, E3.
      destruct (Z.eqb_spec (e + 150) 0); [lia|].
      destruct (Z.eqb_spec (e + 150) 255); [lia|].
      replace (Z.pos m - 8388608 + 8388608) with (Z.pos m) by lia.
      f_equal. lia.
Qed.

(** Widening a finite binary32 datum shifts its mantissa up to 53 digits. *)
Lemma float_of_binary32_finite s m e :
  bounded 24 128 m e = true ->
  exists p, Z.pos p = 53 - Z.pos (digits2_pos m) /\
    struct.float_of_binary32 (S754_finite s m e)
    = S754_finite s (Pos.iter xO m p) (e - Z.pos p).
Proof.
  intros H. apply bounded32_inv in H as (Hd & _ & He & _ & _).
  simpl. unfold binary_round, shl_align.
  assert (Hf : fexp 53 1024 (Z.pos (digits2_pos m) + e)
               = Z.pos (digits2_pos m) + e - 53) by (unfold fexp, emin; lia).
  rewrite Hf.
  destruct (Z.pos (digits2_pos m) + e - 53 - e) as [|q|q] eqn:E; try lia.
  exists q. split; [lia|].
  replace (Z.pos (digits2_pos m) + e - 53) with (e - Z.pos q) by lia.
  apply binary_round_aux_canonical.
  - unfold canonical_mantissa. apply Z.eqb_eq.
    pose proof (digits2_pos_shift m q). unfold fexp, emin. lia.
  - lia.
Qed.

Lemma float_of_binary32_valid f :
  valid_binary 24 128 f = true ->
  valid_binary 53 1024 (struct.float_of_binary32 f) = true.
Proof.
  destruct f as [s|s| |s m e]; try reflexivity.
  intros H. simpl in H.
  destruct (float_of_binary32_finite s m e H) as (p & Hp & ->).
  apply bounded32_inv in H as (Hd & _ & He & _ & _).
  simpl. unfold bounded, canonical_mantissa.
  pose proof (digits2_pos_shift m p). unfold fexp, emin.
  apply andb_true_iff. split; [apply Z.eqb_eq | apply Z.leb_le]; lia.
Qed.

(** Narrowing what was widened gives the binary32 datum back. *)
Lemma binary32_of_float_of_binary32 f :
  valid_binary 24 128 f = true ->
  struct.binary32_of_float (struct.float_of_binary32 f) = f.
Proof.
  destruct f as [s|s| |s m e]; try reflexivity.
  intros H. simpl in H.
  destruct (float_of_binary32_finite s m e H) as (p & Hp & ->).
  apply bounded32_inv in H as (Hd & _ & He & _ & Hc).
  simpl. unfold binary_round, shl_align.
  rewrite digits2_pos_shift.
  replace (Z.pos (digits2_pos m) + Z.pos p + (e - Z.pos p))
    with (Z.pos (digits2_pos m) + e) by lia.
  pose proof Hc as Hc'. unfold canonical_mantissa in Hc'. apply Z.eqb_eq in Hc'.
  rewrite Hc'. replace (e - (e - Z.pos p)) with (Z.pos p) by lia.
  apply binary_round_aux_shifted; [exact Hc | lia].
Qed.

Lemma float_to_int_of_binary32 f :
  valid_binary 24 128 f = true -> struct.is_infinity f = false ->
  _float_to_int (struct.float_of_binary32 f) = Ret (struct.bits_of_binary32 f).
Proof.
  intros Hv Hi. unfold _float_to_int, struct.pack_f_le.
  rewrite binary32_of_float_of_binary32, Hi by exact Hv. simpl.
  apply unpack_le32, bits_of_binary32_range, Hv.
Qed.

Lemma int_to_float_eq v :
  0 <= v < 4294967296 ->
  _int_to_float v = Ret (struct.float_of_binary32 (struct.binary32_of_bits v)).
Proof.
  intros Hv. unfold _int_to_float, struct.pack_I_le, struct.in_range.
  destruct (Z.leb_spec 0 v); [|lia].
  destruct (Z.leb_spec v 4294967295); [|lia]. simpl.
  unfold struct.unpack_f_le. rewrite unpack_le32 by lia. reflexivity.
Qed.

(** C5. Every finite single-precision float [f], held by Python as the
    binary64 datum [x] of the same value, survives
    [_int_to_float(_float_to_int(x))] bit for bit: the integer in between is
    the IEEE-754 bit pattern of [f], and the float that comes back is [x]. *)
Theorem float_round_trip (f : spec_float) :
  valid_binary 24 128 f = true ->
  struct.is_finite f = true ->
  let x := struct.float_of_binary32 f in
  valid_binary 53 1024 x = true /\
  _float_to_int x = Ret (struct.bits_of_binary32 f) /\
  obind (_float_to_int x) _int_to_float = Ret x.
Proof.
  intros Hv Hf x. subst x.
  assert (Hi : struct.is_infinity f = false) by (destruct f; done).
  split; [apply float_of_binary32_valid, Hv|].
  rewrite float_to_int_of_binary32 by assumption.
  split; [reflexivity|]. simpl.
  rewrite int_to_float_eq by (apply bits_of_binary32_range, Hv).
  rewrite binary32_of_bits_of_binary32 by exact Hv. reflexivity.
Qed.

(** The round trip at 2.5, whose bit pattern is [0x40200000]. *)
Lemma float_round_trip_witness :
  let f := S754_finite false 10485760 (-22) in
  let x := struct.float_of_binary32 f in
  valid_binary 53 1024 x = true /\
  _float_to_int x = Ret 1075838976 /\
  obind (_float_to_int x) _int_to_float = Ret x.
Proof.
  exact (float_round_trip (S754_finite false 10485760 (-22)) eq_refl eq_refl).
Defined.

(** ** One transaction *)

Ltac run :=
  cbv [mbind M_bind mret M_ret get_mb put_mb lift log raise try_except
       port_io.reset_input_buffer port_io.write port_io.flush port_io.read
       port_io.readline port_io.may_fail port_io.fails_at disconnect
       with_trace with_incoming with_mb with_heap with_serial with_nanokickers
       sent lost mb heap incoming port_opens trace
       serial nanokickers disconnect_callback port connected is_open].

Lemma next_wire_eq w :
  port_io.next_wire w = (Ret (next w), with_incoming (tl (incoming w)) w).
Proof.
  unfold port_io.next_wire, next. destruct w as [m hp [|wr inc] po tr]; reflexivity.
Qed.

Lemma send_command_not_connected d a v rr w :
  connected (mb w) = false -> send_command d a v rr w = (Ret None, w).
Proof.
  intros H. unfold send_command. cbv [mbind M_bind get_mb]. rewrite H. reflexivity.
Qed.

Lemma send_command_struct_error d a v rr w e :
  connected (mb w) = true -> struct.pack_BBI d a v = Raise e ->
  send_command d a v rr w = (Raise e, w).
Proof.
  intros Hc Hp. unfold send_command. cbv [mbind M_bind get_mb lift].
  rewrite Hc. cbv [negb]. rewrite Hp. reflexivity.
Qed.

Lemma send_command_read d a v w frame bs :
  connected (mb w) = true -> struct.pack_BBI d a v = Ret frame ->
  next w = Delivers bs ->
  send_command d a v true w
  = (reply bs, sent w [CReset; CWrite frame; CFlush; CRead 4]).
Proof.
  intros Hc Hp Hn. unfold send_command. cbv [mbind M_bind get_mb lift].
  rewrite Hc. cbv [negb]. rewrite Hp, next_wire_eq, Hn.
  destruct w as [m hp inc po tr]. run.
  unfold reply, benign, full, decodes, response_value, decode_utf8.
  change (Z.to_nat 4) with 4%nat.
  destruct bs as [|b0 [|b1 [|b2 [|b3 r]]]]; cbn [take length Nat.eqb orb];
    try (destruct (code_points _)); cbn; rewrite <- ?app_assoc; reflexivity.
Qed.

Lemma send_command_write d a v w frame bs :
  connected (mb w) = true -> struct.pack_BBI d a v = Ret frame ->
  next w = Delivers bs ->
  send_command d a v false w
  = (obind (decode_utf8 (port_io.first_line bs)) (fun _ => Ret None),
     sent w [CReset; CWrite frame; CFlush; CReadline]).
Proof.
  intros Hc Hp Hn. unfold send_command. cbv [mbind M_bind get_mb lift].
  rewrite Hc. cbv [negb]. rewrite Hp, next_wire_eq, Hn.
  destruct w as [m hp inc po tr]. run. unfold decode_utf8.
  destruct (code_points _); cbn; rewrite <- ?app_assoc; reflexivity.
Qed.

Lemma send_command_fails d a v rr w frame st :
  connected (mb w) = true -> struct.pack_BBI d a v = Ret frame ->
  next w = Fails st ->
  send_command d a v rr w = (Ret None, lost w (calls_until st rr frame)).
Proof.
  intros Hc Hp Hn. unfold send_command. cbv [mbind M_bind get_mb lift].
  rewrite Hc. cbv [negb]. rewrite Hp, next_wire_eq, Hn.
  destruct w as [m hp inc po tr].
  destruct m as [pt [[o]|] reg cb]; cbn in Hc; try discriminate.
  subst o.
  destruct st, rr, cb; run; cbn; rewrite <- ?app_assoc; reflexivity.
Qed.

Lemma writes_app t1 t2 : writes (t1 ++ t2) = writes t1 ++ writes t2.
Proof. apply omap_app. Qed.

(** A transaction touches neither the handles nor the registry. *)
Lemma send_command_keeps_handles d a v rr w :
  heap (snd (send_command d a v rr w)) = heap w /\
  nanokickers (mb (snd (send_command d a v rr w))) = nanokickers (mb w).
Proof.
  destruct (connected (mb w)) eqn:Hc;
    [|rewrite send_command_not_connected by exact Hc; done].
  destruct (struct.pack_BBI d a v) as [frame|e] eqn:Hp;
    [|rewrite (send_command_struct_error _ _ _ _ _ e) by assumption; done].
  destruct (next w) as [st|bs] eqn:Hn.
  - rewrite (send_command_fails _ _ _ _ _ frame st) by assumption. done.
  - destruct rr.
    + rewrite (send_command_read _ _ _ _ frame bs) by assumption. done.
    + rewrite (send_command_write _ _ _ _ frame bs) by assumption. done.
Qed.

(** C1, as the code has it. On a connected link whose port does not fail,
    [send_command] writes exactly one frame of six bytes for every
    [device_id] and action in 0..255 and every 32-bit value: the device id,
    the action, the value big-endian.  A [device_id] outside 0..255 raises
    [struct.error] before any call is made on the port.  The check for
    0..19 is the constructor's: [NanoKicker(device_id)] raises [ValueError]
    for any other id. *)
Theorem send_command_frame (w : World) (d a v : Z) (rr : bool) (bs : list byte) :
  connected (mb w) = true ->
  next w = Delivers bs ->
  0 <= d <= 255 -> 0 <= a <= 255 -> 0 <= v < 4294967296 ->
  let frame := byte_of_Z d :: byte_of_Z a :: struct.be32 v in
  writes (trace (snd (send_command d a v rr w))) = writes (trace w) ++ [frame] /\
  length frame = 6%nat /\
  Z_of_byte (byte_of_Z d) = d /\ Z_of_byte (byte_of_Z a) = a /\
  struct.unpack_I_be (struct.be32 v) = Ret v /\
  (forall d', ~ 0 <= d' <= 255 ->
     send_command d' a v rr w = (Raise StructError, w)) /\
  (forall d', ~ 0 <= d' < 20 -> NanoKicker_init d' w = (Raise ValueError, w)).
Proof.
  intros Hc Hn Hd Ha Hv frame.
  pose proof (pack_BBI_ok d a v Hd Ha Hv) as Hp. fold frame in Hp.
  split.
  { destruct rr.
    - rewrite (send_command_read _ _ _ _ frame bs) by assumption.
      cbn. rewrite writes_app. reflexivity.
    - rewrite (send_command_write _ _ _ _ frame bs) by assumption.
      cbn. rewrite writes_app. reflexivity. }
  split; [reflexivity|].
  rewrite !Z_of_byte_of_Z, !Z.mod_small by lia.
  split; [reflexivity|]. split; [reflexivity|].
  split; [apply unpack_be32; lia|].
  split.
  - intros d' Hd'. apply send_command_struct_error; [exact Hc|].
    apply pack_BBI_bad_device, Hd'.
  - intros d' Hd'. unfold NanoKicker_init.
    destruct (Z.leb_spec 0 d'), (Z.ltb_spec d' 20); simpl; try reflexivity. lia.
Qed.

(** Scenario 1: set-frequency(device 3, 1000) puts [03 02 00 00 03 E8] on
    the wire. *)
Lemma send_command_frame_witness :
  let w := world (board true ∅) [fresh 3] [Delivers [x6f; x6b; x0a]] in
  writes (trace (snd (send_command 3 2 1000 false w)))
    = [[x03; x02; x00; x00; x03; xe8]] /\
  writes (trace (snd (set_frequency 0%nat 1000 w)))
    = [[x03; x02; x00; x00; x03; xe8]] /\
  send_command 256 2 1000 false w = (Raise StructError, w) /\
  NanoKicker_init 20 w = (Raise ValueError, w).
Proof.
  intros w.
  pose proof (send_command_frame w 3 2 1000 false [x6f; x6b; x0a]
                eq_refl eq_refl ltac:(lia) ltac:(lia) ltac:(lia))
    as (H1 & _ & _ & _ & _ & H2 & H3).
  split; [exact H1|]. split; [reflexivity|].
  split; [apply H2; lia | apply H3; lia].
Defined.

(** C1, as stated, fails: device id 20 is not rejected, its frame goes out. *)
Lemma send_command_writes_for_device_20 :
  let w := world (board true ∅) [] [Delivers [x6f; x6b; x0a]] in
  let r := send_command 20 2 1000 false w in
  fst r = Ret None /\
  writes (trace (snd r)) = [[x14; x02; x00; x00; x03; xe8]] /\
  ~ (is_error (fst r) /\ writes (trace (snd r)) = []).
Proof.
  vm_compute. split; [reflexivity|]. split; [reflexivity|].
  intros [[] _].
Qed.

(** ** Link loss *)

Lemma count_app f t1 t2 : count f (t1 ++ t2) = (count f t1 + count f t2)%nat.
Proof. unfold count. rewrite filter_app, length_app. reflexivity. Qed.

(** C4, as the code has it. When a call on the port raises during a
    transaction on a connected link, the port is closed exactly once, the
    link becomes disconnected, the disconnect callback is called exactly once
    when one was supplied (and not at all otherwise), the frame was handed to
    [write] at most once, one transaction of the script is consumed, and the
    call returns [None]: no error reaches the caller. *)
Theorem send_command_link_loss (w : World) (d a v : Z) (rr : bool)
    (frame : list byte) (st : step) :
  connected (mb w) = true ->
  struct.pack_BBI d a v = Ret frame ->
  next w = Fails st ->
  exists w' cs,
    send_command d a v rr w = (Ret None, w') /\
    serial (mb w') = None /\
    trace w' = trace w ++ cs /\
    count is_close cs = 1%nat /\
    count is_callback cs = (if disconnect_callback (mb w) then 1 else 0)%nat /\
    (length (writes cs) <= 1)%nat /\
    incoming w' = tl (incoming w) /\
    nanokickers (mb w') = nanokickers (mb w) /\
    heap w' = heap w.
Proof.
  intros Hc Hp Hn.
  rewrite (send_command_fails _ _ _ _ _ frame st) by assumption.
  eexists _, _. split; [reflexivity|].
  split; [reflexivity|]. split; [reflexivity|].
  rewrite !count_app, writes_app, length_app.
  destruct st, rr, (disconnect_callback (mb w)); cbn; repeat split; lia.
Qed.

Lemma send_command_link_loss_witness :
  let w := world (board true {[ 3 := 0%nat ]}) [fresh 3] [Fails AtRead] in
  exists w' cs,
    send_command 3 22 0 true w = (Ret None, w') /\
    serial (mb w') = None /\
    trace w' = [] ++ cs /\
    count is_close cs = 1%nat /\
    count is_callback cs = 1%nat /\
    (length (writes cs) <= 1)%nat /\
    incoming w' = [] /\
    nanokickers (mb w') = {[ 3 := 0%nat ]} /\
    heap w' = [fresh 3].
Proof.
  exact (send_command_link_loss
           (world (board true {[ 3 := 0%nat ]}) [fresh 3] [Fails AtRead])
           3 22 0 true (get_frame 3 22) AtRead eq_refl eq_refl eq_refl).
Defined.

(** C4, as stated, fails: the call in flight returns [None], the very value
    a read that merely timed out returns, and not an error. *)
Lemma link_loss_returns_None :
  let lost_link := world (board true ∅) [] [Fails AtRead] in
  let timed_out := world (board true ∅) [] [Delivers []] in
  let r := send_command 3 22 0 true lost_link in
  fst r = Ret None /\
  ~ is_error (fst r) /\
  fst r = fst (send_command 3 22 0 true timed_out).
Proof.
  vm_compute. repeat split. intros [].
Qed.

(** ** Handles *)

Lemma get_set_field_eq p v h : get_field p (set_field p v h) = v.
Proof. destruct p; reflexivity. Qed.

Lemma get_set_field_ne p q v h :
  q <> p -> get_field q (set_field p v h) = get_field q h.
Proof. destruct p, q; intros Hne; try reflexivity; congruence. Qed.

Lemma device_id_set_field p v h : device_id (set_field p v h) = device_id h.
Proof. reflexivity. Qed.

Lemma lookup_total_alter (f : NanoKicker -> NanoKicker) (hp : list NanoKicker) k h :
  hp !! k = Some h -> alter f k hp !!! k = f h.
Proof.
  intros H. apply list_lookup_total_correct.
  rewrite list_lookup_alter_eq, H. reflexivity.
Qed.

Lemma send_command_via_handle k a v rr w h :
  heap w !! k = Some h ->
  _send_command k a v rr w = send_command (device_id h) a v rr w.
Proof.
  intros H. unfold _send_command, self. cbv [mbind M_bind].
  rewrite (list_lookup_total_correct _ _ _ H). reflexivity.
Qed.

Lemma get_assign_eq p a k w :
  get_assign p a k w =
  match _send_command k a 0 true w with
  | (Ret r, w') =>
      let w'' := with_heap (alter (set_field p (VInt <$> r)) k (heap w')) w' in
      (Ret (get_field p (heap w'' !!! k)), w'')
  | (Raise e, w') => (Raise e, w')
  end.
Proof.
  unfold get_assign. cbv [mbind M_bind].
  destruct (_send_command k a 0 true w) as [[r|e] w']; reflexivity.
Qed.

Lemma get_int_eq p a k w :
  get_int p a k w =
  match _send_command k a 0 true w with
  | (Ret (Some v), w') =>
      let w'' := with_heap (alter (set_field p (Some (VInt v))) k (heap w')) w' in
      (Ret (get_field p (heap w'' !!! k)), w'')
  | (Ret None, w') => (Ret (get_field p (heap w' !!! k)), w')
  | (Raise e, w') => (Raise e, w')
  end.
Proof.
  unfold get_int. cbv [mbind M_bind].
  destruct (_send_command k a 0 true w) as [[[v|]|e] w']; reflexivity.
Qed.

Lemma get_float_eq p a k w :
  get_float p a k w =
  match _send_command k a 0 true w with
  | (Ret (Some v), w') =>
      match _int_to_float v with
      | Ret x =>
          let w'' := with_heap (alter (set_field p (Some (VFloat x))) k (heap w')) w' in
          (Ret (get_field p (heap w'' !!! k)), w'')
      | Raise e => (Raise e, w')
      end
  | (Ret None, w') => (Ret (get_field p (heap w' !!! k)), w')
  | (Raise e, w') => (Raise e, w')
  end.
Proof.
  unfold get_float. cbv [mbind M_bind lift].
  destruct (_send_command k a 0 true w) as [[[v|]|e] w']; try reflexivity.
  destruct (_int_to_float v); reflexivity.
Qed.

(** A response is a 32-bit value. *)
Lemma send_command_value d a v rr w r w' :
  send_command d a v rr w = (Ret (Some r), w') -> 0 <= r < 4294967296.
Proof.
  destruct (connected (mb w)) eqn:Hc;
    [|rewrite send_command_not_connected by exact Hc; congruence].
  destruct (struct.pack_BBI d a v) as [frame|e] eqn:Hp;
    [|rewrite (send_command_struct_error _ _ _ _ _ e) by assumption; congruence].
  destruct (next w) as [st|bs] eqn:Hn.
  - rewrite (send_command_fails _ _ _ _ _ frame st) by assumption. congruence.
  - destruct rr.
    + rewrite (send_command_read _ _ _ _ frame bs) by assumption.
      unfold reply, response_value. intros H.
      destruct (benign bs); [|congruence].
      destruct (struct.unpack_I_be (take 4 bs)) as [x|] eqn:E; [|congruence].
      apply unpack_I_be_range in E. congruence.
    + rewrite (send_command_write _ _ _ _ frame bs) by assumption.
      destruct (decode_utf8 _); simpl; congruence.
Qed.

(** What a guarded getter does with each kind of result. *)
Lemma guarded_getter_cases p a g :
  (p, a, g) ∈ guarded_getters ->
  forall k w h, heap w !! k = Some h ->
    (forall w', _send_command k a 0 true w = (Ret None, w') ->
       g k w = (Ret (get_field p h), w') /\ heap w' = heap w) /\
    (forall v w', _send_command k a 0 true w = (Ret (Some v), w') ->
       g k w = (Ret (Some (decoded p v)),
                with_heap (alter (set_field p (Some (decoded p v))) k (heap w')) w')) /\
    (forall e w', _send_command k a 0 true w = (Raise e, w') ->
       g k w = (Raise e, w')).
Proof.
  intros Hin k w h Hk.
  assert (Hkeep : forall r w', _send_command k a 0 true w = (r, w') -> heap w' = heap w).
  { intros r w' H. rewrite (send_command_via_handle _ _ _ _ _ h Hk) in H.
    pose proof (send_command_keeps_handles (device_id h) a 0 true w) as [Hh _].
    rewrite H in Hh. exact Hh. }
  assert (Hval : forall v w', _send_command k a 0 true w = (Ret (Some v), w') ->
                   0 <= v < 4294967296).
  { intros v w' H. rewrite (send_command_via_handle _ _ _ _ _ h Hk) in H.
    eapply send_command_value, H. }
  repeat (apply elem_of_cons in Hin as [Hin|Hin]);
    try (apply elem_of_nil in Hin; contradiction);
    injection Hin as -> -> ->;
    (split; [|split]).
  all: try (intros w' H;
            first [unfold get_frequency, get_wiper; rewrite get_int_eq, H
                  |unfold get_amplitude, get_vin, get_vout, get_pot_range,
                     get_r_g_trim, get_r_f_trim; rewrite get_float_eq, H];
            rewrite (list_lookup_total_correct (heap w') k h)
              by (rewrite (Hkeep _ _ H); exact Hk);
            split; [reflexivity | exact (Hkeep _ _ H)]).
  all: try (intros e w' H;
            first [unfold get_frequency, get_wiper; rewrite get_int_eq, H
                  |unfold get_amplitude, get_vin, get_vout, get_pot_range,
                     get_r_g_trim, get_r_f_trim; rewrite get_float_eq, H];
            reflexivity).
  all: intros v w' H;
       first [unfold get_frequency, get_wiper; rewrite get_int_eq, H
             |unfold get_amplitude, get_vin, get_vout, get_pot_range,
                get_r_g_trim, get_r_f_trim;
              rewrite get_float_eq, H, (int_to_float_eq v (Hval _ _ H))];
       cbv zeta; cbn [heap with_heap];
       rewrite (lookup_total_alter _ (heap w') k h)
         by (rewrite (Hkeep _ _ H); exact Hk);
       rewrite get_set_field_eq; reflexivity.
Qed.

(** For the getters of frequency, amplitude, wiper, vin, vout, pot-range,
    r_g-trim and r_f-trim: when the transaction returns [None] (a link that
    is not connected, a link lost, a short reply that is text), the getter
    returns the cached field (whatever it holds, [None] if never set),
    leaves it as it was and raises nothing; and the value it returns is the
    one a successful read of the same value returns, so the return value
    does not tell a fresh read from a stale one. *)
Theorem guarded_getter_returns_cache (p : param) (a : Z)
    (g : addr -> M (option value)) (w : World) (k : addr) (h : NanoKicker) :
  (p, a, g) ∈ guarded_getters ->
  heap w !! k = Some h ->
  (forall w', _send_command k a 0 true w = (Ret None, w') ->
     g k w = (Ret (get_field p h), w') /\ heap w' = heap w) /\
  (forall v w', _send_command k a 0 true w = (Ret (Some v), w') ->
     fst (g k w) = Ret (Some (decoded p v)) /\
     forall w2 k2 h2 w2',
       heap w2 !! k2 = Some h2 ->
       get_field p h2 = Some (decoded p v) ->
       _send_command k2 a 0 true w2 = (Ret None, w2') ->
       fst (g k2 w2) = fst (g k w)).
Proof.
  intros Hin Hk.
  destruct (guarded_getter_cases p a g Hin k w h Hk) as (HNone & HSome & _).
  split; [exact HNone|].
  intros v w' H. rewrite (HSome v w' H). split; [reflexivity|].
  intros w2 k2 h2 w2' Hk2 Hf H2.
  destruct (guarded_getter_cases p a g Hin k2 w2 h2 Hk2) as (HNone2 & _ & _).
  destruct (HNone2 w2' H2) as [-> _]. simpl. rewrite Hf. reflexivity.
Qed.

(** A cached frequency of 1000: the read that times out and the read that
    succeeds return the same value. *)
Lemma guarded_getter_returns_cache_witness :
  let h := set_field Frequency (Some (VInt 1000)) (fresh 3) in
  let stale := world (board true ∅) [h] [Delivers []] in
  let live := world (board true ∅) [fresh 3] [Delivers [x00; x00; x03; xe8]] in
  fst (get_frequency 0%nat stale) = Ret (Some (VInt 1000)) /\
  fst (get_frequency 0%nat stale) = fst (get_frequency 0%nat live).
Proof.
  intros h stale live.
  assert (Hin : (Frequency, 22, get_frequency) ∈ guarded_getters)
    by (apply list_elem_of_here).
  destruct (guarded_getter_returns_cache Frequency 22 get_frequency
              stale 0%nat h Hin eq_refl) as [HNone _].
  destruct (guarded_getter_returns_cache Frequency 22 get_frequency
              live 0%nat (fresh 3) Hin eq_refl) as [_ HSome].
  destruct (HNone _ eq_refl) as [H1 _].
  destruct (HSome 1000 _ eq_refl) as [_ H2].
  split.
  - rewrite H1. reflexivity.
  - exact (H2 stale 0%nat h _ eq_refl eq_refl eq_refl).
Defined.

(** C10 at its failing inputs. A reply of fewer than four bytes that is not
    UTF-8 yields no value, and none of the eight guarded getters then
    returns the cached field: decoding the reply for the diagnostic raises
    [UnicodeDecodeError], which neither [send_command] nor the getter
    catches, so the call raises, after its frame went out, with the cache
    and the link as they were. *)
Theorem guarded_getter_raises_on_undecodable_reply (p : param) (a : Z)
    (g : addr -> M (option value)) (w : World) (k : addr) (h : NanoKicker)
    (bs : list byte) :
  (p, a, g) ∈ guarded_getters ->
  connected (mb w) = true ->
  heap w !! k = Some h ->
  0 <= device_id h < 20 ->
  next w = Delivers bs ->
  full bs = false ->
  decodes (take 4 bs) = false ->
  response_value bs = None /\
  g k w = (Raise UnicodeDecodeError, sent w (exchange (device_id h) a)) /\
  fst (g k w) <> Ret (get_field p h) /\
  heap (snd (g k w)) = heap w /\
  connected (mb (snd (g k w))) = true /\
  writes (trace (snd (g k w))) = writes (trace w) ++ [get_frame (device_id h) a].
Proof.
  intros Hin Hc Hk Hd Hn Hf Hdec.
  assert (Ha : 0 <= a <= 255).
  { repeat (apply elem_of_cons in Hin as [Hin|Hin]);
      try (apply elem_of_nil in Hin; contradiction);
      injection Hin as -> -> ->; lia. }
  assert (Hd' : 0 <= device_id h <= 255) by lia.
  pose proof (send_command_via_handle k a 0 true w h Hk) as Hs.
  rewrite (send_command_read _ _ _ _ _ bs Hc (pack_BBI_get _ _ Hd' Ha) Hn) in Hs.
  unfold reply, benign in Hs. rewrite Hf, Hdec in Hs. cbn [orb] in Hs.
  destruct (guarded_getter_cases p a g Hin k w h Hk) as (_ & _ & HRaise).
  rewrite (HRaise _ _ Hs). cbn [fst snd].
  split.
  { revert Hf. unfold full, response_value.
    destruct bs as [|b0 [|b1 [|b2 [|b3 r]]]]; cbn; intros H;
      first [reflexivity | discriminate]. }
  split; [reflexivity|]. split; [discriminate|]. split; [reflexivity|].
  split; [exact Hc|].
  unfold sent. cbn [trace with_trace with_incoming]. rewrite writes_app.
  reflexivity.
Qed.

(** A cached frequency of 1000 and the single byte [FF] in reply. *)
Lemma guarded_getter_raises_on_undecodable_reply_witness :
  let h := set_field Frequency (Some (VInt 1000)) (fresh 3) in
  let w := world (board true ∅) [h] [Delivers [xff]] in
  frequency h = Some (VInt 1000) /\
  response_value [xff] = None /\
  fst (get_frequency 0%nat w) = Raise UnicodeDecodeError /\
  fst (get_frequency 0%nat w) <> Ret (Some (VInt 1000)) /\
  writes (trace (snd (get_frequency 0%nat w))) = [] ++ [get_frame 3 22].
Proof.
  intros h w.
  assert (Hin : (Frequency, 22, get_frequency) ∈ guarded_getters)
    by (apply list_elem_of_here).
  destruct (guarded_getter_raises_on_undecodable_reply Frequency 22 get_frequency
              w 0%nat h [xff] Hin eq_refl eq_refl ltac:(simpl; lia) eq_refl
              eq_refl eq_refl) as (H1 & H2 & H3 & _ & _ & H6).
  split; [reflexivity|]. split; [exact H1|].
  split; [rewrite H2; reflexivity|]. split; [exact H3 | exact H6].
Defined.

(** C2 at its failing inputs. A read that times out makes [send_command]
    return [None]; [get_mode] and [get_startup_enabled] then assign that
    [None], so the cached mode 1 and the cached flag are gone.  And a short
    reply that is not UTF-8 makes [send_command] raise. *)
Theorem short_read_drops_cached_mode :
  let h := set_field StartupEnabled (Some (VBool true))
             (set_field Mode (Some (VInt 1)) (fresh 3)) in
  let w := world (board true ∅) [h] [Delivers []] in
  full [] = false /\
  fst (send_command 3 21 0 true w) = Ret None /\
  mode h = Some (VInt 1) /\
  fst (get_mode 0%nat w) = Ret None /\
  mode (heap (snd (get_mode 0%nat w)) !!! 0%nat) = None /\
  startup_enabled h = Some (VBool true) /\
  startup_enabled (heap (snd (get_startup_enabled 0%nat w)) !!! 0%nat) = None /\
  full [xff] = false /\
  fst (send_command 3 21 0 true (world (board true ∅) [h] [Delivers [xff]]))
    = Raise UnicodeDecodeError.
Proof.
  vm_compute. repeat split.
Qed.

(** ** Setters of a float *)

Lemma unpack_I_le_range bs v :
  struct.unpack_I_le bs = Ret v -> 0 <= v < 4294967296.
Proof.
  destruct bs as [|b0 [|b1 [|b2 [|b3 [|b4 r]]]]]; simpl; intros H;
    try discriminate.
  injection H as <-.
  pose proof (Z_of_byte_range b0). pose proof (Z_of_byte_range b1).
  pose proof (Z_of_byte_range b2). pose proof (Z_of_byte_range b3). lia.
Qed.

Lemma float_to_int_bytes x n :
  _float_to_int x = Ret n ->
  0 <= n < 4294967296 /\
  exists b0 b1 b2 b3,
    struct.pack_f_le x = Ret [b0; b1; b2; b3] /\
    n = Z_of_byte b0 + Z_of_byte b1 * 256 + Z_of_byte b2 * 65536
        + Z_of_byte b3 * 16777216.
Proof.
  unfold _float_to_int. intros H.
  destruct (struct.pack_f_le x) as [bs|e] eqn:E; [|discriminate]. simpl in H.
  split; [eapply unpack_I_le_range, H|].
  destruct bs as [|b0 [|b1 [|b2 [|b3 [|b4 r]]]]]; simpl in H; try discriminate.
  injection H as <-. eauto 10.
Qed.

Lemma set_float_eq p a k x w h n bs :
  connected (mb w) = true -> heap w !! k = Some h ->
  0 <= device_id h <= 255 -> 0 <= a <= 255 ->
  next w = Delivers bs -> _float_to_int x = Ret n ->
  exists o,
    set_float p a k x w =
    (o, sent (with_heap (alter (set_field p (Some (VFloat x))) k (heap w)) w)
          [CReset; CWrite (byte_of_Z (device_id h) :: byte_of_Z a :: struct.be32 n);
           CFlush; CReadline]).
Proof.
  intros Hc Hk Hd Ha Hn Hx.
  destruct (float_to_int_bytes x n Hx) as [Hr _].
  set (w1 := with_heap (alter (set_field p (Some (VFloat x))) k (heap w)) w).
  assert (Hk1 : heap w1 !! k = Some (set_field p (Some (VFloat x)) h)).
  { subst w1. cbn [heap with_heap]. rewrite list_lookup_alter_eq, Hk. reflexivity. }
  pose proof (send_command_via_handle k a n false w1 _ Hk1) as Hs.
  rewrite device_id_set_field in Hs.
  rewrite (send_command_write (device_id h) a n w1 _ bs Hc
             (pack_BBI_ok _ _ _ Hd Ha Hr) Hn) in Hs.
  unfold set_float, setattr. cbv [mbind M_bind lift]. rewrite Hx.
  fold w1. rewrite Hs.
  destruct (obind _ _); eexists; reflexivity.
Qed.

(** ** Rounding gives a datum of the format *)

Lemma shr_1_digits mrs :
  0 <= shr_m mrs ->
  0 <= shr_m (shr_1 mrs) /\
  Zdigits2 (shr_m (shr_1 mrs)) = Z.max 0 (Zdigits2 (shr_m mrs) - 1).
Proof.
  destruct mrs as [m r s]. cbn [shr_m]. intros Hm.
  destruct m as [|[p|p|]|p]; cbn [shr_1 shr_m Zdigits2 digits2_pos]; lia.
Qed.

Lemma shr_iter_digits p mrs :
  0 <= shr_m mrs ->
  0 <= shr_m (SpecFloat.iter_pos shr_1 p mrs) /\
  Zdigits2 (shr_m (SpecFloat.iter_pos shr_1 p mrs))
  = Z.max 0 (Zdigits2 (shr_m mrs) - Z.pos p).
Proof.
  intros Hm. rewrite iter_pos_iter.
  induction p as [|p IH] using Pos.peano_ind.
  - cbn [Pos.iter]. apply shr_1_digits, Hm.
  - rewrite Pos.iter_succ. destruct IH as [H0 Hd].
    destruct (shr_1_digits _ H0) as [H1 Hd1].
    split; [exact H1|]. rewrite Hd1, Hd, Pos2Z.inj_succ. lia.
Qed.

Lemma Zdigits2_nonneg m : 0 <= Zdigits2 m.
Proof. destruct m; cbn; lia. Qed.

Lemma Zdigits2_succ m :
  0 <= m -> Zdigits2 m <= Zdigits2 (m + 1).
Proof.
  intros Hm. destruct m as [|p|p]; [change (0 <= 1); lia | | lia].
  replace (Z.pos p + 1) with (Z.pos (p + 1)) by lia. cbn [Zdigits2].
  pose proof (digits2_pos_bounds p) as [Ha _].
  pose proof (digits2_pos_bounds (p + 1)) as [_ Hb].
  destruct (Z.le_gt_cases (Z.pos (digits2_pos p)) (Z.pos (digits2_pos (p + 1))))
    as [H|H]; [exact H|].
  assert (2 ^ Z.pos (digits2_pos (p + 1)) <= 2 ^ (Z.pos (digits2_pos p) - 1))
    by (apply Z.pow_le_mono_r; lia).
  lia.
Qed.

Lemma round_nearest_even_digits m l :
  0 <= m ->
  0 <= round_nearest_even m l /\
  Zdigits2 m <= Zdigits2 (round_nearest_even m l).
Proof.
  intros Hm. pose proof (Zdigits2_succ m Hm).
  destruct l as [|[]]; cbn [round_nearest_even];
    try destruct (Z.even m); split; lia.
Qed.

Section RoundValid.
Variables prec emax : Z.

Lemma shl_align_fexp_le mx ex mz ez :
  shl_align mx ex (fexp prec emax (Z.pos (digits2_pos mx) + ex)) = (mz, ez) ->
  ez <= fexp prec emax (Z.pos (digits2_pos mz) + ez).
Proof.
  unfold shl_align.
  destruct (fexp prec emax (Z.pos (digits2_pos mx) + ex) - ex) as [|d|d] eqn:Ed;
    intros [= <- <-]; try lia.
  rewrite digits2_pos_shift.
  replace (Z.pos (digits2_pos mx) + Z.pos d
           + fexp prec emax (Z.pos (digits2_pos mx) + ex))
    with (Z.pos (digits2_pos mx) + ex) by lia.
  lia.
Qed.

Lemma shr_fexp_digits m e l :
  0 <= m -> e <= fexp prec emax (Zdigits2 m + e) ->
  let '(mrs, e') := shr_fexp prec emax m e l in
  e' = fexp prec emax (Zdigits2 m + e) /\
  0 <= shr_m mrs /\
  Zdigits2 (shr_m mrs) = Z.max 0 (Zdigits2 m - (e' - e)).
Proof.
  intros Hm He. unfold shr_fexp, shr.
  assert (Hr : shr_m (shr_record_of_loc m l) = m) by (destruct l as [|[]]; reflexivity).
  pose proof (Zdigits2_nonneg m) as Hd.
  destruct (fexp prec emax (Zdigits2 m + e) - e) as [|p|p] eqn:En; try lia.
  - rewrite Hr. split; [lia|]. split; [exact Hm | lia].
  - destruct (shr_iter_digits p (shr_record_of_loc m l)) as [H0 H1];
      [rewrite Hr; exact Hm|].
    rewrite Hr in H1. split; [lia|]. split; [exact H0|]. rewrite H1. lia.
Qed.

Lemma binary_round_aux_valid s m e :
  0 < m -> e <= fexp prec emax (Zdigits2 m + e) ->
  valid_binary prec emax (binary_round_aux prec emax s m e loc_Exact) = true.
Proof.
  intros Hm He. unfold binary_round_aux.
  pose proof (shr_fexp_digits m e loc_Exact ltac:(lia) He) as H1.
  destruct (shr_fexp prec emax m e loc_Exact) as [mrs1 e1].
  destruct H1 as (He1 & Hm1 & Hd1).
  set (m1 := round_nearest_even (shr_m mrs1) (loc_of_shr_record mrs1)).
  destruct (round_nearest_even_digits (shr_m mrs1) (loc_of_shr_record mrs1) Hm1)
    as [Hr0 Hrd]. fold m1 in Hr0, Hrd.
  assert (Hd : 0 < Zdigits2 m) by (destruct m; cbn; lia).
  unfold shr_fexp at 1. unfold shr.
  assert (Hr : shr_m (shr_record_of_loc m1 loc_Exact) = m1) by reflexivity.
  unfold fexp, emin in *.
  destruct (Z.max (Zdigits2 m1 + e1 - prec) (3 - emax - prec) - e1) as [|p|p] eqn:En.
  - cbn [shr_record_of_loc shr_m].
    destruct m1 as [|q|q] eqn:Eq; [reflexivity| |reflexivity].
    destruct (Z.leb_spec e1 (emax - prec)) as [Hle|Hgt]; [|reflexivity].
    cbn [valid_binary]. unfold bounded, canonical_mantissa, fexp, emin.
    apply andb_true_iff. split; [|apply Z.leb_le; exact Hle].
    apply Z.eqb_eq. cbn [Zdigits2] in *. lia.
  - destruct (shr_iter_digits p (shr_record_of_loc m1 loc_Exact)) as [H0 H2];
      [rewrite Hr; exact Hr0|].
    rewrite Hr in H2.
    destruct (shr_m (SpecFloat.iter_pos shr_1 p (shr_record_of_loc m1 loc_Exact)))
      as [|q|q] eqn:Eq; [reflexivity| |reflexivity].
    destruct (Z.leb_spec (e1 + Z.pos p) (emax - prec)) as [Hle|Hgt]; [|reflexivity].
    cbn [valid_binary]. unfold bounded, canonical_mantissa, fexp, emin.
    apply andb_true_iff. split; [|apply Z.leb_le; exact Hle].
    apply Z.eqb_eq. cbn [Zdigits2] in H2. lia.
  - cbn [shr_record_of_loc shr_m].
    destruct m1 as [|q|q] eqn:Eq; [reflexivity| |reflexivity].
    destruct (Z.leb_spec e1 (emax - prec)) as [Hle|Hgt]; [|reflexivity].
    cbn [valid_binary]. unfold bounded, canonical_mantissa, fexp, emin.
    apply andb_true_iff. split; [|apply Z.leb_le; exact Hle].
    apply Z.eqb_eq. cbn [Zdigits2] in *. lia.
Qed.

Lemma binary_round_valid s m e :
  valid_binary prec emax (binary_round prec emax s m e) = true.
Proof.
  unfold binary_round.
  pose proof (shl_align_fexp_le m e) as H.
  destruct (shl_align m e (fexp prec emax (Z.pos (digits2_pos m) + e))) as [mz ez].
  apply binary_round_aux_valid; [lia|]. exact (H mz ez eq_refl).
Qed.

End RoundValid.

Lemma binary32_of_float_valid x :
  valid_binary 24 128 (struct.binary32_of_float x) = true.
Proof.
  destruct x as [s|s| |s m e]; try reflexivity.
  apply binary_round_valid.
Qed.

Lemma float_to_int_bits x n :
  _float_to_int x = Ret n ->
  n = struct.bits_of_binary32 (struct.binary32_of_float x).
Proof.
  unfold _float_to_int, struct.pack_f_le.
  destruct (_ && _); [discriminate|]. cbn [obind].
  rewrite unpack_le32; [congruence|].
  apply bits_of_binary32_range, binary32_of_float_valid.
Qed.

(** C6. For each of the six setters of a float, on a connected link whose
    port does not fail, and for an argument that is not a NaN and that
    [struct.pack("<f", x)] accepts: the frame written carries the handle's
    device id, the setter's action code, and, big-endian, the IEEE-754
    single-precision bit pattern of the argument rounded to nearest even,
    which is the unsigned integer read little-endian from the four bytes
    of [struct.pack("<f", x)]; for an argument that single precision holds
    exactly it is the pattern of that very datum.  The argument is in the
    cache by then.  ([spec_float] has one NaN, the code keeps the sign and
    the payload of the NaN it is given: a NaN argument is left out.) *)
Theorem float_setter_frame (p : param) (a : Z)
    (set : addr -> spec_float -> M unit)
    (w : World) (k : addr) (h : NanoKicker) (x : spec_float) (n : Z)
    (bs : list byte) :
  (p, a, set) ∈ float_setters ->
  connected (mb w) = true ->
  heap w !! k = Some h ->
  0 <= device_id h < 20 ->
  next w = Delivers bs ->
  x <> S754_nan ->
  _float_to_int x = Ret n ->
  let w' := snd (set k x w) in
  (exists b0 b1 b2 b3,
     struct.pack_f_le x = Ret [b0; b1; b2; b3] /\
     n = Z_of_byte b0 + Z_of_byte b1 * 256 + Z_of_byte b2 * 65536
         + Z_of_byte b3 * 16777216) /\
  valid_binary 24 128 (struct.binary32_of_float x) = true /\
  n = struct.bits_of_binary32 (struct.binary32_of_float x) /\
  struct.pack_f_le x = Ret (struct.le32 n) /\
  (forall f, valid_binary 24 128 f = true -> x = struct.float_of_binary32 f ->
     n = struct.bits_of_binary32 f) /\
  writes (trace w') =
    writes (trace w) ++ [byte_of_Z (device_id h) :: byte_of_Z a :: struct.be32 n] /\
  struct.unpack_I_be (struct.be32 n) = Ret n /\
  get_field p (heap w' !!! k) = Some (VFloat x).
Proof.
  intros Hin Hc Hk Hd Hn Hnan Hx w'.
  destruct (float_to_int_bytes x n Hx) as [Hr Hb].
  pose proof (float_to_int_bits x n Hx) as Hbits.
  split; [exact Hb|].
  split; [apply binary32_of_float_valid|].
  split; [exact Hbits|].
  split.
  { revert Hx. unfold _float_to_int, struct.pack_f_le.
    destruct (_ && _); [discriminate|]. intros _. rewrite Hbits. reflexivity. }
  split.
  { intros f Hf ->. rewrite Hbits, (binary32_of_float_of_binary32 f Hf).
    reflexivity. }
  assert (Ha : 0 <= a <= 255 /\ set = set_float p a).
  { repeat (apply elem_of_cons in Hin as [Hin|Hin]);
      try (apply elem_of_nil in Hin; contradiction);
      injection Hin as -> -> ->; (split; [lia | reflexivity]). }
  destruct Ha as [Ha ->].
  destruct (set_float_eq p a k x w h n bs Hc Hk ltac:(lia) Ha Hn Hx) as [o Ho].
  subst w'. rewrite Ho. cbn [snd].
  split.
  { unfold sent. cbn [trace with_trace with_incoming with_heap].
    rewrite writes_app. reflexivity. }
  split; [apply unpack_be32; exact Hr|].
  unfold sent. cbn [heap with_trace with_incoming with_heap].
  rewrite (lookup_total_alter _ _ _ _ Hk). apply get_set_field_eq.
Qed.

(** Scenario 2: set-amplitude(device 0, 2.5) puts [00 03 40 20 00 00] on the
    wire; 2.5 is [5 * 2^-1], here in binary64 form, and [0x40200000] is its
    single-precision pattern: sign 0, exponent 128, fraction [0x200000]. *)
Lemma float_setter_frame_witness :
  let x := S754_finite false 5629499534213120 (-51) in
  let w := world (board true ∅) [fresh 0] [Delivers [x6f; x6b; x0a]] in
  let w' := snd (set_amplitude 0%nat x w) in
  struct.pack_f_le x = Ret [x00; x00; x20; x40] /\
  _float_to_int x = Ret 1075838976 /\
  1075838976 = struct.bits_of_binary32 (struct.binary32_of_float x) /\
  1075838976 = 0 * 2147483648 + 128 * 8388608 + 2097152 /\
  writes (trace w') = [[x00; x03; x40; x20; x00; x00]] /\
  amplitude (heap w' !!! 0%nat) = Some (VFloat x).
Proof.
  intros x w w'.
  assert (Hin : (Amplitude, 3, set_amplitude) ∈ float_setters)
    by (apply list_elem_of_here).
  pose proof (float_setter_frame Amplitude 3 set_amplitude w 0%nat (fresh 0) x
                1075838976 [x6f; x6b; x0a] Hin eq_refl eq_refl
                ltac:(simpl; lia) eq_refl ltac:(discriminate) eq_refl)
    as (_ & _ & H3 & _ & _ & H6 & _ & H8).
  split; [reflexivity|]. split; [reflexivity|]. split; [exact H3|].
  split; [reflexivity|]. split; [exact H6 | exact H8].
Defined.

(** ** A disconnected link *)

Lemma with_heap_same w : with_heap (heap w) w = w.
Proof. destruct w; reflexivity. Qed.

Lemma quiet_ret {A} (a : A) : quiet (mret a : M A).
Proof.
  intros w _. exists (Ret a), (heap w).
  rewrite with_heap_same. split; [reflexivity | congruence].
Qed.

Lemma quiet_bind {A B} (c : M A) (f : A -> M B) :
  quiet c -> (forall a, quiet (f a)) -> quiet (c ≫= f).
Proof.
  intros Hc Hf w Hw. destruct (Hc w Hw) as (r & hp & E & Hr).
  cbv [mbind M_bind]. rewrite E. destruct r as [a|e].
  - destruct (Hf a (with_heap hp w) Hw) as (r' & hp' & E' & Hr').
    exists r', hp'. split; [exact E' | exact Hr'].
  - exists (Raise e), hp. split; [reflexivity|].
    intros e' [= <-]. apply Hr. reflexivity.
Qed.

Lemma quiet_setattr k p v : quiet (setattr k p v).
Proof.
  intros w _. eexists (Ret tt), _. split; [reflexivity | congruence].
Qed.

Lemma quiet_getattr k p : quiet (getattr k p).
Proof.
  intros w _. exists (Ret (get_field p (heap w !!! k))), (heap w).
  rewrite with_heap_same. split; [reflexivity | congruence].
Qed.

Lemma quiet_send_command k a v rr : quiet (_send_command k a v rr).
Proof.
  intros w Hw. exists (Ret None), (heap w). rewrite with_heap_same.
  split; [|congruence].
  unfold _send_command, self. cbv [mbind M_bind].
  apply send_command_not_connected, Hw.
Qed.

Lemma float_to_int_raises x e : _float_to_int x = Raise e -> e = OverflowError.
Proof.
  unfold _float_to_int, struct.pack_f_le.
  destruct (_ && _); simpl; [congruence|]. discriminate.
Qed.

Lemma quiet_float_to_int x : quiet (lift (_float_to_int x)).
Proof.
  intros w _. exists (_float_to_int x), (heap w). rewrite with_heap_same.
  split; [reflexivity|]. intros e. apply float_to_int_raises.
Qed.

Lemma quiet_getter_result k p (c : M (option Z)) (store : Z -> M unit) :
  (forall w, connected (mb w) = false -> c w = (Ret None, w)) ->
  quiet (response ← c;
         match response with Some r => store r | None => mret tt end ;;
         getattr k p).
Proof.
  intros Hc w Hw. cbv [mbind M_bind]. rewrite (Hc w Hw).
  apply (quiet_getattr k p w Hw).
Qed.

Lemma send_command_handle_disconnected k a v rr w :
  connected (mb w) = false -> _send_command k a v rr w = (Ret None, w).
Proof.
  intros Hw. unfold _send_command, self. cbv [mbind M_bind].
  apply send_command_not_connected, Hw.
Qed.

Lemma quiet_get_assign p a k : quiet (get_assign p a k).
Proof.
  unfold get_assign. apply quiet_bind; [apply quiet_send_command|].
  intros r. apply quiet_bind; [apply quiet_setattr|].
  intros _. apply quiet_getattr.
Qed.

Lemma quiet_get_int p a k : quiet (get_int p a k).
Proof.
  apply quiet_getter_result. intros w. apply send_command_handle_disconnected.
Qed.

Lemma quiet_get_float p a k : quiet (get_float p a k).
Proof.
  apply (quiet_getter_result k p (_send_command k a 0 true)
           (fun r => x ← lift (_int_to_float r); setattr k p (Some (VFloat x)))).
  intros w. apply send_command_handle_disconnected.
Qed.

Lemma quiet_set_int p a k v : quiet (set_int p a k v).
Proof.
  unfold set_int. apply quiet_bind; [apply quiet_setattr|].
  intros _. apply quiet_bind; [apply quiet_send_command|].
  intros _. apply quiet_ret.
Qed.

Lemma quiet_set_float p a k x : quiet (set_float p a k x).
Proof.
  unfold set_float. apply quiet_bind; [apply quiet_setattr|].
  intros _. apply quiet_bind; [apply quiet_float_to_int|].
  intros n. apply quiet_bind; [apply quiet_send_command|].
  intros _. apply quiet_ret.
Qed.

Lemma quiet_read_all_parameters k : quiet (read_all_parameters k).
Proof.
  unfold read_all_parameters.
  repeat (apply quiet_bind;
          [first [apply quiet_get_assign | apply quiet_get_int | apply quiet_get_float]
          | intros _]).
  apply quiet_ret.
Qed.

Lemma quiet_returning_None (c : M unit) : quiet c -> quiet (returning_None c).
Proof.
  intros Hc. unfold returning_None. apply quiet_bind; [exact Hc|].
  intros _. apply quiet_ret.
Qed.

Lemma quiet_set_startup_enabled k b : quiet (set_startup_enabled k b).
Proof.
  unfold set_startup_enabled. apply quiet_bind; [apply quiet_setattr|].
  intros _. apply quiet_bind; [apply quiet_send_command|].
  intros _. apply quiet_ret.
Qed.

Lemma quiet_settings a k : quiet (_send_command k a 0 false ;; mret tt).
Proof.
  apply quiet_bind; [apply quiet_send_command|]. intros _. apply quiet_ret.
Qed.

Lemma quiet_call_op o k : quiet (call_op o k).
Proof.
  destruct o; cbn [call_op].
  - apply quiet_returning_None, quiet_set_int.
  - apply quiet_returning_None, quiet_set_int.
  - apply quiet_returning_None, quiet_set_float.
  - apply quiet_returning_None, quiet_set_int.
  - apply quiet_returning_None, quiet_set_startup_enabled.
  - apply quiet_returning_None, quiet_set_float.
  - apply quiet_returning_None, quiet_set_float.
  - apply quiet_returning_None, quiet_set_float.
  - apply quiet_returning_None, quiet_set_float.
  - apply quiet_returning_None, quiet_set_float.
  - apply quiet_returning_None, quiet_settings.
  - apply quiet_returning_None, quiet_settings.
  - apply quiet_get_assign.
  - apply quiet_get_int.
  - apply quiet_get_float.
  - apply quiet_get_int.
  - apply quiet_get_assign.
  - apply quiet_get_float.
  - apply quiet_get_float.
  - apply quiet_get_float.
  - apply quiet_get_float.
  - apply quiet_get_float.
  - apply quiet_returning_None, quiet_read_all_parameters.
Qed.

Lemma run_ops_disconnected ops w :
  connected (mb w) = false ->
  exists hp, run_ops w ops = with_heap hp w.
Proof.
  revert w. induction ops as [|[o k] ops IH]; intros w Hw.
  - exists (heap w). symmetry. apply with_heap_same.
  - destruct (quiet_call_op o k w Hw) as (r & hp & E & _).
    unfold run_ops. cbn [fold_left]. rewrite E. cbn [snd].
    destruct (IH (with_heap hp w) Hw) as [hp' E'].
    exists hp'. exact E'.
Qed.

Lemma disconnect_result w :
  disconnect w =
  (Ret tt, if connected (mb w)
           then with_mb (with_serial None (mb w)) (with_trace (trace w ++ [CClose]) w)
           else w).
Proof.
  unfold disconnect. cbv [mbind M_bind get_mb].
  destruct (connected (mb w)); reflexivity.
Qed.

(** C7, as the code has it. [disconnect] closes the port, with one
    [close()] on a connected link and nothing on a link that is not, and
    leaves the registry and the handles as they are.  Whatever getters and
    setters are
    then called on handles obtained before, no call is made on the port, the
    registry still holds its entries, the link stays disconnected, and a call
    returns; the one exception it can raise is the [OverflowError] of a float
    that does not fit single precision, never an error about the link. *)
Theorem disconnect_keeps_registry (w : World) (ops : list (op * addr))
    (o : op) (k : addr) :
  let w1 := snd (disconnect w) in
  let w2 := run_ops w1 ops in
  trace w1 = trace w ++ (if connected (mb w) then [CClose] else []) /\
  serial (mb w1) = (if connected (mb w) then None else serial (mb w)) /\
  connected (mb w1) = false /\
  nanokickers (mb w1) = nanokickers (mb w) /\
  heap w1 = heap w /\
  trace w2 = trace w1 /\
  nanokickers (mb w2) = nanokickers (mb w) /\
  connected (mb w2) = false /\
  trace (snd (call_op o k w2)) = trace w1 /\
  (forall e, fst (call_op o k w2) = Raise e -> e = OverflowError).
Proof.
  intros w1 w2.
  assert (H0 : trace w1 = trace w ++ (if connected (mb w) then [CClose] else []) /\
               serial (mb w1) = (if connected (mb w) then None else serial (mb w))).
  { subst w1. rewrite disconnect_result. cbn [snd].
    destruct (connected (mb w)); [done|]. rewrite app_nil_r. done. }
  assert (H1 : connected (mb w1) = false /\
               nanokickers (mb w1) = nanokickers (mb w) /\ heap w1 = heap w).
  { subst w1. rewrite disconnect_result. cbn [snd].
    destruct (connected (mb w)) eqn:Hc; [done | rewrite Hc; done]. }
  destruct H0 as (Htr & Hser).
  destruct H1 as (Hd & Hreg & Hheap).
  destruct (run_ops_disconnected ops w1 Hd) as [hp E]. fold w2 in E.
  destruct (quiet_call_op o k w2) as (r & hp' & E' & Hr).
  { rewrite E. exact Hd. }
  rewrite E'. cbn [fst snd]. rewrite E.
  repeat split; try assumption; try reflexivity.
Qed.

(** One handle in slot 3: the port is closed once, the registry keeps the
    slot, and a read and a write on the handle add nothing to the trace. *)
Lemma disconnect_keeps_registry_witness :
  let h := set_field Frequency (Some (VInt 1000)) (fresh 3) in
  let w := world (board true {[ 3 := 0%nat ]}) [h] [] in
  let w1 := snd (disconnect w) in
  let w2 := run_ops w1 [(GetFrequency, 0%nat); (SetFrequency 500, 0%nat)] in
  trace w1 = [CClose] /\
  serial (mb w1) = None /\
  nanokickers (mb w1) = {[ 3 := 0%nat ]} /\
  trace w2 = [CClose] /\
  trace (snd (call_op GetMode 0%nat w2)) = [CClose].
Proof.
  intros h w w1 w2.
  destruct (disconnect_keeps_registry w
              [(GetFrequency, 0%nat); (SetFrequency 500, 0%nat)] GetMode 0%nat)
    as (H1 & H2 & _ & H4 & _ & H6 & _ & _ & H9 & _).
  split; [exact H1|]. split; [exact H2|]. split; [exact H4|].
  split; [exact (eq_trans H6 H1) | exact (eq_trans H9 H1)].
Defined.

(** C7, as stated, fails: after [disconnect] slot 3 is still in the
    registry, and a getter and a setter on its handle return normally. *)
Lemma disconnect_leaves_registry :
  let h := set_field Frequency (Some (VInt 1000)) (fresh 3) in
  let w := world (board true {[ 3 := 0%nat ]}) [h] [] in
  let w1 := snd (disconnect w) in
  nanokickers (mb w1) !! 3 = Some 0%nat /\
  nanokickers (mb w1) <> ∅ /\
  fst (get_frequency 0%nat w1) = Ret (Some (VInt 1000)) /\
  fst (set_frequency 0%nat 500 w1) = Ret tt /\
  ~ (nanokickers (mb w1) = ∅ /\ is_error (fst (get_frequency 0%nat w1))).
Proof.
  assert (H : ({[ 3 := 0%nat ]} : gmap Z nat) <> ∅).
  { intros E. apply (f_equal (fun m => m !! 3)) in E.
    rewrite lookup_singleton_eq, lookup_empty in E. discriminate. }
  cbn zeta. split; [reflexivity|]. split; [exact H|].
  split; [reflexivity|]. split; [reflexivity|].
  intros [E _]. exact (H E).
Qed.

(** ** Scanning while disconnected *)

(** C8, as the code has it. On a disconnected link [scan_for_nanokickers]
    returns [None], not a registry, and changes nothing: no frame is sent,
    no delay is taken, and the registry keeps what it held. *)
Theorem scan_disconnected (w : World) :
  connected (mb w) = false ->
  scan_for_nanokickers w = (Ret None, w).
Proof.
  intros H. unfold scan_for_nanokickers. cbv [mbind M_bind get_mb].
  rewrite H. reflexivity.
Qed.

Lemma scan_disconnected_witness :
  let w := world (board false {[ 3 := 0%nat ]}) [fresh 3] [] in
  scan_for_nanokickers w = (Ret None, w).
Proof.
  exact (scan_disconnected (world (board false {[ 3 := 0%nat ]}) [fresh 3] [])
           eq_refl).
Defined.

(** C8, as stated, fails: what is returned is [None], and the registry of
    the link still has the entry of the scan before. *)
Lemma scan_disconnected_returns_None :
  let w := world (board false {[ 3 := 0%nat ]}) [fresh 3] [] in
  let r := scan_for_nanokickers w in
  fst r = Ret None /\
  fst r <> Ret (Some ∅) /\
  nanokickers (mb (snd r)) !! 3 = Some 0%nat /\
  trace (snd r) = [].
Proof.
  cbn zeta. split; [reflexivity|]. split; [discriminate|].
  split; reflexivity.
Qed.

(** ** Reading all parameters *)

Lemma response_value_short bs : full bs = false -> response_value bs = None.
Proof.
  unfold full, response_value.
  destruct bs as [|b0 [|b1 [|b2 [|b3 r]]]]; cbn; intros H;
    first [reflexivity | discriminate].
Qed.

Lemma response_value_range bs v :
  response_value bs = Some v -> 0 <= v < 4294967296.
Proof.
  unfold response_value.
  destruct (struct.unpack_I_be (take 4 bs)) as [x|] eqn:E; [|discriminate].
  intros [= <-]. eapply unpack_I_be_range, E.
Qed.

Lemma device_id_cached c p r h : device_id (cached c p r h) = device_id h.
Proof. destruct c, r; reflexivity. Qed.

Lemma get_field_cached_ne c p q r h :
  q <> p -> get_field q (cached c p r h) = get_field q h.
Proof.
  intros Hne. destruct c, r; cbn [cached]; try reflexivity;
    apply get_set_field_ne, Hne.
Qed.

Lemma cached_None c p h : c <> Assigned -> cached c p None h = h.
Proof. destruct c; [congruence | reflexivity | reflexivity]. Qed.

Lemma get_field_cached_Some c p v h :
  get_field p (cached c p (Some v) h) =
  Some (match c with
        | GuardedFloat =>
            VFloat (struct.float_of_binary32 (struct.binary32_of_bits v))
        | _ => VInt v
        end).
Proof. destruct c; cbn [cached]; apply get_set_field_eq. Qed.

Lemma send_command_get k a w h bs :
  connected (mb w) = true -> heap w !! k = Some h ->
  0 <= device_id h <= 255 -> 0 <= a <= 255 ->
  next w = Delivers bs -> benign bs = true ->
  _send_command k a 0 true w
  = (Ret (response_value bs), sent w (exchange (device_id h) a)).
Proof.
  intros Hc Hk Hd Ha Hn Hb.
  rewrite (send_command_via_handle _ _ _ _ _ h Hk).
  rewrite (send_command_read _ _ _ _ (get_frame (device_id h) a) bs Hc
             (pack_BBI_get _ _ Hd Ha) Hn).
  unfold reply. rewrite Hb. reflexivity.
Qed.

(** One getter, on a connected link, with a reply that is a value or text. *)
Lemma getter_step c p a k w h bs :
  connected (mb w) = true -> heap w !! k = Some h ->
  0 <= device_id h <= 255 -> 0 <= a <= 255 ->
  next w = Delivers bs -> benign bs = true ->
  let h' := cached c p (response_value bs) h in
  exists w',
    getter c p a k w = (Ret (get_field p h'), w') /\
    mb w' = mb w /\
    incoming w' = tl (incoming w) /\
    trace w' = trace w ++ exchange (device_id h) a /\
    heap w' !! k = Some h'.
Proof.
  intros Hc Hk Hd Ha Hn Hb h'.
  pose proof (send_command_get k a w h bs Hc Hk Hd Ha Hn Hb) as Hs.
  set (w1 := sent w (exchange (device_id h) a)) in *.
  assert (Hk1 : heap w1 !! k = Some h) by exact Hk.
  assert (Hw1 : forall f, alter f k (heap w1) !!! k = f h)
    by (intros f; apply lookup_total_alter, Hk1).
  assert (Hw2 : forall f, alter f k (heap w1) !! k = Some (f h))
    by (intros f; rewrite list_lookup_alter_eq, Hk1; reflexivity).
  destruct c; cbn [getter].
  - rewrite get_assign_eq, Hs. cbv zeta. cbn [heap with_heap]. rewrite Hw1.
    eexists. split; [reflexivity|]. repeat split. apply Hw2.
  - rewrite get_int_eq, Hs. subst h'.
    destruct (response_value bs) as [v|]; cbv zeta; cbn [cached heap with_heap].
    + rewrite Hw1. eexists. split; [reflexivity|]. repeat split. apply Hw2.
    + rewrite (list_lookup_total_correct _ _ _ Hk1).
      eexists. split; [reflexivity|]. repeat split. exact Hk1.
  - rewrite get_float_eq, Hs. subst h'.
    destruct (response_value bs) as [v|] eqn:Ev; cbv zeta; cbn [cached heap with_heap].
    + rewrite (int_to_float_eq v (response_value_range _ _ Ev)).
      cbn [heap with_heap]. rewrite Hw1.
      eexists. split; [reflexivity|]. repeat split. apply Hw2.
    + rewrite (list_lookup_total_correct _ _ _ Hk1).
      eexists. split; [reflexivity|]. repeat split. exact Hk1.
Qed.

(** The cache after the replies [rs] to the getters [l]. *)
Lemma read_each_run k rest l :
  forall rs w h,
    length rs = length l ->
    Forall (fun bs => benign bs = true) rs ->
    Forall (fun '(c, p, a) => 0 <= a <= 255) l ->
    connected (mb w) = true -> heap w !! k = Some h ->
    0 <= device_id h <= 255 ->
    incoming w = (Delivers <$> rs) ++ rest ->
    exists w',
      read_each l k w = (Ret tt, w') /\
      mb w' = mb w /\
      incoming w' = rest /\
      trace w' = trace w ++ concat ((fun '(c, p, a) => exchange (device_id h) a) <$> l) /\
      heap w' !! k =
        Some (fold_left (fun h '(c, p, a, bs) => cached c p (response_value bs) h)
                (zip l rs) h).
Proof.
  induction l as [|[[c p] a] l IH]; intros rs w h Hlen Hb Ha Hc Hk Hd Hin.
  - destruct rs; [|discriminate]. exists w. cbn in *.
    rewrite app_nil_r. repeat split; assumption.
  - destruct rs as [|bs rs]; [discriminate|].
    apply Forall_cons in Hb as [Hb Hbs]. apply Forall_cons in Ha as [Ha Has].
    assert (Hn : next w = Delivers bs) by (unfold next; rewrite Hin; reflexivity).
    destruct (getter_step c p a k w h bs Hc Hk Hd Ha Hn Hb)
      as (w1 & E1 & Hm1 & Hi1 & Ht1 & Hk1).
    rewrite Hin in Hi1. cbn [fmap list_fmap app tl] in Hi1.
    destruct (IH rs w1 (cached c p (response_value bs) h))
      as (w' & E & Hm & Hi & Ht & Hk').
    + cbn in Hlen. lia.
    + exact Hbs.
    + exact Has.
    + rewrite Hm1. exact Hc.
    + exact Hk1.
    + rewrite device_id_cached. exact Hd.
    + exact Hi1.
    + exists w'. unfold read_each in *. cbn [for_each].
      cbv [mbind M_bind mret M_ret] in *. rewrite E1, E.
      split; [reflexivity|]. split; [congruence|]. split; [exact Hi|].
      split; [|exact Hk'].
      rewrite Ht, Ht1, device_id_cached. cbn [fmap list_fmap concat].
      rewrite <- app_assoc. reflexivity.
Qed.

Lemma read_all_parameters_each k w :
  read_all_parameters k w = read_each read_order k w.
Proof.
  unfold read_all_parameters, read_each, read_order. cbn [for_each getter].
  unfold get_mode, get_frequency, get_amplitude, get_wiper, get_startup_enabled,
    get_vin, get_vout, get_pot_range, get_r_g_trim, get_r_f_trim.
  cbv [mbind M_bind mret M_ret].
  repeat match goal with
  | |- context [match ?g ?p ?a k ?w with _ => _ end] =>
      destruct (g p a k w) as [[?|?] ?]; try reflexivity
  end.
Qed.

(** C9, as the code has it. On a connected link whose port does not fail
    and whose ten replies are each a value or text, [read_all_parameters]
    returns after exactly ten getter transactions, in the order mode,
    frequency, amplitude, startup-enabled, vin, vout, pot-range, r_g-trim,
    r_f-trim, wiper (actions 21, 22, 23, 31, 32, 33, 34, 35, 36, 24); a short
    reply to one getter stops none of the later ones; the field of a guarded
    getter whose reply was short is as it was before, and the field of any
    getter whose reply was a value holds that value.  A short reply that is
    not text is left out: there the getter raises (C2, C10) and the reads
    after it are not made. *)
Theorem read_all_parameters_order (w : World) (k : addr) (h : NanoKicker)
    (rs : list (list byte)) (rest : list wire) :
  connected (mb w) = true ->
  heap w !! k = Some h ->
  0 <= device_id h < 20 ->
  incoming w = (Delivers <$> rs) ++ rest ->
  length rs = 10%nat ->
  Forall (fun bs => benign bs = true) rs ->
  exists w' h',
    read_all_parameters k w = (Ret tt, w') /\
    writes (trace w') =
      writes (trace w)
      ++ (get_frame (device_id h) <$> [21; 22; 23; 31; 32; 33; 34; 35; 36; 24]) /\
    incoming w' = rest /\
    heap w' !! k = Some h' /\
    (forall i c p a,
       read_order !! i = Some (c, p, a) -> c <> Assigned ->
       full (rs !!! i) = false ->
       get_field p h' = get_field p h) /\
    (forall i c p a v,
       read_order !! i = Some (c, p, a) ->
       response_value (rs !!! i) = Some v ->
       get_field p h' = Some (decoded p v)).
Proof.
  intros Hc Hk Hd Hin Hlen Hb.
  destruct (read_each_run k rest read_order rs w h)
    as (w' & E & _ & Hi & Ht & Hk'); try assumption; try lia.
  { repeat constructor; lia. }
  destruct rs as [|r0 [|r1 [|r2 [|r3 [|r4 [|r5 [|r6 [|r7 [|r8 [|r9 [|r10 rs]]]]]]]]]]];
    try discriminate.
  cbn [zip zip_with read_order fold_left] in Hk'.
  eexists w', _. rewrite read_all_parameters_each.
  split; [exact E|]. split; [rewrite Ht, writes_app; reflexivity|].
  split; [exact Hi|]. split; [exact Hk'|].
  split.
  - intros i c p a Hi' Hne Hf.
    do 10 (destruct i as [|i];
           [cbn in Hi', Hf; injection Hi' as <- <- <-; try congruence;
            apply response_value_short in Hf;
            repeat first [ rewrite get_field_cached_ne by discriminate
                         | rewrite Hf, cached_None by discriminate ];
            reflexivity|]).
    discriminate.
  - intros i c p a v Hi' Hv.
    do 10 (destruct i as [|i];
           [cbn in Hi', Hv; injection Hi' as <- <- <-;
            repeat rewrite get_field_cached_ne by discriminate;
            rewrite Hv, get_field_cached_Some; reflexivity|]).
    discriminate.
Qed.

(** Ten replies, the second and the last short: frequency and wiper keep
    what was cached, the reads in between still happen. *)
Lemma read_all_parameters_order_witness :
  let h := set_field Wiper (Some (VInt 7))
             (set_field Frequency (Some (VInt 1000)) (fresh 3)) in
  let v := [x00; x00; x00; x01] in
  let rs := [v; []; v; v; v; v; v; v; v; [x6e; x6f]] in
  let w := world (board true ∅) [h] (Delivers <$> rs) in
  exists w' h',
    read_all_parameters 0%nat w = (Ret tt, w') /\
    writes (trace w') =
      [] ++ (get_frame 3 <$> [21; 22; 23; 31; 32; 33; 34; 35; 36; 24]) /\
    incoming w' = [] /\
    heap w' !! 0%nat = Some h' /\
    (forall i c p a,
       read_order !! i = Some (c, p, a) -> c <> Assigned ->
       full (rs !!! i) = false ->
       get_field p h' = get_field p h) /\
    (forall i c p a v,
       read_order !! i = Some (c, p, a) ->
       response_value (rs !!! i) = Some v ->
       get_field p h' = Some (decoded p v)).
Proof.
  intros h v rs w.
  refine (read_all_parameters_order w 0%nat h rs [] eq_refl eq_refl _ eq_refl eq_refl _).
  - simpl. lia.
  - repeat constructor.
Defined.

(** C9, as stated, fails on the order: the wiper is read last, after
    r_f-trim, not fourth. *)
Lemma read_all_parameters_reads_wiper_last :
  let w := world (board true ∅) [fresh 3] [] in
  let sent_frames := writes (trace (snd (read_all_parameters 0%nat w))) in
  sent_frames = (get_frame 3 <$> [21; 22; 23; 31; 32; 33; 34; 35; 36; 24]) /\
  sent_frames <> (get_frame 3 <$> [21; 22; 23; 24; 31; 32; 33; 34; 35; 36]).
Proof.
  vm_compute. split; [reflexivity | discriminate].
Qed.

(** ** Discovery *)

Lemma alter_last (f : NanoKicker -> NanoKicker) (l : list NanoKicker) x :
  alter f (length l) (l ++ [x]) = l ++ [f x].
Proof.
  rewrite <- (Nat.add_0_r (length l)) at 1. rewrite alter_app_r. reflexivity.
Qed.

(** One probe, on a connected link, with a reply that is a value or text. *)
Lemma probe_step i w bs :
  connected (mb w) = true -> 0 <= i < 20 ->
  next w = Delivers bs -> benign bs = true ->
  probe i w =
  (Ret tt,
   match present bs with
   | Some r =>
       with_mb (with_nanokickers (<[i := length (heap w)]> (nanokickers (mb w))) (mb w))
         (with_heap (heap w ++ [seeded i r]) (sent w (exchange i 21 ++ [CSleep])))
   | None => sent w (exchange i 21 ++ [CSleep])
   end).
Proof.
  intros Hc Hi Hn Hb. unfold probe. cbv [mbind M_bind].
  assert (Hp : struct.pack_BBI i 21 0 = Ret (get_frame i 21))
    by (apply pack_BBI_get; lia).
  rewrite (send_command_read i 21 0 w (get_frame i 21) bs Hc Hp Hn).
  unfold reply, present. rewrite Hb.
  destruct (response_value bs) as [r|].
  - destruct (r =? ERROR_RESPONSE_MINUS_2).
    + destruct w as [m hp inc po tr]. run. rewrite <- app_assoc. reflexivity.
    + unfold NanoKicker_init, register, setattr.
      destruct (Z.leb_spec 0 i); [|lia]. destruct (Z.ltb_spec i 20); [|lia].
      destruct w as [m hp inc po tr]. run. cbn [andb].
      rewrite alter_last, <- app_assoc. reflexivity.
  - destruct w as [m hp inc po tr]. run. rewrite <- app_assoc. reflexivity.
Qed.

Lemma seqZ_step s n : seqZ s (Z.of_nat (S n)) = s :: seqZ (s + 1) (Z.of_nat n).
Proof.
  rewrite seqZ_cons by lia. f_equal. f_equal; lia.
Qed.

(** The loop of the scan over the slots [s, s + length rs). *)
Lemma scan_loop rest rs :
  forall s w,
    0 <= s -> s + Z.of_nat (length rs) <= 20 ->
    Forall (fun bs => benign bs = true) rs ->
    connected (mb w) = true ->
    incoming w = (Delivers <$> rs) ++ rest ->
    exists w',
      for_each (seqZ s (Z.of_nat (length rs))) probe w = (Ret tt, w') /\
      connected (mb w') = true /\
      incoming w' = rest /\
      (exists new, heap w' = heap w ++ new) /\
      count is_port_call (trace w') =
        (count is_port_call (trace w) + 4 * length rs)%nat /\
      (forall i, i < s \/ s + Z.of_nat (length rs) <= i ->
         nanokickers (mb w') !! i = nanokickers (mb w) !! i) /\
      (forall j bs, rs !! j = Some bs ->
         match present bs with
         | Some r =>
             exists a, nanokickers (mb w') !! (s + Z.of_nat j) = Some a /\
                       heap w' !! a = Some (seeded (s + Z.of_nat j) r)
         | None =>
             nanokickers (mb w') !! (s + Z.of_nat j)
             = nanokickers (mb w) !! (s + Z.of_nat j)
         end).
Proof.
  induction rs as [|bs rs IH]; intros s w Hs Hle Hb Hc Hin.
  - exists w. cbn in Hin |- *.
    split; [reflexivity|]. split; [exact Hc|]. split; [exact Hin|].
    split; [exists []; symmetry; apply app_nil_r|].
    split; [lia|]. split; [reflexivity|].
    intros j bs Hj. discriminate.
  - apply Forall_cons in Hb as [Hb Hbs]. cbn [length] in Hle |- *.
    assert (Hn : next w = Delivers bs) by (unfold next; rewrite Hin; reflexivity).
    pose proof (probe_step s w bs Hc ltac:(lia) Hn Hb) as E1.
    set (w1 := match present bs with
               | Some r => _ | None => _ end) in E1.
    assert (Hc1 : connected (mb w1) = true)
      by (subst w1; destruct (present bs); exact Hc).
    assert (Hi1 : incoming w1 = (Delivers <$> rs) ++ rest)
      by (subst w1; destruct (present bs); cbn; rewrite Hin; reflexivity).
    assert (Hh1 : exists new, heap w1 = heap w ++ new).
    { subst w1; destruct (present bs); cbn; eauto.
      exists []. symmetry. apply app_nil_r. }
    assert (Ht1 : count is_port_call (trace w1)
                  = (count is_port_call (trace w) + 4)%nat).
    { subst w1; destruct (present bs); cbn [trace sent with_trace with_mb
        with_heap with_incoming]; rewrite count_app; reflexivity. }
    destruct (IH (s + 1) w1 ltac:(lia) ltac:(lia) Hbs Hc1 Hi1)
      as (w' & E & Hc' & Hi' & [new' Hh'] & Ht' & Hout & Hslots).
    exists w'. rewrite seqZ_step. cbn [for_each]. cbv [mbind M_bind].
    rewrite E1, E.
    split; [reflexivity|]. split; [exact Hc'|]. split; [exact Hi'|].
    split.
    { destruct Hh1 as [new Hh1]. exists (new ++ new').
      rewrite Hh', Hh1, app_assoc. reflexivity. }
    split; [rewrite Ht', Ht1; lia|].
    split.
    + intros i Hi. rewrite Hout by lia.
      subst w1; destruct (present bs); cbn; [|reflexivity].
      apply lookup_insert_ne. lia.
    + intros [|j] bs' Hj.
      * cbn in Hj. injection Hj as <-.
        replace (s + Z.of_nat 0) with s by lia.
        rewrite Hout by lia. subst w1.
        destruct (present bs) as [r|]; cbn; [|reflexivity].
        exists (length (heap w)). split; [apply lookup_insert_eq|].
        rewrite Hh'. cbn [heap with_mb with_heap].
        apply lookup_app_l_Some, list_lookup_middle. reflexivity.
      * cbn in Hj. specialize (Hslots j bs' Hj).
        replace (s + Z.of_nat (S j)) with (s + 1 + Z.of_nat j) by lia.
        destruct (present bs') as [r|]; [exact Hslots|].
        rewrite Hslots. subst w1.
        destruct (present bs); cbn; [|reflexivity].
        apply lookup_insert_ne. lia.
Qed.

(** With twenty replies that are each a value or text, a scan on a connected
    link returns the registry it built from nothing: slot [j] is in it
    exactly when its reply was a full value other than
    [ERROR_RESPONSE_MINUS_2], and its handle is fresh but for the mode, which
    is that value. *)
Lemma scan_registers w rs rest :
  connected (mb w) = true ->
  length rs = 20%nat ->
  Forall (fun bs => benign bs = true) rs ->
  incoming w = (Delivers <$> rs) ++ rest ->
  exists w' reg,
    scan_for_nanokickers w = (Ret (Some reg), w') /\
    nanokickers (mb w') = reg /\
    incoming w' = rest /\
    count is_port_call (trace w') = (count is_port_call (trace w) + 80)%nat /\
    (forall i, ~ 0 <= i < 20 -> reg !! i = None) /\
    (forall j bs, rs !! j = Some bs ->
       match present bs with
       | Some r => exists a, reg !! Z.of_nat j = Some a /\
                             heap w' !! a = Some (seeded (Z.of_nat j) r)
       | None => reg !! Z.of_nat j = None
       end).
Proof.
  intros Hc Hlen Hb Hin.
  set (w0 := with_mb (with_nanokickers ∅ (mb w)) w).
  destruct (scan_loop rest rs 0 w0 ltac:(lia) ltac:(lia) Hb Hc Hin)
    as (w' & E & Hc' & Hi' & _ & Ht' & Hout & Hslots).
  rewrite Hlen in E, Ht', Hout.
  exists w', (nanokickers (mb w')).
  unfold scan_for_nanokickers, MAX_DEVICES, range. cbv [mbind M_bind get_mb put_mb mret M_ret].
  rewrite Hc. cbn [negb]. fold w0. change (Z.of_nat 20) with 20 in E. rewrite E.
  split; [reflexivity|]. split; [reflexivity|]. split; [exact Hi'|].
  split; [exact Ht'|]. split.
  - intros i Hi. rewrite Hout by (change (Z.of_nat 20) with 20; lia).
    apply lookup_empty.
  - intros j bs Hj. specialize (Hslots j bs Hj).
    replace (0 + Z.of_nat j) with (Z.of_nat j) in Hslots by lia.
    destruct (present bs); [exact Hslots|].
    rewrite Hslots. apply lookup_empty.
Qed.

(** C3 at its failing input. Slot 0 answers with the single byte [FF],
    slot 1 with the full value 1.  The scan does not get to slot 1: reading
    the short reply of slot 0 as text raises, the scan ends there with an
    empty registry and one frame written. *)
Theorem scan_stops_at_undecodable_reply :
  let w := world (board true {[ 7 := 0%nat ]}) [fresh 7]
             [Delivers [xff]; Delivers [x00; x00; x00; x01]] in
  let r := scan_for_nanokickers w in
  full [xff] = false /\
  present [x00; x00; x00; x01] = Some 1 /\
  fst r = Raise UnicodeDecodeError /\
  nanokickers (mb (snd r)) !! 1 = None /\
  nanokickers (mb (snd r)) !! 7 = None /\
  writes (trace (snd r)) = [get_frame 0 21] /\
  incoming (snd r) = [Delivers [x00; x00; x00; x01]].
Proof.
  vm_compute. repeat split.
Qed.

(** * Further properties *)

(** ** Finding the port *)

Lemma append_String c n b :
  String.append (String c n) b = String c (String.append n b).
Proof. reflexivity. Qed.

Lemma prefix_spec n : forall h,
  String.prefix n h = true <-> exists b, h = String.append n b.
Proof.
  induction n as [|c n IH]; intros h.
  - destruct h; cbn [String.prefix]; split; eauto.
  - destruct h as [|c' h]; cbn [String.prefix].
    + split; [discriminate | intros [b Hb]; discriminate].
    + destruct (Ascii.ascii_dec c c') as [->|Hne].
      * rewrite IH. split; intros [b Hb]; exists b.
        -- rewrite append_String, Hb. reflexivity.
        -- rewrite append_String in Hb. injection Hb as ->. reflexivity.
      * split; [discriminate|].
        intros [b Hb]. rewrite append_String in Hb. congruence.
Qed.

Lemma contains_spec n h :
  contains n h = true <->
  exists a b, h = String.append a (String.append n b).
Proof.
  induction h as [|c h IH]; cbn [contains].
  - rewrite orb_false_r, prefix_spec. split.
    + intros [b Hb]. exists EmptyString, b. exact Hb.
    + intros (a & b & Hab). destruct a as [|c a].
      * exists b. exact Hab.
      * rewrite append_String in Hab. discriminate.
  - rewrite orb_true_iff, prefix_spec, IH. split.
    + intros [[b Hb] | (a & b & Hab)].
      * exists EmptyString, b. exact Hb.
      * exists (String c a), b. rewrite append_String, Hab. reflexivity.
    + intros (a & b & Hab). destruct a as [|c' a].
      * left. exists b. exact Hab.
      * right. rewrite append_String in Hab. injection Hab as -> ->. eauto.
Qed.

(** X1. [_find_pico_port] returns the device of the first port, in the
    order of [comports()], whose description has "Pico" or "Serial" as a
    substring, and [None] exactly when no description has either. *)
Theorem find_pico_port_first_match (ports : list ListPortInfo) :
  let mentions p :=
    exists a b,
      description p = String.append a (String.append "Pico" b) \/
      description p = String.append a (String.append "Serial" b) in
  match _find_pico_port ports with
  | Some d =>
      exists before p after,
        ports = before ++ p :: after /\ device p = d /\ mentions p /\
        Forall (fun q => ~ mentions q) before
  | None => Forall (fun q => ~ mentions q) ports
  end.
Proof.
  intros mentions.
  assert (Hm : forall p, is_pico p = true <-> mentions p).
  { intros p. unfold is_pico, mentions.
    rewrite orb_true_iff, !contains_spec. split.
    - intros [(a & b & H) | (a & b & H)]; exists a, b; tauto.
    - intros (a & b & [H | H]); [left | right]; eauto. }
  induction ports as [|p ports IH]; cbn [_find_pico_port].
  - constructor.
  - destruct (is_pico p) eqn:Hp.
    + exists [], p, ports. repeat split; [apply Hm, Hp | constructor].
    + assert (Hn : ~ mentions p) by (rewrite <- Hm, Hp; discriminate).
      destruct (_find_pico_port ports) as [d|].
      * destruct IH as (before & q & after & -> & Hd & Hq & Hb).
        exists (p :: before), q, after. repeat split; try assumption.
        constructor; assumption.
      * constructor; assumption.
Qed.

(** ** Connecting and disconnecting *)

Lemma connect_result w :
  connect w =
  (Ret tt,
   if port_given (mb w)
   then with_mb (with_serial (if port_opens w then Some {| is_open := true |} else None)
                   (mb w))
          (with_trace (trace w ++ [COpen]) w)
   else w).
Proof.
  unfold connect, open_port. cbv [mbind M_bind get_mb put_mb mret M_ret].
  destruct (port_given (mb w)); reflexivity.
Qed.

(** X2. [disconnect] is idempotent: a second call changes nothing, so the
    port is closed at most once however often it is called, and after it the
    link is disconnected. *)
Theorem disconnect_idempotent (w : World) :
  let w1 := snd (disconnect w) in
  disconnect w1 = (Ret tt, w1) /\
  connected (mb w1) = false /\
  count is_close (trace w1) =
    (count is_close (trace w) + if connected (mb w) then 1 else 0)%nat.
Proof.
  cbv zeta. rewrite !disconnect_result. cbn [snd].
  destruct (connected (mb w)) eqn:Hc.
  - cbn [connected mb with_mb with_serial serial trace with_trace].
    rewrite count_app. repeat split.
  - rewrite Hc. repeat split. lia.
Qed.

(** X3. Handles survive a reconnect. After [disconnect] and a [connect]
    that opens the port, the registry is as before, and a getter called on a
    handle obtained before the disconnect sends its frame and caches the
    reply like on the first connection. *)
Theorem handles_survive_reconnect (w : World) (k : addr) (h : NanoKicker)
    (bs : list byte) :
  heap w !! k = Some h ->
  0 <= device_id h < 20 ->
  port_given (mb w) = true ->
  port_opens w = true ->
  next w = Delivers bs ->
  benign bs = true ->
  let w2 := snd (connect (snd (disconnect w))) in
  connected (mb w2) = true /\
  nanokickers (mb w2) = nanokickers (mb w) /\
  heap w2 = heap w /\
  fst (get_frequency k w2) =
    Ret (match response_value bs with
         | Some v => Some (VInt v)
         | None => frequency h
         end) /\
  writes (trace (snd (get_frequency k w2))) =
    writes (trace w) ++ [get_frame (device_id h) 22].
Proof.
  intros Hk Hd Hp Ho Hn Hb. cbv zeta.
  rewrite disconnect_result. cbn [snd].
  set (w1 := if connected (mb w) then _ else w).
  assert (H1 : port_given (mb w1) = true /\ port_opens w1 = true /\
               heap w1 = heap w /\ nanokickers (mb w1) = nanokickers (mb w) /\
               incoming w1 = incoming w /\ writes (trace w1) = writes (trace w)).
  { subst w1. destruct (connected (mb w)); repeat split; try assumption.
    cbn. rewrite writes_app. cbn. apply app_nil_r. }
  destruct H1 as (Hp1 & Ho1 & Hh1 & Hr1 & Hi1 & Ht1).
  rewrite connect_result, Hp1, Ho1. cbn [snd].
  set (w2 := with_mb _ _).
  assert (Hc2 : connected (mb w2) = true) by reflexivity.
  assert (Hk2 : heap w2 !! k = Some h) by (subst w2; cbn; rewrite Hh1; exact Hk).
  assert (Hn2 : next w2 = Delivers bs)
    by (subst w2; unfold next in *; cbn; rewrite Hi1; exact Hn).
  destruct (getter_step GuardedInt Frequency 22 k w2 h bs Hc2 Hk2
              ltac:(lia) ltac:(lia) Hn2 Hb) as (w3 & E & _ & _ & Ht3 & _).
  cbn [getter] in E. unfold get_frequency. rewrite E. cbn [fst snd].
  split; [reflexivity|]. split; [exact Hr1|]. split; [subst w2; exact Hh1|].
  split.
  - destruct (response_value bs); cbn [cached];
      [rewrite get_set_field_eq|]; reflexivity.
  - rewrite Ht3, writes_app. subst w2. cbn [trace with_mb with_trace].
    rewrite writes_app, Ht1. cbn. rewrite app_nil_r. reflexivity.
Qed.

Lemma handles_survive_reconnect_witness :
  let h := set_field Frequency (Some (VInt 1000)) (fresh 3) in
  let w := world (board true {[ 3 := 0%nat ]}) [h] [Delivers [x00; x00; x07; xd0]] in
  let w2 := snd (connect (snd (disconnect w))) in
  connected (mb w2) = true /\
  nanokickers (mb w2) = {[ 3 := 0%nat ]} /\
  heap w2 = [h] /\
  fst (get_frequency 0%nat w2) = Ret (Some (VInt 2000)) /\
  writes (trace (snd (get_frequency 0%nat w2))) = [] ++ [get_frame 3 22].
Proof.
  intros h w.
  exact (handles_survive_reconnect w 0%nat h [x00; x00; x07; xd0]
           eq_refl ltac:(simpl; lia) eq_refl eq_refl eq_refl eq_refl).
Defined.

(** ** Setters *)

Lemma send_command_handle_keeps k a v rr w :
  heap (snd (_send_command k a v rr w)) = heap w /\
  nanokickers (mb (snd (_send_command k a v rr w))) = nanokickers (mb w).
Proof.
  unfold _send_command, self. cbv [mbind M_bind].
  apply send_command_keeps_handles.
Qed.

Lemma set_int_heap p a k v w :
  heap (snd (set_int p a k v w)) = alter (set_field p (Some (VInt v))) k (heap w) /\
  nanokickers (mb (snd (set_int p a k v w))) = nanokickers (mb w).
Proof.
  unfold set_int, setattr. cbv [mbind M_bind mret M_ret].
  set (w1 := with_heap _ w).
  pose proof (send_command_handle_keeps k a v false w1) as [Hh Hr].
  destruct (_send_command k a v false w1) as [[r|e] w2]; exact (conj Hh Hr).
Qed.

Lemma set_float_heap p a k x w :
  heap (snd (set_float p a k x w)) = alter (set_field p (Some (VFloat x))) k (heap w) /\
  nanokickers (mb (snd (set_float p a k x w))) = nanokickers (mb w).
Proof.
  unfold set_float, setattr. cbv [mbind M_bind mret M_ret lift].
  set (w1 := with_heap _ w).
  destruct (_float_to_int x) as [n|e]; [|split; reflexivity].
  pose proof (send_command_handle_keeps k a n false w1) as [Hh Hr].
  destruct (_send_command k a n false w1) as [[r|e] w2]; exact (conj Hh Hr).
Qed.

Lemma set_startup_enabled_heap k b w :
  heap (snd (set_startup_enabled k b w))
  = alter (set_field StartupEnabled (Some (VBool b))) k (heap w) /\
  nanokickers (mb (snd (set_startup_enabled k b w))) = nanokickers (mb w).
Proof.
  unfold set_startup_enabled, setattr. cbv [mbind M_bind mret M_ret].
  set (w1 := with_heap _ w).
  pose proof (send_command_handle_keeps k 11 (if b then 1 else 0) false w1) as [Hh Hr].
  destruct (_send_command k 11 _ false w1) as [[r|e] w2]; exact (conj Hh Hr).
Qed.

Lemma returning_None_world (c : M unit) w :
  snd (returning_None c w) = snd (c w).
Proof.
  unfold returning_None. cbv [mbind M_bind mret M_ret].
  destruct (c w) as [[r|e] w']; reflexivity.
Qed.

(** X4. Write-cache-then-send. Each of the ten setters stores its argument
    in its own field of its own handle and in nothing else, and it has done
    so whatever the link does afterwards: connected or not, the port failing,
    the argument not fitting its wire format, the reply not being text. *)
Theorem setter_caches_first (o : op) (k : addr) (w : World) (p : param)
    (v : value) (h : NanoKicker) :
  stored o = Some (p, v) ->
  heap w !! k = Some h ->
  let w' := snd (call_op o k w) in
  heap w' = alter (set_field p (Some v)) k (heap w) /\
  heap w' !! k = Some (set_field p (Some v) h) /\
  get_field p (heap w' !!! k) = Some v /\
  (forall q, q <> p -> get_field q (heap w' !!! k) = get_field q h) /\
  (forall j, j <> k -> heap w' !! j = heap w !! j) /\
  nanokickers (mb w') = nanokickers (mb w).
Proof.
  intros Hs Hk w'.
  assert (H : heap w' = alter (set_field p (Some v)) k (heap w) /\
              nanokickers (mb w') = nanokickers (mb w)).
  { subst w'. destruct o; cbn [stored] in Hs; try discriminate;
      injection Hs as <- <-; cbn [call_op]; rewrite returning_None_world.
    - exact (set_int_heap Mode 1 k v0 w).
    - exact (set_int_heap Frequency 2 k v0 w).
    - exact (set_float_heap Amplitude 3 k x w).
    - exact (set_int_heap Wiper 4 k v0 w).
    - exact (set_startup_enabled_heap k b w).
    - exact (set_float_heap Vin 12 k x w).
    - exact (set_float_heap Vout 13 k x w).
    - exact (set_float_heap PotRange 14 k x w).
    - exact (set_float_heap RGTrim 15 k x w).
    - exact (set_float_heap RFTrim 16 k x w). }
  destruct H as [Hh Hr]. rewrite Hh, (lookup_total_alter _ _ _ _ Hk).
  split; [reflexivity|].
  split; [rewrite list_lookup_alter_eq, Hk; reflexivity|].
  split; [apply get_set_field_eq|].
  split; [intros q Hq; apply get_set_field_ne, Hq|].
  split; [|exact Hr].
  intros j Hj. apply list_lookup_alter_ne. congruence.
Qed.

(** A frequency set on a link that was never connected is cached all the
    same. *)
Lemma setter_caches_first_witness :
  let w := world (board false ∅) [fresh 3; fresh 4] [] in
  let w' := snd (call_op (SetFrequency 1000) 0%nat w) in
  heap w' = [set_field Frequency (Some (VInt 1000)) (fresh 3); fresh 4] /\
  trace w' = [].
Proof.
  intros w w'.
  destruct (setter_caches_first (SetFrequency 1000) 0%nat w Frequency (VInt 1000)
              (fresh 3) eq_refl eq_refl) as (H & _).
  split; [exact H | reflexivity].
Defined.

Lemma set_int_eq p a k v w h bs :
  connected (mb w) = true -> heap w !! k = Some h ->
  0 <= device_id h <= 255 -> 0 <= a <= 255 -> 0 <= v < 4294967296 ->
  next w = Delivers bs ->
  set_int p a k v w =
  (obind (decode_utf8 (port_io.first_line bs)) (fun _ => Ret tt),
   sent (with_heap (alter (set_field p (Some (VInt v))) k (heap w)) w)
     [CReset; CWrite (byte_of_Z (device_id h) :: byte_of_Z a :: struct.be32 v);
      CFlush; CReadline]).
Proof.
  intros Hc Hk Hd Ha Hv Hn.
  set (w1 := with_heap (alter (set_field p (Some (VInt v))) k (heap w)) w).
  assert (Hk1 : heap w1 !! k = Some (set_field p (Some (VInt v)) h)).
  { subst w1. cbn [heap with_heap]. rewrite list_lookup_alter_eq, Hk. reflexivity. }
  pose proof (send_command_via_handle k a v false w1 _ Hk1) as Hs.
  rewrite device_id_set_field in Hs.
  rewrite (send_command_write (device_id h) a v w1 _ bs Hc
             (pack_BBI_ok _ _ _ Hd Ha Hv) Hn) in Hs.
  unfold set_int, setattr. cbv [mbind M_bind mret M_ret]. fold w1. rewrite Hs.
  destruct (decode_utf8 _); reflexivity.
Qed.

(** X5. For the three setters of an integer (mode 1, frequency 2, wiper 4),
    on a connected link whose port does not fail and for a value that fits 32
    bits: exactly one frame is written, carrying the handle's device id, the
    action code and the value big-endian; the call makes the four calls of a
    text transaction and nothing else; and it returns normally when the
    reply line is UTF-8 text. *)
Theorem int_setter_frame (p : param) (a : Z) (set : addr -> Z -> M unit)
    (w : World) (k : addr) (h : NanoKicker) (v : Z) (bs : list byte) :
  (p, a, set) ∈ int_setters ->
  connected (mb w) = true ->
  heap w !! k = Some h ->
  0 <= device_id h < 20 ->
  0 <= v < 4294967296 ->
  next w = Delivers bs ->
  let frame := byte_of_Z (device_id h) :: byte_of_Z a :: struct.be32 v in
  let w' := snd (set k v w) in
  trace w' = trace w ++ [CReset; CWrite frame; CFlush; CReadline] /\
  writes (trace w') = writes (trace w) ++ [frame] /\
  struct.unpack_I_be (struct.be32 v) = Ret v /\
  get_field p (heap w' !!! k) = Some (VInt v) /\
  (decodes (port_io.first_line bs) = true -> fst (set k v w) = Ret tt).
Proof.
  intros Hin Hc Hk Hd Hv Hn frame w'.
  assert (Ha : 0 <= a <= 255 /\ set = set_int p a).
  { repeat (apply elem_of_cons in Hin as [Hin|Hin]);
      try (apply elem_of_nil in Hin; contradiction);
      injection Hin as -> -> ->; (split; [lia | reflexivity]). }
  destruct Ha as [Ha ->]. subst w'.
  rewrite (set_int_eq p a k v w h bs Hc Hk ltac:(lia) Ha Hv Hn). cbn [fst snd].
  split; [reflexivity|].
  split; [unfold sent; cbn [trace with_trace with_incoming with_heap];
          rewrite writes_app; reflexivity|].
  split; [apply unpack_be32, Hv|].
  split.
  - unfold sent. cbn [heap with_trace with_incoming with_heap].
    rewrite (lookup_total_alter _ _ _ _ Hk). apply get_set_field_eq.
  - unfold decodes, decode_utf8.
    destruct (code_points _); [reflexivity | discriminate].
Qed.

Lemma int_setter_frame_witness :
  let w := world (board true ∅) [fresh 3] [Delivers [x6f; x6b; x0d; x0a]] in
  let w' := snd (set_wiper 0%nat 300 w) in
  trace w' = [] ++ [CReset; CWrite [x03; x04; x00; x00; x01; x2c]; CFlush; CReadline] /\
  wiper (heap w' !!! 0%nat) = Some (VInt 300) /\
  fst (set_wiper 0%nat 300 w) = Ret tt.
Proof.
  intros w w'.
  assert (Hin : (Wiper, 4, set_wiper) ∈ int_setters)
    by (apply list_elem_of_further, list_elem_of_further, list_elem_of_here).
  destruct (int_setter_frame Wiper 4 set_wiper w 0%nat (fresh 3) 300
              [x6f; x6b; x0d; x0a] Hin eq_refl eq_refl ltac:(simpl; lia)
              ltac:(lia) eq_refl) as (H1 & _ & _ & H4 & H5).
  split; [exact H1|]. split; [exact H4 | exact (H5 eq_refl)].
Defined.

Lemma pack_BBI_bad_value d a v :
  ~ 0 <= v < 4294967296 -> struct.pack_BBI d a v = Raise StructError.
Proof.
  intros Hv. unfold struct.pack_BBI, struct.in_range.
  destruct (Z.leb_spec 0 v), (Z.leb_spec v 4294967295);
    rewrite ?andb_false_r; simpl; try reflexivity. lia.
Qed.

(** X6. An integer setter given a value that does not fit an unsigned 32-bit
    field (a negative one, or one of 2^32 and above) raises [struct.error] on
    a connected link before any call is made on the port, and by then the
    value is in the cache: the handle reports a value the device was never
    sent. *)
Theorem int_setter_out_of_range (p : param) (a : Z) (set : addr -> Z -> M unit)
    (w : World) (k : addr) (h : NanoKicker) (v : Z) :
  (p, a, set) ∈ int_setters ->
  connected (mb w) = true ->
  heap w !! k = Some h ->
  ~ 0 <= v < 4294967296 ->
  fst (set k v w) = Raise StructError /\
  trace (snd (set k v w)) = trace w /\
  incoming (snd (set k v w)) = incoming w /\
  get_field p (heap (snd (set k v w)) !!! k) = Some (VInt v).
Proof.
  intros Hin Hc Hk Hv.
  assert (Ha : set = set_int p a).
  { repeat (apply elem_of_cons in Hin as [Hin|Hin]);
      try (apply elem_of_nil in Hin; contradiction);
      injection Hin as -> -> ->; reflexivity. }
  subst set.
  set (w1 := with_heap (alter (set_field p (Some (VInt v))) k (heap w)) w).
  assert (E : set_int p a k v w = (Raise StructError, w1)).
  { unfold set_int, setattr, _send_command, self. cbv [mbind M_bind mret M_ret].
    fold w1.
    rewrite (send_command_struct_error _ _ _ _ w1 StructError Hc
               (pack_BBI_bad_value _ _ _ Hv)).
    reflexivity. }
  rewrite E. cbn [fst snd]. subst w1. cbn [trace incoming heap with_heap].
  rewrite (lookup_total_alter _ _ _ _ Hk), get_set_field_eq. repeat split.
Qed.

Lemma int_setter_out_of_range_witness :
  let w := world (board true ∅) [fresh 3] [] in
  fst (set_frequency 0%nat (-1) w) = Raise StructError /\
  trace (snd (set_frequency 0%nat (-1) w)) = [] /\
  incoming (snd (set_frequency 0%nat (-1) w)) = [] /\
  frequency (heap (snd (set_frequency 0%nat (-1) w)) !!! 0%nat) = Some (VInt (-1)).
Proof.
  intros w.
  assert (Hin : (Frequency, 2, set_frequency) ∈ int_setters)
    by (apply list_elem_of_further, list_elem_of_here).
  exact (int_setter_out_of_range Frequency 2 set_frequency w 0%nat (fresh 3) (-1)
           Hin eq_refl eq_refl ltac:(lia)).
Defined.

(** X7. A float setter given a float too large for single precision raises
    [OverflowError] before any call is made on the port, on any link, and by
    then the float is in the cache. *)
Theorem float_setter_overflow (p : param) (a : Z)
    (set : addr -> spec_float -> M unit)
    (w : World) (k : addr) (h : NanoKicker) (x : spec_float) (e : exn) :
  (p, a, set) ∈ float_setters ->
  heap w !! k = Some h ->
  _float_to_int x = Raise e ->
  fst (set k x w) = Raise OverflowError /\
  trace (snd (set k x w)) = trace w /\
  incoming (snd (set k x w)) = incoming w /\
  get_field p (heap (snd (set k x w)) !!! k) = Some (VFloat x).
Proof.
  intros Hin Hk Hx.
  assert (Ha : set = set_float p a).
  { repeat (apply elem_of_cons in Hin as [Hin|Hin]);
      try (apply elem_of_nil in Hin; contradiction);
      injection Hin as -> -> ->; reflexivity. }
  subst set. pose proof (float_to_int_raises x e Hx) as ->.
  unfold set_float, setattr. cbv [mbind M_bind mret M_ret lift]. rewrite Hx.
  cbn [fst snd trace incoming heap with_heap].
  rewrite (lookup_total_alter _ _ _ _ Hk), get_set_field_eq. repeat split.
Qed.

(** 2^200 does not fit single precision. *)
Lemma float_setter_overflow_witness :
  let x := S754_finite false 4503599627370496 148 in
  let w := world (board true ∅) [fresh 3] [] in
  valid_binary 53 1024 x = true /\
  fst (set_vin 0%nat x w) = Raise OverflowError /\
  trace (snd (set_vin 0%nat x w)) = [] /\
  incoming (snd (set_vin 0%nat x w)) = [] /\
  vin (heap (snd (set_vin 0%nat x w)) !!! 0%nat) = Some (VFloat x).
Proof.
  intros x w.
  assert (Hin : (Vin, 12, set_vin) ∈ float_setters)
    by (apply list_elem_of_further, list_elem_of_here).
  split; [reflexivity|].
  exact (float_setter_overflow Vin 12 set_vin w 0%nat (fresh 3) x OverflowError
           Hin eq_refl eq_refl).
Defined.

(** ** Saving and loading *)

Lemma settings_eq a k w h bs :
  connected (mb w) = true -> heap w !! k = Some h ->
  0 <= device_id h <= 255 -> 0 <= a <= 255 ->
  next w = Delivers bs ->
  (_send_command k a 0 false ;; mret tt) w =
  (obind (decode_utf8 (port_io.first_line bs)) (fun _ => Ret tt),
   sent w [CReset; CWrite (get_frame (device_id h) a); CFlush; CReadline]).
Proof.
  intros Hc Hk Hd Ha Hn. cbv [mbind M_bind mret M_ret].
  rewrite (send_command_via_handle _ _ _ _ _ h Hk).
  rewrite (send_command_write _ _ _ _ _ bs Hc (pack_BBI_get _ _ Hd Ha) Hn).
  destruct (decode_utf8 _); reflexivity.
Qed.

(** X8. [save_settings] and [load_settings] send one frame, the handle's
    device id with action 17 or 18 and the value 0, and read one line.
    Neither touches a handle: after [load_settings] the cache still holds
    what it held before, not what the device loaded. *)
Theorem settings_frame (a : Z) (f : addr -> M unit) (w : World) (k : addr)
    (h : NanoKicker) (bs : list byte) :
  (a, f) ∈ settings ->
  connected (mb w) = true ->
  heap w !! k = Some h ->
  0 <= device_id h < 20 ->
  next w = Delivers bs ->
  let w' := snd (f k w) in
  trace w' = trace w
             ++ [CReset; CWrite (get_frame (device_id h) a); CFlush; CReadline] /\
  heap w' = heap w /\
  nanokickers (mb w') = nanokickers (mb w) /\
  (decodes (port_io.first_line bs) = true -> fst (f k w) = Ret tt).
Proof.
  intros Hin Hc Hk Hd Hn w'.
  assert (Ha : 0 <= a <= 255 /\ f = fun k => _send_command k a 0 false ;; mret tt).
  { repeat (apply elem_of_cons in Hin as [Hin|Hin]);
      try (apply elem_of_nil in Hin; contradiction);
      injection Hin as -> ->; (split; [lia | reflexivity]). }
  destruct Ha as [Ha ->]. subst w'. cbv beta.
  rewrite (settings_eq a k w h bs Hc Hk ltac:(lia) Ha Hn). cbn [fst snd].
  split; [reflexivity|]. split; [reflexivity|]. split; [reflexivity|].
  unfold decodes, decode_utf8.
  destruct (code_points _); [reflexivity | discriminate].
Qed.

Lemma settings_frame_witness :
  let h := set_field Frequency (Some (VInt 1000)) (fresh 3) in
  let w := world (board true ∅) [h] [Delivers [x6f; x6b; x0a]] in
  let w' := snd (load_settings 0%nat w) in
  trace w' = [] ++ [CReset; CWrite (get_frame 3 18); CFlush; CReadline] /\
  heap w' = [h] /\
  fst (load_settings 0%nat w) = Ret tt.
Proof.
  intros h w w'.
  assert (Hin : (18, load_settings) ∈ settings)
    by (apply list_elem_of_further, list_elem_of_here).
  destruct (settings_frame 18 load_settings w 0%nat h [x6f; x6b; x0a] Hin
              eq_refl eq_refl ltac:(simpl; lia) eq_refl) as (H1 & H2 & _ & H4).
  split; [exact H1|]. split; [exact H2 | exact (H4 eq_refl)].
Defined.

(** ** A value set and read back *)

Lemma full_be32 v : full (struct.be32 v) = true.
Proof. reflexivity. Qed.

Lemma response_value_be32 v :
  0 <= v < 4294967296 -> response_value (struct.be32 v) = Some v.
Proof.
  intros Hv. unfold response_value.
  change (take 4 (struct.be32 v)) with (struct.be32 v).
  rewrite (unpack_be32 v Hv). reflexivity.
Qed.

Lemma benign_be32 v : benign (struct.be32 v) = true.
Proof. reflexivity. Qed.

Lemma decodes_Ret {A} bs (a : A) :
  decodes bs = true -> obind (decode_utf8 bs) (fun _ => Ret a) = Ret a.
Proof.
  unfold decodes, decode_utf8.
  destruct (code_points bs); [reflexivity | discriminate].
Qed.

(** X9. What an integer setter sends, its getter reads back. When the
    device answers the getter with the four value bytes of the setter's
    frame, [get_mode], [get_frequency] and [get_wiper] return the value
    given to [set_mode], [set_frequency] and [set_wiper], for every value
    of 32 bits; two frames were written, the setter's and the getter's. *)
Theorem int_echo (p : param) (a : Z) (set : addr -> Z -> M unit) (b : Z)
    (get : addr -> M (option value))
    (w : World) (k : addr) (h : NanoKicker) (v : Z) (line : list byte)
    (rest : list wire) :
  (p, a, set, b, get) ∈ int_pairs ->
  connected (mb w) = true ->
  heap w !! k = Some h ->
  0 <= device_id h < 20 ->
  0 <= v < 4294967296 ->
  decodes (port_io.first_line line) = true ->
  incoming w = Delivers line :: Delivers (struct.be32 v) :: rest ->
  exists w',
    (set k v ;; get k) w = (Ret (Some (VInt v)), w') /\
    incoming w' = rest /\
    get_field p (heap w' !!! k) = Some (VInt v) /\
    writes (trace w') =
      writes (trace w)
      ++ [byte_of_Z (device_id h) :: byte_of_Z a :: struct.be32 v;
          get_frame (device_id h) b].
Proof.
  intros Hin Hc Hk Hd Hv Hl Hi.
  assert (Hs : exists c, c <> GuardedFloat /\ 0 <= a <= 255 /\ 0 <= b <= 255 /\
                 set = set_int p a /\ get = getter c p b).
  { repeat (apply elem_of_cons in Hin as [Hin|Hin]);
      try (apply elem_of_nil in Hin; contradiction);
      injection Hin as -> -> -> -> ->.
    - exists Assigned. repeat split; (lia || discriminate).
    - exists GuardedInt. repeat split; (lia || discriminate).
    - exists GuardedInt. repeat split; (lia || discriminate). }
  destruct Hs as (c & Hcf & Ha & Hb & -> & ->).
  assert (Hn : next w = Delivers line) by (unfold next; rewrite Hi; reflexivity).
  cbv [mbind M_bind].
  rewrite (set_int_eq p a k v w h line Hc Hk ltac:(lia) Ha Hv Hn).
  rewrite (decodes_Ret _ tt Hl).
  set (w1 := sent _ _).
  assert (Hk1 : heap w1 !! k = Some (set_field p (Some (VInt v)) h)).
  { subst w1. unfold sent. cbn [heap with_trace with_incoming with_heap].
    rewrite list_lookup_alter_eq, Hk. reflexivity. }
  assert (Hn1 : next w1 = Delivers (struct.be32 v))
    by (subst w1; unfold next, sent; cbn; rewrite Hi; reflexivity).
  destruct (getter_step c p b k w1 _ (struct.be32 v) Hc Hk1 ltac:(simpl; lia) Hb
              Hn1 (benign_be32 v)) as (w2 & E & _ & Hi2 & Ht2 & Hk2).
  rewrite (response_value_be32 v Hv) in E, Hk2.
  rewrite get_field_cached_Some in E.
  exists w2. split; [rewrite E; destruct c; [reflexivity|reflexivity|congruence]|].
  split; [rewrite Hi2; subst w1; unfold sent; cbn; rewrite Hi; reflexivity|].
  split.
  - rewrite (list_lookup_total_correct _ _ _ Hk2), get_field_cached_Some.
    destruct c; [reflexivity|reflexivity|congruence].
  - rewrite Ht2, writes_app. subst w1. unfold sent.
    cbn [trace with_trace with_incoming with_heap device_id set_field].
    rewrite writes_app, <- app_assoc. reflexivity.
Qed.

Lemma int_echo_witness :
  let w := world (board true ∅) [fresh 3]
             [Delivers [x6f; x6b; x0a]; Delivers [x00; x00; x03; xe8]] in
  exists w',
    (set_frequency 0%nat 1000 ;; get_frequency 0%nat) w
      = (Ret (Some (VInt 1000)), w') /\
    incoming w' = [] /\
    frequency (heap w' !!! 0%nat) = Some (VInt 1000) /\
    writes (trace w') =
      [] ++ [[x03; x02; x00; x00; x03; xe8]; [x03; x16; x00; x00; x00; x00]].
Proof.
  intros w.
  assert (Hin : (Frequency, 2, set_frequency, 22, get_frequency) ∈ int_pairs)
    by (apply list_elem_of_further, list_elem_of_here).
  exact (int_echo Frequency 2 set_frequency 22 get_frequency w 0%nat (fresh 3)
           1000 [x6f; x6b; x0a] [] Hin eq_refl eq_refl ltac:(simpl; lia)
           ltac:(lia) eq_refl eq_refl).
Defined.

Lemma set_float_run p a k x w h n bs :
  connected (mb w) = true -> heap w !! k = Some h ->
  0 <= device_id h <= 255 -> 0 <= a <= 255 ->
  next w = Delivers bs -> _float_to_int x = Ret n ->
  set_float p a k x w =
  (obind (decode_utf8 (port_io.first_line bs)) (fun _ => Ret tt),
   sent (with_heap (alter (set_field p (Some (VFloat x))) k (heap w)) w)
     [CReset; CWrite (byte_of_Z (device_id h) :: byte_of_Z a :: struct.be32 n);
      CFlush; CReadline]).
Proof.
  intros Hc Hk Hd Ha Hn Hx.
  destruct (float_to_int_bytes x n Hx) as [Hr _].
  set (w1 := with_heap (alter (set_field p (Some (VFloat x))) k (heap w)) w).
  assert (Hk1 : heap w1 !! k = Some (set_field p (Some (VFloat x)) h)).
  { subst w1. cbn [heap with_heap]. rewrite list_lookup_alter_eq, Hk. reflexivity. }
  pose proof (send_command_via_handle k a n false w1 _ Hk1) as Hs.
  rewrite device_id_set_field in Hs.
  rewrite (send_command_write (device_id h) a n w1 _ bs Hc
             (pack_BBI_ok _ _ _ Hd Ha Hr) Hn) in Hs.
  unfold set_float, setattr. cbv [mbind M_bind mret M_ret lift]. rewrite Hx.
  fold w1. rewrite Hs.
  destruct (decode_utf8 _); reflexivity.
Qed.

(** X10. What a float setter sends, its getter reads back, for every float
    that single precision holds. When the device answers the getter with
    the four value bytes of the setter's frame, the getter returns the float
    given to the setter, bit for bit. *)
Theorem float_echo (p : param) (a : Z) (set : addr -> spec_float -> M unit)
    (b : Z) (get : addr -> M (option value))
    (w : World) (k : addr) (h : NanoKicker) (f : spec_float)
    (line : list byte) (rest : list wire) :
  (p, a, set, b, get) ∈ float_pairs ->
  connected (mb w) = true ->
  heap w !! k = Some h ->
  0 <= device_id h < 20 ->
  valid_binary 24 128 f = true ->
  struct.is_finite f = true ->
  decodes (port_io.first_line line) = true ->
  let x := struct.float_of_binary32 f in
  let n := struct.bits_of_binary32 f in
  incoming w = Delivers line :: Delivers (struct.be32 n) :: rest ->
  exists w',
    (set k x ;; get k) w = (Ret (Some (VFloat x)), w') /\
    incoming w' = rest /\
    get_field p (heap w' !!! k) = Some (VFloat x) /\
    writes (trace w') =
      writes (trace w)
      ++ [byte_of_Z (device_id h) :: byte_of_Z a :: struct.be32 n;
          get_frame (device_id h) b].
Proof.
  intros Hin Hc Hk Hd Hf Hfin Hl x n Hi.
  assert (Hs : 0 <= a <= 255 /\ 0 <= b <= 255 /\
               set = set_float p a /\ get = getter GuardedFloat p b).
  { repeat (apply elem_of_cons in Hin as [Hin|Hin]);
      try (apply elem_of_nil in Hin; contradiction);
      injection Hin as -> -> -> -> ->; repeat split; lia. }
  destruct Hs as (Ha & Hb & -> & ->).
  assert (Hn : next w = Delivers line) by (unfold next; rewrite Hi; reflexivity).
  assert (Hinf : struct.is_infinity f = false) by (destruct f; done).
  pose proof (float_to_int_of_binary32 f Hf Hinf) as Hx. fold x n in Hx.
  pose proof (bits_of_binary32_range f Hf) as Hv. fold n in Hv.
  cbv [mbind M_bind].
  rewrite (set_float_run p a k x w h n line Hc Hk ltac:(lia) Ha Hn Hx).
  rewrite (decodes_Ret _ tt Hl).
  set (w1 := sent _ _).
  assert (Hk1 : heap w1 !! k = Some (set_field p (Some (VFloat x)) h)).
  { subst w1. unfold sent. cbn [heap with_trace with_incoming with_heap].
    rewrite list_lookup_alter_eq, Hk. reflexivity. }
  assert (Hn1 : next w1 = Delivers (struct.be32 n))
    by (subst w1; unfold next, sent; cbn; rewrite Hi; reflexivity).
  destruct (getter_step GuardedFloat p b k w1 _ (struct.be32 n) Hc Hk1
              ltac:(simpl; lia) Hb Hn1 (benign_be32 n))
    as (w2 & E & _ & Hi2 & Ht2 & Hk2).
  rewrite (response_value_be32 n Hv) in E, Hk2.
  rewrite get_field_cached_Some in E.
  subst n. rewrite (binary32_of_bits_of_binary32 f Hf) in E. fold x in E.
  exists w2. split; [exact E|].
  split; [rewrite Hi2; subst w1; unfold sent; cbn; rewrite Hi; reflexivity|].
  split.
  - rewrite (list_lookup_total_correct _ _ _ Hk2), get_field_cached_Some.
    rewrite (binary32_of_bits_of_binary32 f Hf). reflexivity.
  - rewrite Ht2, writes_app. subst w1. unfold sent.
    cbn [trace with_trace with_incoming with_heap device_id set_field].
    rewrite writes_app, <- app_assoc. reflexivity.
Qed.

(** 2.5 through [set_amplitude] and [get_amplitude]. *)
Lemma float_echo_witness :
  let f := S754_finite false 10485760 (-22) in
  let x := struct.float_of_binary32 f in
  let w := world (board true ∅) [fresh 0]
             [Delivers [x6f; x6b; x0a]; Delivers [x40; x20; x00; x00]] in
  exists w',
    (set_amplitude 0%nat x ;; get_amplitude 0%nat) w
      = (Ret (Some (VFloat x)), w') /\
    incoming w' = [] /\
    amplitude (heap w' !!! 0%nat) = Some (VFloat x) /\
    writes (trace w') =
      [] ++ [[x00; x03; x40; x20; x00; x00]; [x00; x17; x00; x00; x00; x00]].
Proof.
  intros f x w.
  assert (Hin : (Amplitude, 3, set_amplitude, 23, get_amplitude) ∈ float_pairs)
    by apply list_elem_of_here.
  exact (float_echo Amplitude 3 set_amplitude 23 get_amplitude w 0%nat (fresh 0)
           f [x6f; x6b; x0a] [] Hin eq_refl eq_refl ltac:(simpl; lia)
           eq_refl eq_refl eq_refl eq_refl).
Defined.

(** ** Replies of 7-bit characters *)

Lemma code_points_ascii bs :
  ascii bs = true -> code_points bs = Some (Z_of_byte <$> bs).
Proof.
  induction bs as [|b r IH]; [reflexivity|].
  cbn [ascii forallb]. intros [Hb Hr]%andb_true_iff.
  cbn [code_points]. rewrite Hb, (IH Hr). reflexivity.
Qed.

Lemma ascii_take n bs : ascii bs = true -> ascii (take n bs) = true.
Proof.
  revert n. induction bs as [|b r IH]; intros [|n] H; try reflexivity.
  cbn [ascii forallb] in H. apply andb_true_iff in H as [Hb Hr].
  cbn [take ascii forallb]. rewrite Hb. exact (IH n Hr).
Qed.

Lemma ascii_first_line bs : ascii bs = true -> ascii (port_io.first_line bs) = true.
Proof.
  induction bs as [|b r IH]; intros H; [reflexivity|].
  cbn [ascii forallb] in H. apply andb_true_iff in H as [Hb Hr].
  cbn [port_io.first_line]. destruct (Byte.eqb b x0a); cbn [ascii forallb];
    rewrite Hb; [reflexivity | exact (IH Hr)].
Qed.

(** X11. A device that sends only 7-bit characters never makes a
    transaction raise. On a connected link whose port does not fail, with
    arguments that fit the frame, [send_command] returns: the value when
    four bytes arrived on a read, [None] otherwise. *)
Theorem ascii_reply_never_raises (w : World) (d a v : Z) (rr : bool)
    (bs : list byte) :
  connected (mb w) = true ->
  0 <= d <= 255 -> 0 <= a <= 255 -> 0 <= v < 4294967296 ->
  next w = Delivers bs ->
  ascii bs = true ->
  fst (send_command d a v rr w) =
    Ret (if rr && full bs then response_value bs else None) /\
  decode_utf8 bs = Ret (Z_of_byte <$> bs).
Proof.
  intros Hc Hd Ha Hv Hn Hb.
  pose proof (pack_BBI_ok d a v Hd Ha Hv) as Hp.
  split; [|unfold decode_utf8; rewrite (code_points_ascii bs Hb); reflexivity].
  destruct rr; cbn [andb].
  - rewrite (send_command_read d a v w _ bs Hc Hp Hn). cbn [fst].
    unfold reply, benign, decodes.
    rewrite (code_points_ascii _ (ascii_take 4 bs Hb)), orb_true_r.
    destruct (full bs) eqn:Hf; [reflexivity|].
    rewrite (response_value_short bs Hf). reflexivity.
  - rewrite (send_command_write d a v w _ bs Hc Hp Hn). cbn [fst].
    unfold decode_utf8.
    rewrite (code_points_ascii _ (ascii_first_line bs Hb)). reflexivity.
Qed.

(** A read that timed out after the two characters [no]. *)
Lemma ascii_reply_never_raises_witness :
  let w := world (board true ∅) [] [Delivers [x6e; x6f]] in
  fst (send_command 3 22 0 true w) = Ret None /\
  decode_utf8 [x6e; x6f] = Ret [110; 111].
Proof.
  intros w.
  exact (ascii_reply_never_raises w 3 22 0 true [x6e; x6f] eq_refl
           ltac:(lia) ltac:(lia) ltac:(lia) eq_refl eq_refl).
Defined.

(** ** Reading on a disconnected link *)

Lemma get_assign_disconnected p a k w :
  connected (mb w) = false ->
  snd (get_assign p a k w) = with_heap (alter (set_field p None) k (heap w)) w /\
  exists r, fst (get_assign p a k w) = Ret r.
Proof.
  intros Hc. rewrite get_assign_eq, (send_command_handle_disconnected _ _ _ _ _ Hc).
  cbv zeta. cbn [fst snd fmap option_fmap option_map]. eauto.
Qed.

Lemma get_int_disconnected p a k w :
  connected (mb w) = false ->
  snd (get_int p a k w) = w /\ exists r, fst (get_int p a k w) = Ret r.
Proof.
  intros Hc. rewrite get_int_eq, (send_command_handle_disconnected _ _ _ _ _ Hc).
  cbn [fst snd]. eauto.
Qed.

Lemma get_float_disconnected p a k w :
  connected (mb w) = false ->
  snd (get_float p a k w) = w /\ exists r, fst (get_float p a k w) = Ret r.
Proof.
  intros Hc. rewrite get_float_eq, (send_command_handle_disconnected _ _ _ _ _ Hc).
  cbn [fst snd]. eauto.
Qed.

(** X12. [read_all_parameters] on a disconnected link returns normally and
    makes no call on the port, and it erases two cached values: the mode
    and the startup flag of the handle become [None], since [get_mode] and
    [get_startup_enabled] assign whatever the transaction gave. The other
    eight fields, the other handles and the registry stay as they were. *)
Theorem read_all_parameters_disconnected (w : World) (k : addr) (h : NanoKicker) :
  connected (mb w) = false ->
  heap w !! k = Some h ->
  let w' := snd (read_all_parameters k w) in
  fst (read_all_parameters k w) = Ret tt /\
  trace w' = trace w /\
  mb w' = mb w /\
  heap w' = alter (fun h => set_field StartupEnabled None (set_field Mode None h))
              k (heap w) /\
  get_field Mode (heap w' !!! k) = None /\
  get_field StartupEnabled (heap w' !!! k) = None /\
  (forall q, q <> Mode -> q <> StartupEnabled ->
     get_field q (heap w' !!! k) = get_field q h).
Proof.
  intros Hc Hk w'.
  assert (E : read_all_parameters k w =
              (Ret tt, with_heap (alter (set_field StartupEnabled None) k
                                   (alter (set_field Mode None) k (heap w))) w)).
  { unfold read_all_parameters, get_mode, get_frequency, get_amplitude,
      get_startup_enabled, get_vin, get_vout, get_pot_range, get_r_g_trim,
      get_r_f_trim, get_wiper.
    cbv [mbind M_bind mret M_ret].
    destruct (get_assign_disconnected Mode 21 k w Hc) as [E1 [r1 R1]].
    destruct (get_assign Mode 21 k w) as [o1 w1]. cbn [fst snd] in E1, R1.
    subst o1 w1.
    set (w1 := with_heap _ w).
    assert (Hc1 : connected (mb w1) = false) by exact Hc.
    repeat match goal with
    | |- context [get_int ?p ?a k w1] =>
        let E := fresh in let r := fresh in let R := fresh in
        destruct (get_int_disconnected p a k w1 Hc1) as [E [r R]];
        destruct (get_int p a k w1) as [? ?]; cbn [fst snd] in E, R; subst
    | |- context [get_float ?p ?a k w1] =>
        let E := fresh in let r := fresh in let R := fresh in
        destruct (get_float_disconnected p a k w1 Hc1) as [E [r R]];
        destruct (get_float p a k w1) as [? ?]; cbn [fst snd] in E, R; subst
    end.
    destruct (get_assign_disconnected StartupEnabled 31 k w1 Hc1) as [E2 [r2 R2]].
    destruct (get_assign StartupEnabled 31 k w1) as [o2 w2]. cbn [fst snd] in E2, R2.
    subst o2 w2.
    set (w2 := with_heap _ w1).
    assert (Hc2 : connected (mb w2) = false) by exact Hc.
    repeat match goal with
    | |- context [get_int ?p ?a k w2] =>
        let E := fresh in let r := fresh in let R := fresh in
        destruct (get_int_disconnected p a k w2 Hc2) as [E [r R]];
        destruct (get_int p a k w2) as [? ?]; cbn [fst snd] in E, R; subst
    | |- context [get_float ?p ?a k w2] =>
        let E := fresh in let r := fresh in let R := fresh in
        destruct (get_float_disconnected p a k w2 Hc2) as [E [r R]];
        destruct (get_float p a k w2) as [? ?]; cbn [fst snd] in E, R; subst
    end.
    reflexivity. }
  subst w'. rewrite E. cbn [fst snd trace mb heap with_heap].
  assert (Ha : alter (set_field StartupEnabled None) k
                 (alter (set_field Mode None) k (heap w))
               = alter (fun h => set_field StartupEnabled None (set_field Mode None h))
                   k (heap w)).
  { apply list_alter_alter_eq. }
  rewrite Ha, (lookup_total_alter _ _ _ _ Hk).
  repeat split.
  intros q Hm Hs. destruct q; try reflexivity; congruence.
Qed.

Lemma read_all_parameters_disconnected_witness :
  let h := set_field Frequency (Some (VInt 1000))
             (set_field Mode (Some (VInt 1)) (fresh 3)) in
  let w := world (board false {[ 3 := 0%nat ]}) [h] [] in
  let w' := snd (read_all_parameters 0%nat w) in
  fst (read_all_parameters 0%nat w) = Ret tt /\
  trace w' = [] /\
  mode h = Some (VInt 1) /\
  mode (heap w' !!! 0%nat) = None /\
  frequency (heap w' !!! 0%nat) = Some (VInt 1000).
Proof.
  intros h w w'.
  destruct (read_all_parameters_disconnected w 0%nat h eq_refl eq_refl)
    as (H1 & H2 & _ & _ & H5 & _ & H7).
  split; [exact H1|]. split; [exact H2|]. split; [reflexivity|].
  split; [exact H5|]. exact (H7 Frequency ltac:(discriminate) ltac:(discriminate)).
Defined.

(** ** The widget's [set_parameters] *)

(** X13. With a text that is not a number in either field,
    [set_parameters] does nothing at all: both texts are read before the
    first setter is called, so a good frequency beside a bad amplitude is
    neither cached nor sent. *)
Theorem set_parameters_invalid_text (k : addr) (freq_text : option Z)
    (amp_text : option spec_float) (index : Z) (w : World) :
  freq_text = None \/ amp_text = None ->
  set_parameters k freq_text amp_text index w = (Ret tt, w).
Proof.
  intros [-> | ->]; unfold set_parameters, try_except_ValueError, parse;
    cbv [mbind M_bind mret M_ret raise]; [reflexivity|].
  destruct freq_text; reflexivity.
Qed.

Lemma set_parameters_invalid_text_witness :
  let w := world (board true ∅) [fresh 3] [] in
  set_parameters 0%nat (Some 1000) None 1 w = (Ret tt, w).
Proof.
  intros w.
  exact (set_parameters_invalid_text 0%nat (Some 1000) None 1 w (or_intror eq_refl)).
Defined.

(** X14. With two numbers, on a connected link whose device answers each
    setter with a line of text, [set_parameters] writes three frames, in
    the order frequency (2), amplitude (3), mode (1), and the three values
    are in the cache. The mode sent is the index of the combo box but for
    index 3, which is sent as 4, and for an index outside 0..3, sent as 0. *)
Theorem set_parameters_frames (k : addr) (h : NanoKicker) (w : World)
    (freq : Z) (amp : spec_float) (n index : Z) (l1 l2 l3 : list byte)
    (rest : list wire) :
  connected (mb w) = true ->
  heap w !! k = Some h ->
  0 <= device_id h < 20 ->
  0 <= freq < 4294967296 ->
  _float_to_int amp = Ret n ->
  incoming w = Delivers l1 :: Delivers l2 :: Delivers l3 :: rest ->
  decodes (port_io.first_line l1) = true ->
  decodes (port_io.first_line l2) = true ->
  decodes (port_io.first_line l3) = true ->
  exists w',
    set_parameters k (Some freq) (Some amp) index w = (Ret tt, w') /\
    writes (trace w') =
      writes (trace w)
      ++ [set_frame (device_id h) 2 freq; set_frame (device_id h) 3 n;
          set_frame (device_id h) 1 (mode_of_index index)] /\
    incoming w' = rest /\
    heap w' !! k =
      Some (set_field Mode (Some (VInt (mode_of_index index)))
              (set_field Amplitude (Some (VFloat amp))
                 (set_field Frequency (Some (VInt freq)) h))) /\
    (0 <= index <= 2 -> mode_of_index index = index) /\
    mode_of_index 3 = 4 /\
    (~ 0 <= index <= 3 -> mode_of_index index = 0).
Proof.
  intros Hc Hk Hd Hf Hn Hi H1 H2 H3.
  assert (Hm : 0 <= mode_of_index index < 4294967296).
  { unfold mode_of_index. destruct index as [|[[|[]|]|[|[]|]|]|]; lia. }
  assert (Hn1 : next w = Delivers l1) by (unfold next; rewrite Hi; reflexivity).
  pose proof (set_int_eq Frequency 2 k freq w h l1 Hc Hk ltac:(lia) ltac:(lia)
                Hf Hn1) as E1.
  rewrite (decodes_Ret _ tt H1) in E1.
  set (w1 := sent _ _) in E1.
  assert (Hk1 : heap w1 !! k = Some (set_field Frequency (Some (VInt freq)) h)).
  { subst w1. unfold sent. cbn [heap with_trace with_incoming with_heap].
    rewrite list_lookup_alter_eq, Hk. reflexivity. }
  assert (Hi1 : incoming w1 = Delivers l2 :: Delivers l3 :: rest)
    by (subst w1; unfold sent; cbn; rewrite Hi; reflexivity).
  assert (Hn2 : next w1 = Delivers l2) by (unfold next; rewrite Hi1; reflexivity).
  pose proof (set_float_run Amplitude 3 k amp w1 _ n l2 Hc Hk1 ltac:(simpl; lia)
                ltac:(lia) Hn2 Hn) as E2.
  rewrite (decodes_Ret _ tt H2) in E2.
  set (w2 := sent _ _) in E2.
  assert (Hk2 : heap w2 !! k = Some (set_field Amplitude (Some (VFloat amp))
                                       (set_field Frequency (Some (VInt freq)) h))).
  { subst w2. unfold sent. cbn [heap with_trace with_incoming with_heap].
    rewrite list_lookup_alter_eq, Hk1. reflexivity. }
  assert (Hi2 : incoming w2 = Delivers l3 :: rest)
    by (subst w2; unfold sent; cbn [incoming with_trace with_incoming with_heap];
        rewrite Hi1; reflexivity).
  assert (Hn3 : next w2 = Delivers l3) by (unfold next; rewrite Hi2; reflexivity).
  pose proof (set_int_eq Mode 1 k (mode_of_index index) w2 _ l3 Hc Hk2
                ltac:(simpl; lia) ltac:(lia) Hm Hn3) as E3.
  rewrite (decodes_Ret _ tt H3) in E3.
  set (w3 := sent _ _) in E3.
  exists w3. split.
  { unfold set_parameters, try_except_ValueError, parse, set_frequency,
      set_amplitude, set_mode.
    cbv [mbind M_bind mret M_ret]. cbv zeta. rewrite E1, E2, E3. reflexivity. }
  split.
  { subst w3 w2 w1. unfold sent, set_frame.
    cbn [trace with_trace with_incoming with_heap device_id set_field].
    rewrite !writes_app, <- !app_assoc. reflexivity. }
  split.
  { subst w3. unfold sent. cbn [incoming with_trace with_incoming with_heap].
    rewrite Hi2. reflexivity. }
  split.
  { subst w3. unfold sent. cbn [heap with_trace with_incoming with_heap].
    rewrite list_lookup_alter_eq, Hk2. reflexivity. }
  split; [|split; [reflexivity|]].
  - intros Hx. assert (index = 0 \/ index = 1 \/ index = 2) as [->|[->| ->]] by lia;
      reflexivity.
  - intros Hx. unfold mode_of_index. destruct index as [|[[|[]|]|[|[]|]|]|]; try reflexivity; lia.
Qed.

(** 1000 Hz, 2.5, triangle (index 3). *)
Lemma set_parameters_frames_witness :
  let amp := S754_finite false 5629499534213120 (-51) in
  let ok := [x6f; x6b; x0a] in
  let w := world (board true ∅) [fresh 3] [Delivers ok; Delivers ok; Delivers ok] in
  exists w',
    set_parameters 0%nat (Some 1000) (Some amp) 3 w = (Ret tt, w') /\
    writes (trace w') =
      [] ++ [[x03; x02; x00; x00; x03; xe8]; [x03; x03; x40; x20; x00; x00];
             [x03; x01; x00; x00; x00; x04]].
Proof.
  intros amp ok w.
  destruct (set_parameters_frames 0%nat (fresh 3) w 1000 amp 1075838976 3 ok ok ok []
              eq_refl eq_refl ltac:(simpl; lia) ltac:(lia) eq_refl eq_refl
              eq_refl eq_refl eq_refl) as (w' & E & Ht & _).
  exists w'. split; [exact E | exact Ht].
Defined.

(** X15. A reply to [set_frequency] that is not UTF-8 ends
    [set_parameters] quietly. The [UnicodeDecodeError] raised while the
    reply line is decoded is a [ValueError], so the handler for a text that
    is not a number catches it: the call returns normally after one frame,
    the amplitude and the mode are neither sent nor cached, and the link
    stays connected. *)
Theorem set_parameters_swallows_decode_error (k : addr) (h : NanoKicker)
    (w : World) (freq : Z) (amp : spec_float) (index : Z) (l1 : list byte)
    (rest : list wire) :
  connected (mb w) = true ->
  heap w !! k = Some h ->
  0 <= device_id h < 20 ->
  0 <= freq < 4294967296 ->
  incoming w = Delivers l1 :: rest ->
  decodes (port_io.first_line l1) = false ->
  exists w',
    set_parameters k (Some freq) (Some amp) index w = (Ret tt, w') /\
    fst (set_frequency k freq w) = Raise UnicodeDecodeError /\
    writes (trace w') = writes (trace w) ++ [set_frame (device_id h) 2 freq] /\
    incoming w' = rest /\
    connected (mb w') = true /\
    heap w' !! k = Some (set_field Frequency (Some (VInt freq)) h).
Proof.
  intros Hc Hk Hd Hf Hi H1.
  assert (Hn1 : next w = Delivers l1) by (unfold next; rewrite Hi; reflexivity).
  pose proof (set_int_eq Frequency 2 k freq w h l1 Hc Hk ltac:(lia) ltac:(lia)
                Hf Hn1) as E1.
  assert (Hd1 : decode_utf8 (port_io.first_line l1) = Raise UnicodeDecodeError).
  { revert H1. unfold decodes, decode_utf8.
    destruct (code_points _); [discriminate | reflexivity]. }
  rewrite Hd1 in E1. cbn [obind] in E1.
  set (w1 := sent _ _) in E1.
  exists w1. split.
  { unfold set_parameters, try_except_ValueError, parse, set_frequency.
    cbv [mbind M_bind mret M_ret]. cbv zeta. rewrite E1. reflexivity. }
  split; [unfold set_frequency; rewrite E1; reflexivity|].
  split.
  { subst w1. unfold sent, set_frame.
    cbn [trace with_trace with_incoming with_heap]. rewrite writes_app. reflexivity. }
  split; [subst w1; unfold sent; cbn; rewrite Hi; reflexivity|].
  split; [exact Hc|].
  subst w1. unfold sent. cbn [heap with_trace with_incoming with_heap].
  rewrite list_lookup_alter_eq, Hk. reflexivity.
Qed.

Lemma set_parameters_swallows_decode_error_witness :
  let amp := S754_finite false 5629499534213120 (-51) in
  let w := world (board true ∅) [fresh 3] [Delivers [xff; x0a]] in
  exists w',
    set_parameters 0%nat (Some 1000) (Some amp) 1 w = (Ret tt, w') /\
    writes (trace w') = [] ++ [[x03; x02; x00; x00; x03; xe8]] /\
    amplitude (heap w' !!! 0%nat) = None /\
    mode (heap w' !!! 0%nat) = None.
Proof.
  intros amp w.
  destruct (set_parameters_swallows_decode_error 0%nat (fresh 3) w 1000 amp 1
              [xff; x0a] [] eq_refl eq_refl ltac:(simpl; lia) ltac:(lia)
              eq_refl eq_refl) as (w' & E & _ & Ht & _ & _ & Hh).
  exists w'. split; [exact E|]. split; [exact Ht|].
  rewrite (list_lookup_total_correct _ _ _ Hh). split; reflexivity.
Defined.

(** X16. The two mode tables of the widget. Index to mode and back is the
    identity on the four entries of the combo box. Mode to index and back
    is the identity only for the modes 0, 1, 2 and 4: mode 3 read from a
    device is shown as index 2, and written back as mode 2. *)
Theorem mode_tables_round_trip :
  (forall index, 0 <= index <= 3 -> index_of_mode (mode_of_index index) = index) /\
  (forall mode, mode_of_index (index_of_mode mode) = mode <->
                mode = 0 \/ mode = 1 \/ mode = 2 \/ mode = 4) /\
  mode_of_index (index_of_mode 3) = 2.
Proof.
  split; [|split; [|reflexivity]].
  - intros i Hi.
    assert (i = 0 \/ i = 1 \/ i = 2 \/ i = 3) as [->|[->|[->| ->]]] by lia;
      reflexivity.
  - intros m. split.
    + unfold index_of_mode, mode_of_index.
      destruct m as [|[[|[]|]|[|[]|]|]|]; cbn; lia.
    + intros [->|[->|[->| ->]]]; reflexivity.
Qed.

(** ** The constructor *)

(** X17. [Motherboard(port, disconnect_callback)] never raises, whatever
    the ports of the machine and whether or not the port opens. A port
    given by the caller is used as it is, the ports of the machine are
    searched only without one (or with an empty name); the port is opened
    once if there is one and not at all otherwise; the registry starts
    empty; and the object is connected exactly when there is a port and it
    opened. *)
Theorem Motherboard_init_never_raises (ports : list ListPortInfo)
    (port_arg : option string) (callback : bool) (w : World) :
  let chosen := if truthy port_arg then port_arg else _find_pico_port ports in
  let w' := snd (Motherboard_init ports port_arg callback w) in
  fst (Motherboard_init ports port_arg callback w) = Ret tt /\
  port (mb w') = chosen /\
  nanokickers (mb w') = ∅ /\
  disconnect_callback (mb w') = callback /\
  connected (mb w') = truthy chosen && port_opens w /\
  trace w' = trace w ++ (if truthy chosen then [COpen] else []) /\
  heap w' = heap w /\ incoming w' = incoming w.
Proof.
  intros chosen w'. subst chosen w'.
  unfold Motherboard_init, connect, open_port, port_given, truthy.
  cbv [mbind M_bind mret M_ret get_mb put_mb with_mb with_port with_serial
       with_trace connected mb port serial nanokickers disconnect_callback
       negb port_opens trace heap incoming fst snd].
  destruct port_arg as [[|c s]|];
    cbv [mbind M_bind mret M_ret get_mb put_mb with_mb with_port with_serial
         with_trace connected mb port serial nanokickers disconnect_callback
         negb port_opens trace heap incoming fst snd].
  2: { destruct w as [m hp i [] t]; cbn; repeat split. }
  all: destruct (_find_pico_port ports) as [[|c s]|];
    cbv [mbind M_bind mret M_ret get_mb put_mb with_mb with_port with_serial
         with_trace connected mb port serial nanokickers disconnect_callback
         negb port_opens trace heap incoming fst snd];
    destruct w as [m hp i [] t]; cbn; rewrite ?app_nil_r; repeat split.
Qed.

(** ** A link lost under a handle *)

(** X18. A link lost during a guarded getter, by a call on the port that
    raises [serial.SerialException], is reported once. The getter returns
    the cached value; the port is closed once and the callback, if there is
    one, called once; and whatever the caller asks of whichever handle
    afterwards, no call at all is made on the port or on the callback. *)
Theorem link_loss_reported_once (p : param) (a : Z)
    (g : addr -> M (option value)) (w : World) (k : addr) (h : NanoKicker)
    (st : step) (ops : list (op * addr)) :
  (p, a, g) ∈ guarded_getters ->
  connected (mb w) = true ->
  heap w !! k = Some h ->
  0 <= device_id h < 20 ->
  next w = Fails st ->
  let w1 := snd (g k w) in
  let w2 := run_ops w1 ops in
  fst (g k w) = Ret (get_field p h) /\
  heap w1 = heap w /\
  connected (mb w1) = false /\
  trace w2 = trace w1 /\
  count is_close (trace w2) = (count is_close (trace w) + 1)%nat /\
  count is_callback (trace w2) =
    (count is_callback (trace w) + if disconnect_callback (mb w) then 1 else 0)%nat /\
  (length (writes (trace w2)) <= length (writes (trace w)) + 1)%nat.
Proof.
  intros Hin Hc Hk Hd Hn w1 w2.
  assert (Ha : 0 <= a <= 255).
  { repeat (apply elem_of_cons in Hin as [Hin|Hin]);
      try (apply elem_of_nil in Hin; contradiction);
      injection Hin as -> -> ->; lia. }
  pose proof (send_command_via_handle k a 0 true w h Hk) as Hs.
  assert (Hd' : 0 <= device_id h <= 255) by lia.
  rewrite (send_command_fails _ _ _ _ _ _ st Hc (pack_BBI_get _ _ Hd' Ha) Hn) in Hs.
  destruct (guarded_getter_cases p a g Hin k w h Hk) as (HN & _ & _).
  destruct (HN _ Hs) as [E Hh].
  assert (Hc1 : connected (mb w1) = false) by (subst w1; rewrite E; reflexivity).
  destruct (run_ops_disconnected ops w1 Hc1) as [hp E2].
  subst w2. rewrite E2. cbn [trace with_heap].
  subst w1. rewrite E. cbn [fst snd].
  split; [reflexivity|]. split; [exact Hh|]. split; [reflexivity|].
  split; [reflexivity|].
  unfold lost, sent. cbn [trace with_mb with_trace with_incoming].
  rewrite !count_app, writes_app, length_app.
  destruct st, (disconnect_callback (mb w)); cbn; repeat split; lia.
Qed.

Lemma link_loss_reported_once_witness :
  let h := set_field Frequency (Some (VInt 1000)) (fresh 3) in
  let w := world (board true {[ 3 := 0%nat ]}) [h] [Fails AtWrite] in
  let w1 := snd (get_frequency 0%nat w) in
  let w2 := run_ops w1 [(SetFrequency 500, 0%nat); (GetMode, 0%nat)] in
  fst (get_frequency 0%nat w) = Ret (Some (VInt 1000)) /\
  trace w2 = trace w1 /\
  count is_callback (trace w2) = 1%nat.
Proof.
  intros h w w1 w2.
  assert (Hin : (Frequency, 22, get_frequency) ∈ guarded_getters)
    by apply list_elem_of_here.
  destruct (link_loss_reported_once Frequency 22 get_frequency w 0%nat h AtWrite
              [(SetFrequency 500, 0%nat); (GetMode, 0%nat)] Hin eq_refl eq_refl
              ltac:(simpl; lia) eq_refl) as (H1 & _ & _ & H4 & _ & H6 & _).
  split; [exact H1|]. split; [exact H4 | exact H6].
Defined.

(** ** The calls of a scan *)

Lemma scan_loop_calls rest rs :
  forall s w,
    0 <= s -> s + Z.of_nat (length rs) <= 20 ->
    Forall (fun bs => benign bs = true) rs ->
    connected (mb w) = true ->
    incoming w = (Delivers <$> rs) ++ rest ->
    exists w' new,
      for_each (seqZ s (Z.of_nat (length rs))) probe w = (Ret tt, w') /\
      disconnect_callback (mb w') = disconnect_callback (mb w) /\
      heap w' = heap w ++ new /\
      Forall (fun h => s <= device_id h < s + Z.of_nat (length rs)) new /\
      trace w' = trace w ++ scan_calls (seqZ s (Z.of_nat (length rs))) /\
      (forall i a, nanokickers (mb w') !! i = Some a ->
         nanokickers (mb w) !! i = Some a \/
         ((length (heap w) <= a)%nat /\
          exists h, heap w' !! a = Some h /\ device_id h = i)).
Proof.
  induction rs as [|bs rs IH]; intros s w Hs Hle Hb Hc Hin.
  - exists w, []. cbn in Hin |- *.
    split; [reflexivity|]. split; [reflexivity|].
    split; [symmetry; apply app_nil_r|]. split; [constructor|].
    split; [symmetry; apply app_nil_r|]. intros i a H. left. exact H.
  - apply Forall_cons in Hb as [Hb Hbs]. cbn [length] in Hle |- *.
    assert (Hn : next w = Delivers bs) by (unfold next; rewrite Hin; reflexivity).
    pose proof (probe_step s w bs Hc ltac:(lia) Hn Hb) as E1.
    set (w1 := match present bs with
               | Some r => _ | None => _ end) in E1.
    assert (Hc1 : connected (mb w1) = true)
      by (subst w1; destruct (present bs); exact Hc).
    assert (Hi1 : incoming w1 = (Delivers <$> rs) ++ rest)
      by (subst w1; destruct (present bs); cbn; rewrite Hin; reflexivity).
    assert (Hd1 : disconnect_callback (mb w1) = disconnect_callback (mb w))
      by (subst w1; destruct (present bs); reflexivity).
    assert (Ht1 : trace w1 = trace w ++ probe_calls s)
      by (subst w1; destruct (present bs); reflexivity).
    assert (Hh1 : exists new, heap w1 = heap w ++ new /\
                   Forall (fun h => device_id h = s) new /\
                   forall i a, nanokickers (mb w1) !! i = Some a ->
                     nanokickers (mb w) !! i = Some a \/
                     (i = s /\ a = length (heap w) /\ (length new = 1)%nat)).
    { subst w1; destruct (present bs) as [r|].
      - exists [seeded s r]. split; [reflexivity|].
        split; [repeat constructor|].
        intros i a. cbn [nanokickers mb with_mb with_nanokickers].
        destruct (decide (i = s)) as [->|Hne].
        + rewrite lookup_insert_eq. intros [= <-]. right. repeat split.
        + rewrite lookup_insert_ne by congruence. intros H. left. exact H.
      - exists []. split; [symmetry; apply app_nil_r|]. split; [constructor|].
        intros i a H. left. exact H. }
    destruct Hh1 as (new1 & Hh1 & Hid1 & Hr1).
    destruct (IH (s + 1) w1 ltac:(lia) ltac:(lia) Hbs Hc1 Hi1)
      as (w' & new' & E & Hd' & Hh' & Hid' & Ht' & Hr').
    exists w', (new1 ++ new'). rewrite seqZ_step. cbn [for_each]. cbv [mbind M_bind].
    rewrite E1, E.
    split; [reflexivity|]. split; [rewrite Hd'; exact Hd1|].
    split; [rewrite Hh', Hh1, app_assoc; reflexivity|].
    split.
    { apply Forall_app. split.
      - eapply Forall_impl; [exact Hid1|]. cbv beta. intros h ->. lia.
      - eapply Forall_impl; [exact Hid'|]. cbv beta. intros h Hh. lia. }
    split.
    { rewrite Ht', Ht1. unfold scan_calls. cbn [fmap list_fmap concat].
      rewrite <- app_assoc. reflexivity. }
    intros i a Hia. destruct (Hr' i a Hia) as [H1 | (Hlen & h & Hh & Hdev)].
    + destruct (Hr1 i a H1) as [H0 | (-> & -> & Hl1)]; [left; exact H0|].
      right. split; [lia|].
      destruct new1 as [|h1 [|? ?]]; try discriminate.
      apply Forall_cons in Hid1 as [Hid1 _].
      exists h1. split; [|exact Hid1].
      rewrite Hh', Hh1. apply lookup_app_l_Some, list_lookup_middle. reflexivity.
    + right. split; [rewrite Hh1, length_app in Hlen; lia|].
      exists h. split; [exact Hh | exact Hdev].
Qed.

Lemma scan_run w rs rest :
  connected (mb w) = true ->
  length rs = 20%nat ->
  Forall (fun bs => benign bs = true) rs ->
  incoming w = (Delivers <$> rs) ++ rest ->
  exists w' new,
    scan_for_nanokickers w = (Ret (Some (nanokickers (mb w'))), w') /\
    heap w' = heap w ++ new /\
    Forall (fun h => 0 <= device_id h < 20) new /\
    trace w' = trace w ++ scan_calls (range 20) /\
    (forall i a, nanokickers (mb w') !! i = Some a ->
       (length (heap w) <= a)%nat /\
       exists h, heap w' !! a = Some h /\ device_id h = i).
Proof.
  intros Hc Hlen Hb Hin.
  set (w0 := with_mb (with_nanokickers ∅ (mb w)) w).
  destruct (scan_loop_calls rest rs 0 w0 ltac:(lia) ltac:(lia) Hb Hc Hin)
    as (w' & new & E & _ & Hh & Hid & Ht & Hr).
  rewrite Hlen in E, Hid, Ht. change (Z.of_nat 20) with 20 in E, Hid, Ht.
  exists w', new.
  unfold scan_for_nanokickers, MAX_DEVICES, range.
  cbv [mbind M_bind get_mb put_mb mret M_ret].
  rewrite Hc. cbn [negb]. fold w0. rewrite E.
  split; [reflexivity|]. split; [exact Hh|]. split; [exact Hid|].
  split; [exact Ht|].
  intros i a Hia. destruct (Hr i a Hia) as [H0 | H1]; [|exact H1].
  cbn in H0. rewrite lookup_empty in H0. discriminate.
Qed.

(** X19. A scan on a connected link whose twenty replies are each a value
    or text probes every slot once, in the order 0 to 19, whether or not
    the slot answers: for each slot it clears the input, writes the frame
    of slot and action 21, flushes, reads four bytes and then sleeps. So it
    writes twenty frames and sleeps twenty times, and makes no other call. *)
Theorem scan_probes_every_slot (w : World) (rs : list (list byte))
    (rest : list wire) :
  connected (mb w) = true ->
  length rs = 20%nat ->
  Forall (fun bs => benign bs = true) rs ->
  incoming w = (Delivers <$> rs) ++ rest ->
  let w' := snd (scan_for_nanokickers w) in
  trace w' = trace w ++ scan_calls (range 20) /\
  writes (trace w') = writes (trace w) ++ ((fun i => get_frame i 21) <$> range 20) /\
  count is_sleep (trace w') = (count is_sleep (trace w) + 20)%nat /\
  count is_close (trace w') = count is_close (trace w) /\
  count is_callback (trace w') = count is_callback (trace w).
Proof.
  intros Hc Hlen Hb Hin w'.
  destruct (scan_run w rs rest Hc Hlen Hb Hin) as (w1 & new & E & _ & _ & Ht & _).
  subst w'. rewrite E. cbn [snd]. rewrite Ht.
  split; [reflexivity|].
  rewrite writes_app, !count_app.
  split; [reflexivity|]. split; [reflexivity|].
  change (count is_close (scan_calls (range 20))) with 0%nat.
  change (count is_callback (scan_calls (range 20))) with 0%nat.
  split; lia.
Qed.

Lemma scan_probes_every_slot_witness :
  let rs := replicate 20 ([] : list byte) in
  let w := world (board true ∅) [] (Delivers <$> rs) in
  let w' := snd (scan_for_nanokickers w) in
  writes (trace w') = [] ++ ((fun i => get_frame i 21) <$> range 20) /\
  count is_sleep (trace w') = 20%nat.
Proof.
  intros rs w w'.
  assert (Hb : Forall (fun bs => benign bs = true) rs)
    by (apply Forall_forall; intros bs Hbs;
        apply elem_of_replicate in Hbs as [-> _]; reflexivity).
  destruct (scan_probes_every_slot w rs [] eq_refl eq_refl Hb
              ltac:(symmetry; apply app_nil_r)) as (_ & H2 & H3 & _).
  split; [exact H2 | exact H3].
Defined.

(** X20. A scan makes its handles anew. After a scan on a connected link
    (twenty replies, each a value or text), every handle in the registry is
    an object created by this scan, with the device id of its slot; the
    objects that existed before are all still there, unchanged, and none of
    them is in the registry any more. [mb[i]] gives the registry's handle,
    and [None] for a slot without one. *)
Theorem scan_makes_new_handles (w : World) (rs : list (list byte))
    (rest : list wire) :
  connected (mb w) = true ->
  length rs = 20%nat ->
  Forall (fun bs => benign bs = true) rs ->
  incoming w = (Delivers <$> rs) ++ rest ->
  exists w' reg new,
    scan_for_nanokickers w = (Ret (Some reg), w') /\
    heap w' = heap w ++ new /\
    (forall i a, reg !! i = Some a ->
       0 <= i < 20 /\ heap w !! a = None /\
       exists h, heap w' !! a = Some h /\ device_id h = i) /\
    (forall i j a, reg !! i = Some a -> reg !! j = Some a -> i = j) /\
    (forall i, __getitem__ i w' = (Ret (reg !! i), w')) /\
    (Forall (fun h => 0 <= device_id h < 20) (heap w) -> consistent w').
Proof.
  intros Hc Hlen Hb Hin.
  destruct (scan_run w rs rest Hc Hlen Hb Hin) as (w' & new & E & Hh & Hid & _ & Hr).
  exists w', (nanokickers (mb w')), new.
  split; [exact E|]. split; [exact Hh|].
  assert (Hrange : forall i a, nanokickers (mb w') !! i = Some a -> 0 <= i < 20).
  { intros i a Hia. destruct (Hr i a Hia) as (Hlen' & h & Hha & Hdev).
    rewrite Hh in Hha. rewrite lookup_app_r in Hha by exact Hlen'.
    apply list_elem_of_lookup_2 in Hha.
    rewrite Forall_forall in Hid. specialize (Hid h Hha). lia. }
  split.
  { intros i a Hia. split; [exact (Hrange i a Hia)|].
    destruct (Hr i a Hia) as (Hlen' & H).
    split; [apply lookup_ge_None_2; exact Hlen' | exact H]. }
  split.
  { intros i j a Hi Hj.
    destruct (Hr i a Hi) as (_ & h & Hh1 & <-).
    destruct (Hr j a Hj) as (_ & h' & Hh2 & <-). congruence. }
  split; [reflexivity|].
  intros Hold. split.
  - rewrite Hh. apply Forall_app. split; [exact Hold | exact Hid].
  - intros i a Hia. destruct (Hr i a Hia) as (_ & H). exact H.
Qed.

(** A second scan: the handle of slot 0 from the first one is at address 0,
    the registry now holds the one at address 1. *)
Lemma scan_makes_new_handles_witness :
  let v := [x00; x00; x00; x01] in
  let rs := v :: replicate 19 ([] : list byte) in
  let old := set_field Frequency (Some (VInt 1000)) (seeded 0 1) in
  let w := world (board true {[ 0 := 0%nat ]}) [old] (Delivers <$> rs) in
  exists w' reg new,
    scan_for_nanokickers w = (Ret (Some reg), w') /\
    heap w' = [old] ++ new /\
    (forall i a, reg !! i = Some a ->
       0 <= i < 20 /\ [old] !! a = None /\
       exists h, heap w' !! a = Some h /\ device_id h = i).
Proof.
  intros v rs old w.
  assert (Hb : Forall (fun bs => benign bs = true) rs).
  { apply Forall_cons. split; [reflexivity|].
    apply Forall_forall; intros bs Hbs.
    apply elem_of_replicate in Hbs as [-> _]; reflexivity. }
  destruct (scan_makes_new_handles w rs [] eq_refl eq_refl Hb
              ltac:(symmetry; apply app_nil_r))
    as (w' & reg & new & E & Hh & Hr & _).
  exists w', reg, new. split; [exact E|]. split; [exact Hh | exact Hr].
Defined.

(** ** A link lost during a scan *)

Lemma for_each_app {A} (l1 l2 : list A) (body : A -> M unit) w w1 :
  for_each l1 body w = (Ret tt, w1) ->
  for_each (l1 ++ l2) body w = for_each l2 body w1.
Proof.
  revert w. induction l1 as [|x l1 IH]; intros w E.
  - cbn in E. injection E as <-. reflexivity.
  - cbn [for_each app] in E |- *. cbv [mbind M_bind] in E |- *.
    destruct (body x w) as [[[]|e] w0]; [|discriminate].
    exact (IH w0 E).
Qed.

Lemma probe_disconnected i w :
  connected (mb w) = false ->
  probe i w = (Ret tt, with_trace (trace w ++ [CSleep]) w).
Proof.
  intros Hc. unfold probe. cbv [mbind M_bind].
  rewrite (send_command_not_connected _ _ _ _ _ Hc). reflexivity.
Qed.

Lemma probes_disconnected l :
  forall w, connected (mb w) = false ->
    for_each l probe w
    = (Ret tt, with_trace (trace w ++ replicate (length l) CSleep) w).
Proof.
  induction l as [|i l IH]; intros w Hc.
  - cbn. rewrite app_nil_r. destruct w; reflexivity.
  - cbn [for_each]. cbv [mbind M_bind]. rewrite (probe_disconnected i w Hc).
    rewrite IH by exact Hc.
    cbn [trace with_trace length replicate]. rewrite <- app_assoc. reflexivity.
Qed.

Lemma probe_fails i w st :
  connected (mb w) = true -> 0 <= i < 20 ->
  next w = Fails st ->
  probe i w =
  (Ret tt,
   let w1 := lost w (calls_until st true (get_frame i 21)) in
   with_trace (trace w1 ++ [CSleep]) w1).
Proof.
  intros Hc Hi Hn. unfold probe. cbv [mbind M_bind].
  assert (Hp : struct.pack_BBI i 21 0 = Ret (get_frame i 21))
    by (apply pack_BBI_get; lia).
  rewrite (send_command_fails i 21 0 true w _ st Hc Hp Hn). reflexivity.
Qed.

Lemma count_cons f c t :
  count f (c :: t) = ((if f c then 1 else 0) + count f t)%nat.
Proof.
  unfold count. rewrite filter_cons.
  destruct (f c); destruct (decide _) as [H|H]; try reflexivity.
  - exfalso. apply H. exact I.
  - exfalso. exact H.
Qed.

Lemma count_replicate_sleep f n :
  count f (replicate n CSleep) = if f CSleep then n else 0%nat.
Proof.
  unfold count. induction n as [|n IH]; cbn [replicate].
  - destruct (f CSleep); reflexivity.
  - rewrite filter_cons. destruct (decide (f CSleep)) as [H|H].
    + cbn [length]. rewrite IH. destruct (f CSleep); [reflexivity|].
      exfalso. exact H.
    + rewrite IH. destruct (f CSleep); [|reflexivity]. exfalso. apply H. exact I.
Qed.

Lemma count_scan_calls f s n :
  f CReset = false -> f CFlush = false -> f (CRead 4) = false ->
  (forall bs, f (CWrite bs) = false) ->
  count f (scan_calls (seqZ s (Z.of_nat n))) = if f CSleep then n else 0%nat.
Proof.
  intros H1 H2 H3 H4. revert s. induction n as [|n IH]; intros s.
  - cbn. destruct (f CSleep); reflexivity.
  - rewrite seqZ_step. unfold scan_calls in *. cbn [fmap list_fmap concat].
    rewrite count_app, IH. unfold count, probe_calls, exchange.
    cbn [app]. rewrite !filter_cons, filter_nil.
    rewrite H1, H2, H3, H4.
    destruct (f CSleep); cbn; reflexivity.
Qed.

(** X21. A link lost during a scan, by a call on the port that raises
    [serial.SerialException], does not stop the scan. When the call fails
    at the probe of slot [j], after [j] probes that ran to their end, the
    calls of that probe up to the failing one are followed by one [close()]
    and one call of the callback, if there is one; the loop goes on over
    the remaining slots, each of which makes no call on the port but still
    sleeps, so that the rest of the trace is [20 - j] sleeps and nothing
    else; and the scan returns normally, with a registry that holds the
    slots found before the loss and nothing from slot [j] on: the same
    result as for devices that are absent. *)
Theorem scan_link_loss (w : World) (rs : list (list byte)) (st : step)
    (rest : list wire) :
  connected (mb w) = true ->
  (length rs < 20)%nat ->
  Forall (fun bs => benign bs = true) rs ->
  incoming w = (Delivers <$> rs) ++ Fails st :: rest ->
  exists w' reg,
    scan_for_nanokickers w = (Ret (Some reg), w') /\
    nanokickers (mb w') = reg /\
    connected (mb w') = false /\
    incoming w' = rest /\
    trace w' =
      trace w ++ scan_calls (seqZ 0 (Z.of_nat (length rs)))
      ++ calls_until st true (get_frame (Z.of_nat (length rs)) 21)
      ++ [CClose] ++ (if disconnect_callback (mb w) then [CCallback] else [])
      ++ replicate (20 - length rs) CSleep /\
    count is_sleep (trace w') = (count is_sleep (trace w) + 20)%nat /\
    count is_close (trace w') = (count is_close (trace w) + 1)%nat /\
    count is_callback (trace w') =
      (count is_callback (trace w) + if disconnect_callback (mb w) then 1 else 0)%nat /\
    (length (writes (trace w')) <= length (writes (trace w)) + length rs + 1)%nat /\
    (forall i, Z.of_nat (length rs) <= i -> reg !! i = None) /\
    (forall j bs, rs !! j = Some bs ->
       match present bs with
       | Some r => exists a, reg !! Z.of_nat j = Some a /\
                             heap w' !! a = Some (seeded (Z.of_nat j) r)
       | None => reg !! Z.of_nat j = None
       end).
Proof.
  intros Hc Hlen Hb Hin.
  set (n := length rs) in *.
  set (w0 := with_mb (with_nanokickers ∅ (mb w)) w).
  destruct (scan_loop (Fails st :: rest) rs 0 w0 ltac:(lia) ltac:(lia) Hb Hc Hin)
    as (w1 & E & Hc1 & Hi1 & _ & _ & Hout & Hslots).
  destruct (scan_loop_calls (Fails st :: rest) rs 0 w0 ltac:(lia) ltac:(lia) Hb Hc Hin)
    as (w1' & new & E' & Hd1 & Hh1 & _ & Ht1 & _).
  rewrite E in E'. injection E' as <-. fold n in E, Ht1, Hout.
  assert (Hn1 : next w1 = Fails st) by (unfold next; rewrite Hi1; reflexivity).
  pose proof (probe_fails (Z.of_nat n) w1 st Hc1 ltac:(lia) Hn1) as E2.
  cbv zeta in E2.
  set (w2 := with_trace _ _) in E2.
  assert (Hc2 : connected (mb w2) = false) by reflexivity.
  set (m := (19 - n)%nat).
  pose proof (probes_disconnected (seqZ (Z.of_nat n + 1) (Z.of_nat m)) w2 Hc2) as E3.
  rewrite length_seqZ, Nat2Z.id in E3.
  set (w3 := with_trace _ w2) in E3.
  assert (Hsplit : seqZ 0 20 = seqZ 0 (Z.of_nat n)
                               ++ Z.of_nat n :: seqZ (Z.of_nat n + 1) (Z.of_nat m)).
  { replace 20 with (Z.of_nat n + Z.of_nat (S m)) by (subst m; lia).
    rewrite seqZ_app by lia. rewrite seqZ_step. reflexivity. }
  assert (Escan : scan_for_nanokickers w = (Ret (Some (nanokickers (mb w3))), w3)).
  { unfold scan_for_nanokickers, MAX_DEVICES, range.
    cbv [mbind M_bind get_mb put_mb mret M_ret].
    rewrite Hc. cbn [negb]. fold w0. rewrite Hsplit.
    rewrite (for_each_app _ _ _ _ _ E). cbn [for_each]. cbv [mbind M_bind].
    rewrite E2, E3. reflexivity. }
  exists w3, (nanokickers (mb w3)).
  split; [exact Escan|]. split; [reflexivity|]. split; [reflexivity|].
  split; [subst w3 w2; unfold lost, sent; cbn; rewrite Hi1; reflexivity|].
  assert (Htr : trace w3 = trace w ++ scan_calls (seqZ 0 (Z.of_nat n))
                  ++ calls_until st true (get_frame (Z.of_nat n) 21)
                  ++ [CClose] ++ (if disconnect_callback (mb w) then [CCallback] else [])
                  ++ replicate (S m) CSleep).
  { subst w3 w2. unfold lost, sent.
    cbn [trace with_trace with_mb with_incoming]. rewrite Ht1, Hd1.
    cbn [trace w0 with_mb mb disconnect_callback with_nanokickers].
    rewrite <- ?app_assoc. cbn [app replicate]. rewrite <- ?app_assoc. reflexivity. }
  assert (Hm : S m = (20 - n)%nat) by (subst m; lia). rewrite Hm in Htr.
  split; [exact Htr|].
  rewrite Htr.
  assert (Hreg : nanokickers (mb w3) = nanokickers (mb w1)) by reflexivity.
  assert (Hheap : heap w3 = heap w1) by reflexivity.
  rewrite !count_app, !writes_app, !length_app, !count_replicate_sleep.
  rewrite !count_scan_calls by (intros; reflexivity).
  cbn [is_sleep is_close is_callback].
  assert (Hw : length (writes (scan_calls (seqZ 0 (Z.of_nat n)))) = n).
  { clear. generalize 0. induction n as [|n IH]; intros s; [reflexivity|].
    rewrite seqZ_step. unfold scan_calls. cbn [fmap list_fmap concat].
    rewrite writes_app, length_app. fold (scan_calls (seqZ (s + 1) (Z.of_nat n))).
    rewrite IH. reflexivity. }
  rewrite Hw.
  generalize (get_frame (Z.of_nat n) 21). intros fr.
  assert (Hcalls :
    (count is_sleep (calls_until st true fr) = 0)%nat /\
    (count is_close (calls_until st true fr) = 0)%nat /\
    (count is_callback (calls_until st true fr) = 0)%nat /\
    (length (writes (calls_until st true fr)) <= 1)%nat).
  { destruct st; cbn [calls_until]; rewrite !count_cons; cbn; lia. }
  destruct Hcalls as (C1 & C2 & C3 & C4). rewrite C1, C2, C3.
  assert (Hrep : length (writes (replicate (20 - n) CSleep)) = 0%nat).
  { generalize (20 - n)%nat. intros x. induction x; [reflexivity | exact IHx]. }
  rewrite Hrep.
  change (count is_sleep [CClose]) with 0%nat.
  change (count is_close [CClose]) with 1%nat.
  change (count is_callback [CClose]) with 0%nat.
  change (length (writes [CClose])) with 0%nat.
  assert (Hcb :
    (count is_sleep (if disconnect_callback (mb w) then [CCallback] else []) = 0)%nat /\
    (count is_close (if disconnect_callback (mb w) then [CCallback] else []) = 0)%nat /\
    (count is_callback (if disconnect_callback (mb w) then [CCallback] else [])
     = if disconnect_callback (mb w) then 1 else 0)%nat /\
    (length (writes (if disconnect_callback (mb w) then [CCallback] else [])) = 0)%nat)
    by (destruct (disconnect_callback (mb w)); repeat split).
  destruct Hcb as (B1 & B2 & B3 & B4). rewrite B1, B2, B3, B4.
  repeat (split; [lia|]).
  split.
  { intros i Hi. rewrite Hreg, Hout by lia. apply lookup_empty. }
  intros j bs Hj. specialize (Hslots j bs Hj). rewrite Hreg, Hheap.
  replace (0 + Z.of_nat j) with (Z.of_nat j) in Hslots by lia.
  destruct (present bs); [exact Hslots|].
  rewrite Hslots. apply lookup_empty.
Qed.

(** Slot 0 answers with mode 1, the port fails at the write for slot 1. *)
Lemma scan_link_loss_witness :
  let w := world (board true ∅) [] [Delivers [x00; x00; x00; x01]; Fails AtWrite] in
  exists w' reg,
    scan_for_nanokickers w = (Ret (Some reg), w') /\
    connected (mb w') = false /\
    count is_sleep (trace w') = 20%nat /\
    count is_callback (trace w') = 1%nat /\
    (forall i, 1 <= i -> reg !! i = None).
Proof.
  intros w.
  assert (Hb : Forall (fun bs => benign bs = true) [[x00; x00; x00; x01]])
    by (repeat constructor).
  destruct (scan_link_loss w [[x00; x00; x00; x01]] AtWrite [] eq_refl
              ltac:(simpl; lia) Hb eq_refl)
    as (w' & reg & E & _ & Hc & _ & _ & Hs & _ & Hcb & _ & Hn & _).
  exists w', reg. split; [exact E|]. split; [exact Hc|]. split; [exact Hs|].
  split; [exact Hcb | exact Hn].
Defined.

(** ** Slots and device ids *)

Lemma keeps_ret {A} (a : A) : keeps_slots (mret a : M A).
Proof. intros w. split; reflexivity. Qed.

Lemma keeps_bind {A B} (c : M A) (f : A -> M B) :
  keeps_slots c -> (forall a, keeps_slots (f a)) -> keeps_slots (c ≫= f).
Proof.
  intros Hc Hf w. cbv [mbind M_bind].
  destruct (Hc w) as [H1 H2]. destruct (c w) as [[a|e] w1]; cbn [snd] in *.
  - destruct (Hf a w1) as [H3 H4]. split; congruence.
  - split; assumption.
Qed.

Lemma keeps_setattr k p v : keeps_slots (setattr k p v).
Proof.
  intros w. split; [|reflexivity]. cbn [setattr snd heap with_heap].
  rewrite (list_fmap_alter device_id (set_field p v) id).
  - apply list_alter_id. reflexivity.
  - apply Forall_forall. reflexivity.
Qed.

Lemma keeps_getattr k p : keeps_slots (getattr k p).
Proof. intros w. split; reflexivity. Qed.

Lemma keeps_lift {A} (o : outcome A) : keeps_slots (lift o).
Proof. intros w. split; reflexivity. Qed.

Lemma keeps_send_command k a v rr : keeps_slots (_send_command k a v rr).
Proof.
  intros w. destruct (send_command_handle_keeps k a v rr w) as [H1 H2].
  split; congruence.
Qed.

Lemma keeps_get_assign p a k : keeps_slots (get_assign p a k).
Proof.
  unfold get_assign. apply keeps_bind; [apply keeps_send_command|].
  intros r. apply keeps_bind; [apply keeps_setattr|].
  intros _. apply keeps_getattr.
Qed.

Lemma keeps_get_int p a k : keeps_slots (get_int p a k).
Proof.
  unfold get_int. apply keeps_bind; [apply keeps_send_command|].
  intros [r|]; (apply keeps_bind; [|intros _; apply keeps_getattr]).
  - apply keeps_setattr.
  - apply keeps_ret.
Qed.

Lemma keeps_get_float p a k : keeps_slots (get_float p a k).
Proof.
  unfold get_float. apply keeps_bind; [apply keeps_send_command|].
  intros [r|]; (apply keeps_bind; [|intros _; apply keeps_getattr]).
  - apply keeps_bind; [apply keeps_lift|]. intros x. apply keeps_setattr.
  - apply keeps_ret.
Qed.

Lemma keeps_set_int p a k v : keeps_slots (set_int p a k v).
Proof.
  unfold set_int. apply keeps_bind; [apply keeps_setattr|].
  intros _. apply keeps_bind; [apply keeps_send_command|].
  intros _. apply keeps_ret.
Qed.

Lemma keeps_set_float p a k x : keeps_slots (set_float p a k x).
Proof.
  unfold set_float. apply keeps_bind; [apply keeps_setattr|].
  intros _. apply keeps_bind; [apply keeps_lift|].
  intros v. apply keeps_bind; [apply keeps_send_command|].
  intros _. apply keeps_ret.
Qed.

Lemma keeps_set_startup_enabled k b : keeps_slots (set_startup_enabled k b).
Proof.
  unfold set_startup_enabled. apply keeps_bind; [apply keeps_setattr|].
  intros _. apply keeps_bind; [apply keeps_send_command|].
  intros _. apply keeps_ret.
Qed.

Lemma keeps_settings a k : keeps_slots (_send_command k a 0 false ;; mret tt).
Proof.
  apply keeps_bind; [apply keeps_send_command|]. intros _. apply keeps_ret.
Qed.

Lemma keeps_then {A B} (c : M A) (d : M B) :
  keeps_slots c -> keeps_slots d -> keeps_slots (c ;; d).
Proof. intros Hc Hd. apply keeps_bind; [exact Hc | intros _; exact Hd]. Qed.

Lemma keeps_read_all_parameters k : keeps_slots (read_all_parameters k).
Proof.
  unfold read_all_parameters.
  apply keeps_then; [apply keeps_get_assign|].
  apply keeps_then; [apply keeps_get_int|].
  apply keeps_then; [apply keeps_get_float|].
  apply keeps_then; [apply keeps_get_assign|].
  apply keeps_then; [apply keeps_get_float|].
  apply keeps_then; [apply keeps_get_float|].
  apply keeps_then; [apply keeps_get_float|].
  apply keeps_then; [apply keeps_get_float|].
  apply keeps_then; [apply keeps_get_float|].
  apply keeps_then; [apply keeps_get_int|].
  apply keeps_ret.
Qed.

Lemma keeps_returning_None (c : M unit) :
  keeps_slots c -> keeps_slots (returning_None c).
Proof. intros Hc. apply keeps_then; [exact Hc | apply keeps_ret]. Qed.

Lemma keeps_call_op o k : keeps_slots (call_op o k).
Proof.
  destruct o; cbn [call_op].
  - apply keeps_returning_None, keeps_set_int.
  - apply keeps_returning_None, keeps_set_int.
  - apply keeps_returning_None, keeps_set_float.
  - apply keeps_returning_None, keeps_set_int.
  - apply keeps_returning_None, keeps_set_startup_enabled.
  - apply keeps_returning_None, keeps_set_float.
  - apply keeps_returning_None, keeps_set_float.
  - apply keeps_returning_None, keeps_set_float.
  - apply keeps_returning_None, keeps_set_float.
  - apply keeps_returning_None, keeps_set_float.
  - apply keeps_returning_None, keeps_settings.
  - apply keeps_returning_None, keeps_settings.
  - apply keeps_get_assign.
  - apply keeps_get_int.
  - apply keeps_get_float.
  - apply keeps_get_int.
  - apply keeps_get_assign.
  - apply keeps_get_float.
  - apply keeps_get_float.
  - apply keeps_get_float.
  - apply keeps_get_float.
  - apply keeps_get_float.
  - apply keeps_returning_None, keeps_read_all_parameters.
Qed.

Lemma consistent_ids w w' :
  device_id <$> heap w' = device_id <$> heap w ->
  nanokickers (mb w') = nanokickers (mb w) ->
  consistent w -> consistent w'.
Proof.
  intros Hh Hr [Hall Hreg]. split.
  - apply (Forall_fmap device_id (fun i => 0 <= i < 20)).
    rewrite Hh. apply Forall_fmap. exact Hall.
  - intros i a Hia. rewrite Hr in Hia. destruct (Hreg i a Hia) as (h & Hh1 & Hd).
    assert (Hl : (device_id <$> heap w') !! a = Some i)
      by (rewrite Hh, list_lookup_fmap, Hh1; cbn; congruence).
    rewrite list_lookup_fmap in Hl.
    destruct (heap w' !! a) as [h'|]; [|discriminate].
    exists h'. split; [reflexivity|]. cbn in Hl. congruence.
Qed.

(** X22. No method of a handle changes a device id or the registry.
    Whatever is called on whichever handles, in any order and on any link
    (connected, lost on the way, replies of any content, calls that raise),
    the handles keep their device ids and the registry its entries; so a
    registry in which slot [i] holds a handle of device [i], with every id
    in 0..19, stays one. *)
Theorem handles_keep_their_slot (w : World) (ops : list (op * addr)) :
  let w' := run_ops w ops in
  device_id <$> heap w' = device_id <$> heap w /\
  nanokickers (mb w') = nanokickers (mb w) /\
  (consistent w -> consistent w').
Proof.
  cbv zeta.
  assert (H : device_id <$> heap (run_ops w ops) = device_id <$> heap w /\
              nanokickers (mb (run_ops w ops)) = nanokickers (mb w)).
  { revert w. induction ops as [|[o k] ops IH]; intros w; [split; reflexivity|].
    cbn [run_ops fold_left]. fold (run_ops (snd (call_op o k w)) ops).
    destruct (IH (snd (call_op o k w))) as [H1 H2].
    destruct (keeps_call_op o k w) as [H3 H4]. split; congruence. }
  destruct H as [H1 H2]. split; [exact H1|]. split; [exact H2|].
  apply consistent_ids; assumption.
Qed.

(** A write, and a read answered with a byte that is not text. *)
Lemma handles_keep_their_slot_witness :
  let w := world (board true {[ 3 := 0%nat ]}) [fresh 3]
             [Delivers [x6f; x6b; x0a]; Delivers [xff]] in
  let w' := run_ops w [(SetFrequency 1000, 0%nat); (GetMode, 0%nat)] in
  consistent w /\ consistent w' /\
  nanokickers (mb w') = {[ 3 := 0%nat ]}.
Proof.
  intros w w'.
  assert (Hw : consistent w).
  { split; [repeat constructor; simpl; lia|].
    intros i a Hia.
    change (nanokickers (mb w)) with ({[ 3 := 0%nat ]} : gmap Z nat) in Hia.
    apply lookup_singleton_Some in Hia as [<- <-].
    exists (fresh 3). split; reflexivity. }
  destruct (handles_keep_their_slot w
              [(SetFrequency 1000, 0%nat); (GetMode, 0%nat)]) as (_ & H2 & H3).
  split; [exact Hw|]. split; [exact (H3 Hw) | exact H2].
Defined.

(** ** From bits to a float and back *)

Lemma digits2_pos_24 p :
  8388608 <= Z.pos p < 16777216 -> Z.pos (digits2_pos p) = 24.
Proof.
  intros Hp. pose proof (digits2_pos_bounds p) as [Hlo Hhi].
  set (d := Z.pos (digits2_pos p)) in *.
  assert (Hd : 0 < d) by (subst d; lia).
  destruct (Z.lt_trichotomy d 24) as [Hlt | [Heq | Hgt]]; [|exact Heq|].
  - assert (2 ^ d <= 2 ^ 23) by (apply Z.pow_le_mono_r; lia).
    change (2 ^ 23) with 8388608 in *. lia.
  - assert (2 ^ 24 <= 2 ^ (d - 1)) by (apply Z.pow_le_mono_r; lia).
    change (2 ^ 24) with 16777216 in *. lia.
Qed.

Lemma digits2_pos_le_23 p :
  Z.pos p < 8388608 -> Z.pos (digits2_pos p) <= 23.
Proof.
  intros Hp. pose proof (digits2_pos_bounds p) as [Hlo Hhi].
  set (d := Z.pos (digits2_pos p)) in *.
  destruct (Z.le_gt_cases d 23) as [Hle | Hgt]; [exact Hle|].
  assert (2 ^ 23 <= 2 ^ (d - 1)) by (apply Z.pow_le_mono_r; lia).
  change (2 ^ 23) with 8388608 in *. lia.
Qed.

Lemma bits_split v :
  0 <= v < 4294967296 ->
  v = struct.sign_bit (2147483648 <=? v) + (v / 8388608) mod 256 * 8388608
      + v mod 8388608.
Proof.
  intros Hv. unfold struct.sign_bit.
  pose proof (Z.div_mod v 8388608 ltac:(lia)) as H1.
  pose proof (Z.div_mod (v / 8388608) 256 ltac:(lia)) as H2.
  pose proof (Z.mod_pos_bound v 8388608 ltac:(lia)) as H5.
  destruct (Z.leb_spec 2147483648 v) as [Hs|Hs].
  - assert (256 <= v / 8388608) by (apply Z.div_le_lower_bound; lia).
    assert (v / 8388608 < 512) by (apply Z.div_lt_upper_bound; lia).
    assert (1 <= v / 8388608 / 256) by (apply Z.div_le_lower_bound; lia).
    assert (v / 8388608 / 256 < 2) by (apply Z.div_lt_upper_bound; lia).
    lia.
  - assert (0 <= v / 8388608) by (apply Z.div_pos; lia).
    assert (v / 8388608 < 256) by (apply Z.div_lt_upper_bound; lia).
    assert (v / 8388608 / 256 = 0) by (apply Z.div_small; lia).
    lia.
Qed.

Lemma binary32_of_bits_valid v :
  0 <= v < 4294967296 -> is_nan_pattern v = false ->
  valid_binary 24 128 (struct.binary32_of_bits v) = true /\
  struct.bits_of_binary32 (struct.binary32_of_bits v) = v.
Proof.
  intros Hv Hnan. pose proof (bits_split v Hv) as Hsplit.
  unfold is_nan_pattern in Hnan. unfold struct.binary32_of_bits.
  set (ex := (v / 8388608) mod 256) in *.
  set (mant := v mod 8388608) in *.
  set (s := 2147483648 <=? v) in *.
  assert (Hex : 0 <= ex < 256) by (subst ex; apply Z.mod_pos_bound; lia).
  assert (Hmant : 0 <= mant < 8388608) by (subst mant; apply Z.mod_pos_bound; lia).
  clearbody ex mant s.
  destruct (Z.eqb_spec ex 0) as [E0|E0].
  - destruct mant as [|p|p]; [| |lia].
    + split; [reflexivity|]. cbn [struct.bits_of_binary32]. lia.
    + pose proof (digits2_pos_le_23 p ltac:(lia)) as Hd. split.
      * cbn [valid_binary]. unfold bounded, canonical_mantissa, fexp, emin.
        apply andb_true_iff. split; [apply Z.eqb_eq; lia | reflexivity].
      * cbn [struct.bits_of_binary32].
        destruct (Z.ltb_spec (Z.pos p) 8388608); lia.
  - destruct (Z.eqb_spec ex 255) as [E1|E1].
    + cbn [andb] in Hnan. apply negb_false_iff in Hnan. rewrite Hnan.
      apply Z.eqb_eq in Hnan.
      split; [reflexivity|]. cbn [struct.bits_of_binary32]. lia.
    + destruct (mant + 8388608) as [|p|p] eqn:Ep; [lia| |lia].
      pose proof (digits2_pos_24 p ltac:(lia)) as Hd. split.
      * cbn [valid_binary]. unfold bounded, canonical_mantissa, fexp, emin.
        apply andb_true_iff. split; [apply Z.eqb_eq; lia | apply Z.leb_le; lia].
      * cbn [struct.bits_of_binary32].
        destruct (Z.ltb_spec (Z.pos p) 8388608); lia.
Qed.

(** X23. From bits to a float and back. Every 32-bit pattern that is not
    a NaN, the two infinities and the subnormals included, survives
    [_int_to_float] followed by [_float_to_int], and neither raises: the
    float a getter caches, given to the setter, sends the bits that were
    read. A value outside 32 bits makes [_int_to_float] raise
    [struct.error]. *)
Theorem int_float_int (v : Z) :
  0 <= v < 4294967296 ->
  is_nan_pattern v = false ->
  let x := struct.float_of_binary32 (struct.binary32_of_bits v) in
  _int_to_float v = Ret x /\
  valid_binary 53 1024 x = true /\
  _float_to_int x = Ret v /\
  (forall u, ~ 0 <= u < 4294967296 -> _int_to_float u = Raise StructError).
Proof.
  intros Hv Hnan x.
  destruct (binary32_of_bits_valid v Hv Hnan) as [Hval Hbits].
  split; [apply int_to_float_eq, Hv|].
  split; [apply float_of_binary32_valid, Hval|].
  split.
  - subst x. destruct (struct.is_infinity (struct.binary32_of_bits v)) eqn:Hinf.
    + destruct (struct.binary32_of_bits v) as [| s | |] eqn:Ef; try discriminate.
      cbn [struct.float_of_binary32]. unfold _float_to_int, struct.pack_f_le.
      cbn [struct.binary32_of_float struct.is_infinity andb negb obind].
      rewrite Hbits. apply unpack_le32, Hv.
    + rewrite (float_to_int_of_binary32 _ Hval Hinf), Hbits. reflexivity.
  - intros u Hu. unfold _int_to_float, struct.pack_I_le, struct.in_range.
    destruct (Z.leb_spec 0 u), (Z.leb_spec u 4294967295); cbn; try reflexivity. lia.
Qed.

(** The largest subnormal, [0x007fffff]. *)
Lemma int_float_int_witness :
  let x := struct.float_of_binary32 (struct.binary32_of_bits 8388607) in
  _int_to_float 8388607 = Ret x /\
  valid_binary 53 1024 x = true /\
  _float_to_int x = Ret 8388607.
Proof.
  intros x.
  destruct (int_float_int 8388607 ltac:(lia) eq_refl) as (H1 & H2 & H3 & _).
  split; [exact H1|]. split; [exact H2 | exact H3].
Defined.

(** ** The startup flag *)

Lemma set_startup_enabled_eq k b w h bs :
  connected (mb w) = true -> heap w !! k = Some h ->
  0 <= device_id h <= 255 ->
  next w = Delivers bs ->
  set_startup_enabled k b w =
  (obind (decode_utf8 (port_io.first_line bs)) (fun _ => Ret tt),
   sent (with_heap (alter (set_field StartupEnabled (Some (VBool b))) k (heap w)) w)
     [CReset; CWrite (set_frame (device_id h) 11 (if b then 1 else 0));
      CFlush; CReadline]).
Proof.
  intros Hc Hk Hd Hn.
  set (w1 := with_heap (alter (set_field StartupEnabled (Some (VBool b))) k (heap w)) w).
  assert (Hk1 : heap w1 !! k = Some (set_field StartupEnabled (Some (VBool b)) h)).
  { subst w1. cbn [heap with_heap]. rewrite list_lookup_alter_eq, Hk. reflexivity. }
  pose proof (send_command_via_handle k 11 (if b then 1 else 0) false w1 _ Hk1) as Hs.
  rewrite device_id_set_field in Hs.
  assert (Hv : 0 <= (if b then 1 else 0) < 4294967296) by (destruct b; lia).
  assert (Ha : 0 <= 11 <= 255) by lia.
  rewrite (send_command_write (device_id h) 11 _ w1 _ bs Hc
             (pack_BBI_ok _ _ _ Hd Ha Hv) Hn) in Hs.
  unfold set_startup_enabled, setattr. cbv [mbind M_bind mret M_ret]. fold w1.
  rewrite Hs. destruct (decode_utf8 _); reflexivity.
Qed.

(** X24. [set_startup_enabled] sends the flag as the integer 1 or 0, with
    action 11, and caches the bool. [get_startup_enabled], answered with
    that integer, caches and returns the integer: after a read the cached
    flag is 1 or 0, no longer [True] or [False]. *)
Theorem startup_flag_frame (w : World) (k : addr) (h : NanoKicker) (b : bool)
    (line : list byte) (rest : list wire) :
  connected (mb w) = true ->
  heap w !! k = Some h ->
  0 <= device_id h < 20 ->
  decodes (port_io.first_line line) = true ->
  let v := if b then 1 else 0 in
  incoming w = Delivers line :: Delivers (struct.be32 v) :: rest ->
  exists w1 w2,
    set_startup_enabled k b w = (Ret tt, w1) /\
    writes (trace w1) = writes (trace w) ++ [set_frame (device_id h) 11 v] /\
    get_field StartupEnabled (heap w1 !!! k) = Some (VBool b) /\
    get_startup_enabled k w1 = (Ret (Some (VInt v)), w2) /\
    writes (trace w2) = writes (trace w1) ++ [get_frame (device_id h) 31] /\
    get_field StartupEnabled (heap w2 !!! k) = Some (VInt v).
Proof.
  intros Hc Hk Hd Hl v Hi.
  assert (Hv : 0 <= v < 4294967296) by (subst v; destruct b; lia).
  assert (Hn : next w = Delivers line) by (unfold next; rewrite Hi; reflexivity).
  assert (Hd' : 0 <= device_id h <= 255) by lia.
  pose proof (set_startup_enabled_eq k b w h line Hc Hk Hd' Hn) as E1.
  rewrite (decodes_Ret _ tt Hl) in E1. fold v in E1.
  set (w1 := sent _ _) in E1.
  assert (Hk1 : heap w1 !! k = Some (set_field StartupEnabled (Some (VBool b)) h)).
  { subst w1. unfold sent. cbn [heap with_trace with_incoming with_heap].
    rewrite list_lookup_alter_eq, Hk. reflexivity. }
  assert (Hn1 : next w1 = Delivers (struct.be32 v))
    by (subst w1; unfold next, sent; cbn; rewrite Hi; reflexivity).
  assert (Ha : 0 <= 31 <= 255) by lia.
  destruct (getter_step Assigned StartupEnabled 31 k w1 _ (struct.be32 v) Hc Hk1
              Hd' Ha Hn1 (benign_be32 v)) as (w2 & E2 & _ & _ & Ht2 & Hk2).
  rewrite (response_value_be32 v Hv) in E2, Hk2.
  rewrite get_field_cached_Some in E2.
  exists w1, w2. split; [exact E1|].
  split; [subst w1; unfold sent; cbn [trace with_trace with_incoming with_heap];
          rewrite writes_app; reflexivity|].
  split; [rewrite (list_lookup_total_correct _ _ _ Hk1); apply get_set_field_eq|].
  split; [exact E2|].
  split; [rewrite Ht2, writes_app; reflexivity|].
  rewrite (list_lookup_total_correct _ _ _ Hk2). apply get_field_cached_Some.
Qed.

Lemma startup_flag_frame_witness :
  let w := world (board true ∅) [fresh 3]
             [Delivers [x6f; x6b; x0a]; Delivers [x00; x00; x00; x01]] in
  exists w1 w2,
    set_startup_enabled 0%nat true w = (Ret tt, w1) /\
    writes (trace w1) = [] ++ [[x03; x0b; x00; x00; x00; x01]] /\
    startup_enabled (heap w1 !!! 0%nat) = Some (VBool true) /\
    get_startup_enabled 0%nat w1 = (Ret (Some (VInt 1)), w2) /\
    writes (trace w2) = writes (trace w1) ++ [[x03; x1f; x00; x00; x00; x00]] /\
    startup_enabled (heap w2 !!! 0%nat) = Some (VInt 1).
Proof.
  intros w.
  exact (startup_flag_frame w 0%nat (fresh 3) true [x6f; x6b; x0a] [] eq_refl
           eq_refl ltac:(simpl; lia) eq_refl eq_refl).
Defined.

(** ** The widget's [set_advanced_parameters] *)

(** X25. [set_advanced_parameters] converts and sends field by field, so a
    text that is not a number stops it half way: with a number for vin and
    a text that is not one for vout, the vin frame is written and vin is
    cached before the conversion of vout raises; the call then returns
    normally, and the fields after vout are neither converted nor sent,
    whatever they hold. *)
Theorem set_advanced_parameters_stops_half_way (k : addr) (h : NanoKicker)
    (w : World) (x : spec_float) (n : Z)
    (pot_range_text rg_trim_text rf_trim_text : option (option spec_float))
    (wiper_text : option (option Z)) (l1 : list byte) (rest : list wire) :
  connected (mb w) = true ->
  heap w !! k = Some h ->
  0 <= device_id h < 20 ->
  _float_to_int x = Ret n ->
  incoming w = Delivers l1 :: rest ->
  decodes (port_io.first_line l1) = true ->
  exists w',
    set_advanced_parameters k (Some (Some x)) (Some None) pot_range_text
      rg_trim_text rf_trim_text wiper_text w = (Ret tt, w') /\
    writes (trace w') = writes (trace w) ++ [set_frame (device_id h) 12 n] /\
    incoming w' = rest /\
    heap w' !! k = Some (set_field Vin (Some (VFloat x)) h).
Proof.
  intros Hc Hk Hd Hn Hi H1.
  assert (Hn1 : next w = Delivers l1) by (unfold next; rewrite Hi; reflexivity).
  assert (Hd' : 0 <= device_id h <= 255) by lia.
  assert (Ha : 0 <= 12 <= 255) by lia.
  pose proof (set_float_run Vin 12 k x w h n l1 Hc Hk Hd' Ha Hn1 Hn) as E1.
  rewrite (decodes_Ret _ tt H1) in E1.
  set (w1 := sent _ _) in E1.
  exists w1. split.
  { unfold set_advanced_parameters, try_except_ValueError, if_text, parse, set_vin.
    cbv [mbind M_bind mret M_ret raise]. rewrite E1. reflexivity. }
  split.
  { subst w1. unfold sent, set_frame.
    cbn [trace with_trace with_incoming with_heap]. rewrite writes_app. reflexivity. }
  split; [subst w1; unfold sent; cbn; rewrite Hi; reflexivity|].
  subst w1. unfold sent. cbn [heap with_trace with_incoming with_heap].
  rewrite list_lookup_alter_eq, Hk. reflexivity.
Qed.

(** vin 2.5, vout not a number, a wiper of 7 that is never sent. *)
Lemma set_advanced_parameters_stops_half_way_witness :
  let x := S754_finite false 5629499534213120 (-51) in
  let w := world (board true ∅) [fresh 3] [Delivers [x6f; x6b; x0a]] in
  exists w',
    set_advanced_parameters 0%nat (Some (Some x)) (Some None) None None None
      (Some (Some 7)) w = (Ret tt, w') /\
    writes (trace w') = [] ++ [[x03; x0c; x40; x20; x00; x00]] /\
    incoming w' = [] /\
    heap w' !! 0%nat = Some (set_field Vin (Some (VFloat x)) (fresh 3)).
Proof.
  intros x w.
  exact (set_advanced_parameters_stops_half_way 0%nat (fresh 3) w x 1075838976
           None None None (Some (Some 7)) [x6f; x6b; x0a] [] eq_refl eq_refl
           ltac:(simpl; lia) eq_refl eq_refl eq_refl).
Defined.

(** ** Reading all parameters, a reply that is not text *)

Lemma getter_raises c p a k w h bs :
  connected (mb w) = true -> heap w !! k = Some h ->
  0 <= device_id h <= 255 -> 0 <= a <= 255 ->
  next w = Delivers bs -> benign bs = false ->
  getter c p a k w
  = (Raise UnicodeDecodeError, sent w (exchange (device_id h) a)).
Proof.
  intros Hc Hk Hd Ha Hn Hb.
  pose proof (send_command_via_handle k a 0 true w h Hk) as Hs.
  rewrite (send_command_read _ _ _ _ _ bs Hc (pack_BBI_get _ _ Hd Ha) Hn) in Hs.
  unfold reply in Hs. rewrite Hb in Hs.
  destruct c; cbn [getter];
    [rewrite get_assign_eq | rewrite get_int_eq | rewrite get_float_eq];
    rewrite Hs; reflexivity.
Qed.

Lemma device_id_cached_all (l : list (kind * param * Z * list byte)) h :
  device_id (fold_left (fun h '(c, p, a, bs) => cached c p (response_value bs) h) l h)
  = device_id h.
Proof.
  revert h. induction l as [|[[[c p] a] bs] l IH]; intros h; [reflexivity|].
  cbn [fold_left]. rewrite IH. apply device_id_cached.
Qed.

(** X26. [read_all_parameters] stops at the first reply that is short and
    not UTF-8. On a connected link whose port does not fail, when the
    first [j] replies are each a value or text and the next one is neither,
    the getter of that reply raises [UnicodeDecodeError] and
    [read_all_parameters] raises it in turn: [j + 1] frames were written,
    in the order of the ten getters, and the getters after it are not
    called. *)
Theorem read_all_parameters_stops_at_undecodable_reply (w : World) (k : addr)
    (h : NanoKicker) (rs : list (list byte)) (bad : list byte)
    (rest : list wire) :
  connected (mb w) = true ->
  heap w !! k = Some h ->
  0 <= device_id h < 20 ->
  (length rs < 10)%nat ->
  Forall (fun bs => benign bs = true) rs ->
  benign bad = false ->
  incoming w = (Delivers <$> rs) ++ Delivers bad :: rest ->
  exists w',
    read_all_parameters k w = (Raise UnicodeDecodeError, w') /\
    writes (trace w') =
      writes (trace w)
      ++ (get_frame (device_id h)
            <$> take (S (length rs)) [21; 22; 23; 31; 32; 33; 34; 35; 36; 24]) /\
    incoming w' = rest /\
    connected (mb w') = true.
Proof.
  intros Hc Hk Hd Hlen Hb Hbad Hin.
  set (j := length rs) in *.
  assert (Hsplit : exists c p a, read_order !! j = Some (c, p, a) /\
            read_order = take j read_order ++ (c, p, a) :: drop (S j) read_order).
  { destruct (read_order !! j) as [[[c p] a]|] eqn:E.
    - exists c, p, a. split; [reflexivity|].
      symmetry. apply take_drop_middle, E.
    - apply lookup_ge_None in E. cbn in E. lia. }
  destruct Hsplit as (c & p & a & Ej & Hsplit).
  assert (Hall : Forall (fun '(c, p, a) => 0 <= a <= 255) read_order)
    by (repeat constructor; lia).
  assert (Ha : 0 <= a <= 255).
  { rewrite Forall_forall in Hall.
    exact (Hall (c, p, a) (list_elem_of_lookup_2 _ _ _ Ej)). }
  assert (Hd' : 0 <= device_id h <= 255) by lia.
  destruct (read_each_run k (Delivers bad :: rest) (take j read_order) rs w h)
    as (w1 & E1 & Hm1 & Hi1 & Ht1 & Hk1); try assumption.
  { rewrite length_take. cbn. lia. }
  { apply Forall_take, Hall. }
  set (h1 := fold_left _ _ h) in Hk1.
  assert (Hid : device_id h1 = device_id h) by apply device_id_cached_all.
  assert (Hc1 : connected (mb w1) = true) by (rewrite Hm1; exact Hc).
  assert (Hn1 : next w1 = Delivers bad) by (unfold next; rewrite Hi1; reflexivity).
  pose proof (getter_raises c p a k w1 h1 bad Hc1 Hk1 ltac:(rewrite Hid; exact Hd')
                Ha Hn1 Hbad) as E2.
  rewrite Hid in E2.
  exists (sent w1 (exchange (device_id h) a)).
  split.
  { rewrite read_all_parameters_each. unfold read_each in *.
    rewrite Hsplit, (for_each_app _ _ _ _ _ E1). cbn [for_each].
    cbv [mbind M_bind]. rewrite E2. reflexivity. }
  split.
  { unfold sent. cbn [trace with_trace with_incoming].
    rewrite Ht1, !writes_app, <- app_assoc. f_equal.
    clear - Hlen Ej.
    do 10 (destruct j as [|j];
           [cbn in Ej; injection Ej as <- <- <-; reflexivity|]).
    cbn in Hlen. lia. }
  split; [unfold sent; cbn; rewrite Hi1; reflexivity|].
  exact Hc1.
Qed.

(** Mode answers 1, frequency answers the single byte [FF]: two frames, and
    the amplitude is never asked for. *)
Lemma read_all_parameters_stops_at_undecodable_reply_witness :
  let w := world (board true ∅) [fresh 3]
             [Delivers [x00; x00; x00; x01]; Delivers [xff];
              Delivers [x00; x00; x00; x02]] in
  exists w',
    read_all_parameters 0%nat w = (Raise UnicodeDecodeError, w') /\
    writes (trace w') = [] ++ (get_frame 3 <$> [21; 22]) /\
    incoming w' = [Delivers [x00; x00; x00; x02]] /\
    connected (mb w') = true.
Proof.
  intros w.
  assert (Hb : Forall (fun bs => benign bs = true) [[x00; x00; x00; x01]])
    by (repeat constructor).
  exact (read_all_parameters_stops_at_undecodable_reply w 0%nat (fresh 3)
           [[x00; x00; x00; x01]] [xff] [Delivers [x00; x00; x00; x02]]
           eq_refl eq_refl ltac:(simpl; lia) ltac:(simpl; lia) Hb eq_refl eq_refl).
Defined.
